(** * r-e-d : scene sequencing and first-person movement

    A shallow embedding of the TypeScript managers of the viewer
    (SequenceManager, ModelLoader, UIManager, AudioManager, CameraManager,
    PhysicsManager and the static APP_CONFIG) together with the properties the
    specification states about them.

    Conventions of the embedding
    - a JavaScript [number] that holds a quantity (time step, speed,
      coordinate) is an exact rational [Q] and values are compared with
      [==]; rounding of IEEE doubles is not modelled: what is stated of
      such a quantity is stated of exact arithmetic, which the doubles of
      the code follow up to rounding;
    - a [number] used as an index or a step counter is a [Z] or a [nat];
    - an object with mutable fields is a record, a method is a function
      from the record to the updated record;
    - an [async] method that may reject is an [Action]: a state
      transformer that returns either a value or the thrown error, the
      state surviving the throw as it does in JavaScript;
    - three.js itself (loader, raycaster, controls) is not part of the
      repository: its answers enter as parameters. *)

From Stdlib Require Import ZArith QArith Qabs List String Bool Lia Lqa Psatz Permutation.
Import ListNotations.

Local Open Scope string_scope.
Local Open Scope list_scope.
Local Open Scope Z_scope.

(** ** Vectors *)

Module Vector3.
Record t : Type := mk { x : Q; y : Q; z : Q }.

Definition zero : t := mk 0 0 0.

Definition add (a b : t) : t := mk (x a + x b) (y a + y b) (z a + z b).

Definition multiplyScalar (a : t) (s : Q) : t := mk (x a * s) (y a * s) (z a * s).

Definition addScaledVector (a v : t) (s : Q) : t :=
  mk (x a + x v * s) (y a + y v * s) (z a + z v * s).

Definition dot (a b : t) : Q := x a * x b + y a * y b + z a * z b.

Definition cross (a b : t) : t :=
  mk (y a * z b - z a * y b) (z a * x b - x a * z b) (x a * y b - y a * x b).

Definition setY (a : t) (v : Q) : t := mk (x a) v (z a).

Definition lengthSq (a : t) : Q := dot a a.
End Vector3.

(** ** APP_CONFIG (app.config.ts) and the types of types/index.ts *)

Inductive CameraType := perspective | orthographic.
Inductive ControlsKind := controls_orbit | controls_pointerlock.

Record ButtonConfig := { btn_name : string; btn_id : string }.

Record CameraPosition := { cam_pos : Vector3.t; cam_lookAt : Vector3.t; cam_fov : Q }.

Record SceneConfig := {
  name : string;
  description : string;
  models : list nat;
  cameraType : CameraType;
  controls : ControlsKind;
  autoRotate : option bool;
  autoRotateSpeed : option Q;
  enableUserRotation : option bool;
  enableZoom : option bool;
  enablePan : option bool;
  cameraPosition : option Vector3.t;
  cameraLookAt : option Vector3.t;
  buttons : option (list ButtonConfig);
  cameraPositions : option (list CameraPosition)
}.

Record PhysicsConfig := {
  playerHeight : Q;
  playerRadius : Q;
  baseMoveSpeed : Q;
  sprintMultiplier : Q;
  jumpVelocity : Q;
  gravity : Q;
  friction : Q
}.

Record VRConfig := { moveSpeed : Q; turnSpeed : Q; sprintThreshold : Q }.

Module APP_CONFIG.
Definition repo : string :=
  "https://raw.githubusercontent.com/decentralize-dfw/vea-randomfiles/main/".

(** assets.models, indices 0..7 *)
Definition assets_models : list string :=
  map (String.append repo)
    [ "DEMO2city-opt-v2.glb";
      "DEMO2city-ghost.glb";
      "DEMO2city-metal-v1.glb";
      "DEMO2city-whitefacade-v3.glb";
      "DEMO2kopuk-normalfacade-opt-v5.glb";
      "DEMO2-sehirici-apartmanici-opt-v6.glb";
      "DEMO2interior-soloapartement-opt-v4.glb";
      "SCENE5-COLLDERd.glb" ].

(** assets.sounds: six slots, all null *)
Definition assets_sounds : list (option string) :=
  [None; None; None; None; None; None].

Definition physics : PhysicsConfig :=
  {| playerHeight := 16 # 10;
     playerRadius := 4 # 10;
     baseMoveSpeed := 20;
     sprintMultiplier := 4;
     jumpVelocity := 6;
     gravity := - (20);
     friction := 10 |}.

Definition vr : VRConfig :=
  {| moveSpeed := 80; turnSpeed := 2; sprintThreshold := 5 # 10 |}.

Definition v3 (a b c : Q) : Vector3.t := Vector3.mk a b c.

Definition scene0 : SceneConfig :=
  {| name := "Pre-Start"; description := "Auto-rotate scene";
     models := [0; 4]%nat;
     cameraType := orthographic; controls := controls_orbit;
     autoRotate := Some true; autoRotateSpeed := Some 1%Q;
     enableUserRotation := Some false; enableZoom := Some false;
     enablePan := Some false;
     cameraPosition := Some (v3 0 20 15); cameraLookAt := Some (v3 0 1 0);
     buttons := None; cameraPositions := None |}.

Definition scene1 : SceneConfig :=
  {| name := "Concept & Context"; description := "Conceptual toggles";
     models := [0; 4]%nat;
     cameraType := orthographic; controls := controls_orbit;
     autoRotate := Some true; autoRotateSpeed := Some 1%Q;
     enableUserRotation := Some true; enableZoom := Some true;
     enablePan := Some false;
     cameraPosition := Some (v3 0 30 15); cameraLookAt := Some (v3 0 4 0);
     buttons := Some [ {| btn_name := "Surrounding"; btn_id := "surrounding" |};
                       {| btn_name := "Transportation"; btn_id := "transportation" |};
                       {| btn_name := "Units"; btn_id := "units" |} ];
     cameraPositions := None |}.

Definition scene2 : SceneConfig :=
  {| name := "Design Options"; description := "A/B model comparison";
     models := [0; 3; 2; 4]%nat;
     cameraType := orthographic; controls := controls_orbit;
     autoRotate := Some true; autoRotateSpeed := Some 1%Q;
     enableUserRotation := Some true; enableZoom := Some true;
     enablePan := Some false;
     cameraPosition := Some (v3 0 30 15); cameraLookAt := Some (v3 0 4 0);
     buttons := Some [ {| btn_name := "Option 1 (M1+M4)"; btn_id := "view1" |};
                       {| btn_name := "Option 2 (M3+M5)"; btn_id := "view2" |} ];
     cameraPositions := None |}.

Definition scene3 : SceneConfig :=
  {| name := "Structural View"; description := "Orbit interior structure";
     models := [2; 5]%nat;
     cameraType := orthographic; controls := controls_orbit;
     autoRotate := Some false; autoRotateSpeed := None;
     enableUserRotation := Some true; enableZoom := Some true;
     enablePan := Some false;
     cameraPosition := Some (v3 15 8 (-15)); cameraLookAt := Some (v3 0 4 0);
     buttons := None; cameraPositions := None |}.

Definition scene4 : SceneConfig :=
  {| name := "Interior Tour"; description := "Static camera positions";
     models := [6]%nat;
     cameraType := perspective; controls := controls_orbit;
     autoRotate := Some false; autoRotateSpeed := None;
     enableUserRotation := Some true; enableZoom := Some true;
     enablePan := Some false;
     cameraPosition := None; cameraLookAt := None;
     buttons := Some [ {| btn_name := "Salon"; btn_id := "cam1" |};
                       {| btn_name := "Bathroom"; btn_id := "cam2" |};
                       {| btn_name := "Bedroom 1"; btn_id := "cam3" |};
                       {| btn_name := "Bedroom 1 WC"; btn_id := "cam4" |};
                       {| btn_name := "Bedroom 2"; btn_id := "cam5" |};
                       {| btn_name := "Bedroom 2 WC"; btn_id := "cam6" |} ];
     cameraPositions := Some
       [ {| cam_pos := v3 1 (16#10) (16#10); cam_lookAt := v3 1 (16#10) (15#10); cam_fov := 80 |};
         {| cam_pos := v3 (-2) (16#10) (31#10); cam_lookAt := v3 (-21#10) (16#10) (32#10); cam_fov := 80 |};
         {| cam_pos := v3 (-2) (16#10) 0; cam_lookAt := v3 (-21#10) (16#10) (-1#10); cam_fov := 80 |};
         {| cam_pos := v3 (-2) (16#10) (21#10); cam_lookAt := v3 (-21#10) (16#10) (22#10); cam_fov := 80 |};
         {| cam_pos := v3 (44#10) (16#10) 0; cam_lookAt := v3 (45#10) (16#10) (-1#10); cam_fov := 80 |};
         {| cam_pos := v3 (39#10) (16#10) (37#10); cam_lookAt := v3 4 (16#10) (38#10); cam_fov := 80 |} ] |}.

Definition scene5 : SceneConfig :=
  {| name := "Walk-through"; description := "First-person exploration";
     models := [6; 7]%nat;
     cameraType := perspective; controls := controls_pointerlock;
     autoRotate := None; autoRotateSpeed := None;
     enableUserRotation := None; enableZoom := None; enablePan := None;
     cameraPosition := Some (v3 (14#10) (16#10) (-6#10)); cameraLookAt := None;
     buttons := None; cameraPositions := None |}.

(** [APP_CONFIG.scenes[k]]: the object has the keys 0..5 and nothing else,
    any other key reads [undefined]. *)
Definition scenes (k : Z) : option SceneConfig :=
  match k with
  | 0 => Some scene0
  | 1 => Some scene1
  | 2 => Some scene2
  | 3 => Some scene3
  | 4 => Some scene4
  | 5 => Some scene5
  | _ => None
  end.

(** [modelUrls[i]] for an index of the table. *)
Definition modelUrl (i : nat) : string := nth i assets_models "undefined".
End APP_CONFIG.

(** ** UIManager (UIManager.ts)

    Every element the manager holds is reduced to the properties the
    manager writes: [style.display], [textContent], the [selected] class,
    [innerHTML]. *)

(** [style.display]: the two values the code assigns, and the value the
    page starts with before the code assigns any. *)
Inductive Display := display_block | display_none | display_initial.

Record ToggleButton := {
  textContent : string;
  dataset_id : option string;
  btn_display : Display;
  selected : bool
}.

Record HtmlPanel := { innerHTML : string; panel_display : Display }.

Record TextEl := { text : string; text_display : Display }.

Record UIManager := {
  loadingEl : Display;
  sceneLoadingEl : Display;
  backgroundImgEl : Display;
  instructionsEl : Display;
  startButtonEl : TextEl;
  modelLabelEl : Display;
  modelToggleButtons : list ToggleButton;
  leftHtmlPanel : HtmlPanel;
  rightHtmlPanel : HtmlPanel;
  descriptionEl : TextEl;
  (** fullscreen, projectInfo, studioInfo, hint, creatorsNote *)
  infoButtons : list Display;
  (** [document.getElementById(id)?.innerHTML] of the content templates *)
  document : string -> option string
}.

(** [array.forEach((el, index) => ...)] that rewrites each element. *)
Fixpoint forEach_index {A : Type} (f : A -> nat -> A) (l : list A) (i : nat) : list A :=
  match l with
  | [] => []
  | a :: rest => f a i :: forEach_index f rest (S i)
  end.

Module UI.
Definition set_sceneLoading (d : Display) (u : UIManager) : UIManager :=
  {| loadingEl := loadingEl u; sceneLoadingEl := d;
     backgroundImgEl := backgroundImgEl u; instructionsEl := instructionsEl u;
     startButtonEl := startButtonEl u; modelLabelEl := modelLabelEl u;
     modelToggleButtons := modelToggleButtons u;
     leftHtmlPanel := leftHtmlPanel u; rightHtmlPanel := rightHtmlPanel u;
     descriptionEl := descriptionEl u; infoButtons := infoButtons u;
     document := document u |}.

Definition set_backgroundImg (d : Display) (u : UIManager) : UIManager :=
  {| loadingEl := loadingEl u; sceneLoadingEl := sceneLoadingEl u;
     backgroundImgEl := d; instructionsEl := instructionsEl u;
     startButtonEl := startButtonEl u; modelLabelEl := modelLabelEl u;
     modelToggleButtons := modelToggleButtons u;
     leftHtmlPanel := leftHtmlPanel u; rightHtmlPanel := rightHtmlPanel u;
     descriptionEl := descriptionEl u; infoButtons := infoButtons u;
     document := document u |}.

Definition set_instructions (d : Display) (u : UIManager) : UIManager :=
  {| loadingEl := loadingEl u; sceneLoadingEl := sceneLoadingEl u;
     backgroundImgEl := backgroundImgEl u; instructionsEl := d;
     startButtonEl := startButtonEl u; modelLabelEl := modelLabelEl u;
     modelToggleButtons := modelToggleButtons u;
     leftHtmlPanel := leftHtmlPanel u; rightHtmlPanel := rightHtmlPanel u;
     descriptionEl := descriptionEl u; infoButtons := infoButtons u;
     document := document u |}.

Definition set_startButton (e : TextEl) (u : UIManager) : UIManager :=
  {| loadingEl := loadingEl u; sceneLoadingEl := sceneLoadingEl u;
     backgroundImgEl := backgroundImgEl u; instructionsEl := instructionsEl u;
     startButtonEl := e; modelLabelEl := modelLabelEl u;
     modelToggleButtons := modelToggleButtons u;
     leftHtmlPanel := leftHtmlPanel u; rightHtmlPanel := rightHtmlPanel u;
     descriptionEl := descriptionEl u; infoButtons := infoButtons u;
     document := document u |}.

Definition set_toggles (lbl : Display) (bs : list ToggleButton) (u : UIManager) : UIManager :=
  {| loadingEl := loadingEl u; sceneLoadingEl := sceneLoadingEl u;
     backgroundImgEl := backgroundImgEl u; instructionsEl := instructionsEl u;
     startButtonEl := startButtonEl u; modelLabelEl := lbl;
     modelToggleButtons := bs;
     leftHtmlPanel := leftHtmlPanel u; rightHtmlPanel := rightHtmlPanel u;
     descriptionEl := descriptionEl u; infoButtons := infoButtons u;
     document := document u |}.

Definition set_panels (l r : HtmlPanel) (u : UIManager) : UIManager :=
  {| loadingEl := loadingEl u; sceneLoadingEl := sceneLoadingEl u;
     backgroundImgEl := backgroundImgEl u; instructionsEl := instructionsEl u;
     startButtonEl := startButtonEl u; modelLabelEl := modelLabelEl u;
     modelToggleButtons := modelToggleButtons u;
     leftHtmlPanel := l; rightHtmlPanel := r;
     descriptionEl := descriptionEl u; infoButtons := infoButtons u;
     document := document u |}.

Definition set_description (e : TextEl) (u : UIManager) : UIManager :=
  {| loadingEl := loadingEl u; sceneLoadingEl := sceneLoadingEl u;
     backgroundImgEl := backgroundImgEl u; instructionsEl := instructionsEl u;
     startButtonEl := startButtonEl u; modelLabelEl := modelLabelEl u;
     modelToggleButtons := modelToggleButtons u;
     leftHtmlPanel := leftHtmlPanel u; rightHtmlPanel := rightHtmlPanel u;
     descriptionEl := e; infoButtons := infoButtons u;
     document := document u |}.

Definition set_infoButtons (l : list Display) (u : UIManager) : UIManager :=
  {| loadingEl := loadingEl u; sceneLoadingEl := sceneLoadingEl u;
     backgroundImgEl := backgroundImgEl u; instructionsEl := instructionsEl u;
     startButtonEl := startButtonEl u; modelLabelEl := modelLabelEl u;
     modelToggleButtons := modelToggleButtons u;
     leftHtmlPanel := leftHtmlPanel u; rightHtmlPanel := rightHtmlPanel u;
     descriptionEl := descriptionEl u; infoButtons := l;
     document := document u |}.

Definition showSceneLoading := set_sceneLoading display_block.
Definition hideSceneLoading := set_sceneLoading display_none.
Definition showBackgroundImage := set_backgroundImg display_block.
Definition hideBackgroundImage := set_backgroundImg display_none.
Definition showInstructions := set_instructions display_block.
Definition hideInstructions := set_instructions display_none.

Definition showStartButton (txt : string) : UIManager -> UIManager :=
  set_startButton {| text := txt; text_display := display_block |}.

Definition updateToggleButtons (buttons : option (list ButtonConfig)) (u : UIManager)
  : UIManager :=
  let n := match buttons with Some bs => List.length bs | None => 0%nat end in
  let showLabel := (0 <? n)%nat in
  let each (btn : ToggleButton) (index : nat) : ToggleButton :=
    match buttons with
    | Some bs =>
        match nth_error bs index with
        | Some config =>
            {| textContent := btn_name config; dataset_id := Some (btn_id config);
               btn_display := display_block; selected := false |}
        | None =>
            {| textContent := textContent btn; dataset_id := dataset_id btn;
               btn_display := display_none; selected := selected btn |}
        end
    | None =>
        {| textContent := textContent btn; dataset_id := dataset_id btn;
           btn_display := display_none; selected := selected btn |}
    end in
  let after := forEach_index each (modelToggleButtons u) 0 in
  let after :=
    if showLabel then
      match after with
      | b0 :: rest =>
          {| textContent := textContent b0; dataset_id := dataset_id b0;
             btn_display := btn_display b0; selected := true |} :: rest
      | [] => []
      end
    else after in
  set_toggles (if showLabel then display_block else display_none) after u.

(** [btn.classList.toggle('selected', i === index)] for every button *)
Definition selectToggleButton (index : Z) (u : UIManager) : UIManager :=
  set_toggles (modelLabelEl u)
    (forEach_index
       (fun btn i =>
          {| textContent := textContent btn; dataset_id := dataset_id btn;
             btn_display := btn_display btn; selected := (Z.of_nat i =? index) |})
       (modelToggleButtons u) 0)
    u.

Definition panelFrom (u : UIManager) (id : option string) : HtmlPanel :=
  match id with
  | Some i =>
      match document u i with
      | Some html => {| innerHTML := html; panel_display := display_block |}
      | None => {| innerHTML := ""; panel_display := display_none |}
      end
  | None => {| innerHTML := ""; panel_display := display_none |}
  end.

Definition updateHtmlPanels (leftId rightId : option string) (u : UIManager) : UIManager :=
  set_panels (panelFrom u leftId) (panelFrom u rightId) u.

Definition showDescription (txt : string) : UIManager -> UIManager :=
  set_description {| text := txt; text_display := display_block |}.

Definition hideDescription (u : UIManager) : UIManager :=
  set_description {| text := text (descriptionEl u); text_display := display_none |} u.

Definition showInfoButtons (show : bool) (u : UIManager) : UIManager :=
  let d := if show then display_block else display_none in
  set_infoButtons (map (fun _ => d) (infoButtons u)) u.

(** The element with id [fullscreenButton] is [infoButtons[0]]. *)
Definition hideFullscreenButton (u : UIManager) : UIManager :=
  set_infoButtons
    (match infoButtons u with
     | _ :: rest => display_none :: rest
     | [] => []
     end) u.

Definition getModelToggleButtons (u : UIManager) : list ToggleButton :=
  modelToggleButtons u.

(** The manager as its constructor leaves it; what the page shows before
    any method ran is the style sheet's business. *)
Definition create (doc : string -> option string) : UIManager :=
  let blank := {| textContent := ""; dataset_id := None;
                  btn_display := display_initial; selected := false |} in
  {| loadingEl := display_initial; sceneLoadingEl := display_initial;
     backgroundImgEl := display_initial; instructionsEl := display_initial;
     startButtonEl := {| text := ""; text_display := display_initial |};
     modelLabelEl := display_initial;
     modelToggleButtons := [blank; blank; blank; blank; blank; blank];
     leftHtmlPanel := {| innerHTML := ""; panel_display := display_initial |};
     rightHtmlPanel := {| innerHTML := ""; panel_display := display_initial |};
     descriptionEl := {| text := ""; text_display := display_initial |};
     infoButtons := [display_initial; display_initial; display_initial;
                     display_initial; display_initial];
     document := doc |}.
End UI.

(** ** ModelLoader (ModelLoader.ts) *)

Definition Error := string.

(** What the GLTF loader hands to the success callback, as far as the
    callbacks read it: the number of animation clips and of meshes. *)
Record GLTF := { animations : nat; meshes : nat }.

Inductive Fetch := Loaded (gltf : GLTF) | Rejected (e : Error).

Record ModelConfig := {
  cfg_id : option string;
  cfg_pos : option Vector3.t;
  cfg_rot : option Vector3.t;
  cfg_scale : option Vector3.t;
  cfg_visible : option bool
}.

Record Object3D := {
  asset : string;            (** the URL the scene graph was parsed from *)
  userData_id : option string;
  visible : bool;
  obj_position : option Vector3.t;
  obj_rotation : option Vector3.t;
  obj_scale : option Vector3.t
}.

Record LoadedModel := { scene : Object3D; mixer : option nat }.

(** A collider mesh: the asset it came from and its number in the asset. *)
Definition Mesh := (string * nat)%type.

Record ModelLoader := {
  loadedModels : list LoadedModel;
  colliderMeshes : list Mesh;
  (** ghost field: the URLs handed to [gltfLoader.load], oldest first *)
  requested : list string
}.

Inductive Request :=
| ReqModel (url : string) (config : ModelConfig)
| ReqCollider (url : string).

Definition req_url (r : Request) : string :=
  match r with ReqModel u _ => u | ReqCollider u => u end.

Module Loader.
Definition create : ModelLoader :=
  {| loadedModels := []; colliderMeshes := []; requested := [] |}.

(** The success callback of [loadModel]; [if (config.id)] stores no
    empty id. *)
Definition onModel (url : string) (config : ModelConfig) (gltf : GLTF) (ml : ModelLoader)
  : ModelLoader :=
  let modelScene :=
    {| asset := url;
       userData_id := match cfg_id config with
                      | Some id => if String.eqb id "" then None else Some id
                      | None => None
                      end;
       visible := match cfg_visible config with Some v => v | None => true end;
       obj_position := cfg_pos config;
       obj_rotation := cfg_rot config;
       obj_scale := cfg_scale config |} in
  let mixer := if (0 <? animations gltf)%nat then Some (animations gltf) else None in
  {| loadedModels := loadedModels ml ++ [ {| scene := modelScene; mixer := mixer |} ];
     colliderMeshes := colliderMeshes ml;
     requested := requested ml |}.

(** The success callback of [loadColliderModel]. *)
Definition onCollider (url : string) (gltf : GLTF) (ml : ModelLoader) : ModelLoader :=
  let modelScene :=
    {| asset := url; userData_id := None; visible := false;
       obj_position := None; obj_rotation := None; obj_scale := None |} in
  {| loadedModels := loadedModels ml ++ [ {| scene := modelScene; mixer := None |} ];
     colliderMeshes := colliderMeshes ml ++ map (fun k => (url, k)) (seq 0 (meshes gltf));
     requested := requested ml |}.

Definition setVisible (v : bool) (m : LoadedModel) : LoadedModel :=
  {| scene := {| asset := asset (scene m); userData_id := userData_id (scene m);
                 visible := v;
                 obj_position := obj_position (scene m);
                 obj_rotation := obj_rotation (scene m);
                 obj_scale := obj_scale (scene m) |};
     mixer := mixer m |}.

Definition has_id (id : string) (m : LoadedModel) : bool :=
  match userData_id (scene m) with
  | Some i => String.eqb i id
  | None => false
  end.

(** [loadedModels.find(m => m.scene.userData.id === id)] and the write to
    the model found: the first match only. *)
Fixpoint setFirst (id : string) (v : bool) (l : list LoadedModel) : list LoadedModel :=
  match l with
  | [] => []
  | m :: rest => if has_id id m then setVisible v m :: rest else m :: setFirst id v rest
  end.

Definition setModelVisibility (id : string) (v : bool) (ml : ModelLoader) : ModelLoader :=
  {| loadedModels := setFirst id v (loadedModels ml);
     colliderMeshes := colliderMeshes ml;
     requested := requested ml |}.

Definition unloadAll (ml : ModelLoader) : ModelLoader :=
  {| loadedModels := []; colliderMeshes := []; requested := requested ml |}.

Definition getColliderMeshes (ml : ModelLoader) : list Mesh := colliderMeshes ml.
Definition getLoadedModels (ml : ModelLoader) : list LoadedModel := loadedModels ml.
End Loader.

(** ** AudioManager (AudioManager.ts) *)

Definition AudioBuffer := string.

Record Audio := { buffer : AudioBuffer; loop : bool; volume : Q; isPlaying : bool }.

(** [sounds] is the heap of every [THREE.Audio] the manager created, a
    sound being named by its position; [activeSounds] holds references. *)
Record AudioManager := {
  soundBuffers : list (option AudioBuffer);
  sounds : list Audio;
  activeSounds : list nat
}.

Module AudioM.
Definition create (buffers : list (option AudioBuffer)) : AudioManager :=
  {| soundBuffers := buffers; sounds := []; activeSounds := [] |}.

(** [if (sound.isPlaying) sound.stop()] on the sound at reference [r] *)
Definition stopSound (r : nat) (heap : list Audio) : list Audio :=
  forEach_index
    (fun s i =>
       if (i =? r)%nat then
         {| buffer := buffer s; loop := loop s; volume := volume s; isPlaying := false |}
       else s)
    heap 0.

Definition stopAll (a : AudioManager) : AudioManager :=
  {| soundBuffers := soundBuffers a;
     sounds := fold_left (fun heap r => stopSound r heap) (activeSounds a) (sounds a);
     activeSounds := [] |}.

Definition playAudio (index : nat) (loop : bool) (volume : Q) (a : AudioManager)
  : AudioManager :=
  match nth_error (soundBuffers a) index with
  | Some (Some buf) =>
      let a1 := stopAll a in
      let sound := {| buffer := buf; loop := loop; volume := volume; isPlaying := true |} in
      {| soundBuffers := soundBuffers a1;
         sounds := sounds a1 ++ [sound];
         activeSounds := activeSounds a1 ++ [List.length (sounds a1)] |}
  | _ => a
  end.
End AudioM.

(** ** CameraManager, as far as the sequence drives it

    [setupCamera(config, isVR)] reconfigures the active camera and its
    controller from its two arguments alone; the embedding keeps the
    arguments of every call, latest last. *)

Inductive CameraMode := orbit | static_orbit | pointerlock.

Record CameraConfig := {
  cc_type : CameraMode;
  cc_cameraType : option CameraType;
  cc_pos : option Vector3.t;
  cc_lookAt : option Vector3.t;
  cc_fov : option Q;
  cc_autoRotate : option bool;
  cc_autoRotateSpeed : option Q;
  cc_enablePan : option bool;
  cc_enableZoom : option bool;
  cc_enableRotate : option bool
}.

Record CameraManager := { setups : list (CameraConfig * bool) }.

Definition setupCamera (config : CameraConfig) (isVR : bool) (c : CameraManager)
  : CameraManager :=
  {| setups := setups c ++ [(config, isVR)] |}.

(** ** SequenceManager (SequenceManager.ts)

    The managers are shared objects; the record below is the heap the
    sequence manager reaches through its fields. [reloads] counts the
    calls of [window.location.reload()]. *)

Record SequenceManager := {
  currentScene : Z;
  modelLoader : ModelLoader;
  cameraManager : CameraManager;
  audioManager : AudioManager;
  uiManager : UIManager;
  isVR : bool;
  reloads : nat
}.

Inductive Outcome (A : Type) :=
| Returned (a : A)
| Thrown (e : Error).
Arguments Returned {A} a.
Arguments Thrown {A} e.

Definition Action (A : Type) : Type := SequenceManager -> Outcome A * SequenceManager.

Module Act.
Definition ret {A} (a : A) : Action A := fun s => (Returned a, s).

Definition throw {A} (e : Error) : Action A := fun s => (Thrown e, s).

Definition bind {A B} (m : Action A) (k : A -> Action B) : Action B :=
  fun s =>
    match m s with
    | (Returned a, s1) => k a s1
    | (Thrown e, s1) => (Thrown e, s1)
    end.

(** [try { body } catch (error) { handler(error) }] *)
Definition tryCatch {A} (body : Action A) (handler : Error -> Action A) : Action A :=
  fun s =>
    match body s with
    | (Returned a, s1) => (Returned a, s1)
    | (Thrown e, s1) => handler e s1
    end.

(** [try { body } finally { fin }]: [fin] runs on every exit of [body];
    the result is that of [body] unless [fin] throws itself. *)
Definition tryFinally {A} (body : Action A) (fin : Action unit) : Action A :=
  fun s =>
    match body s with
    | (r, s1) =>
        match fin s1 with
        | (Returned _, s2) => (r, s2)
        | (Thrown e, s2) => (Thrown e, s2)
        end
    end.

Definition update (f : SequenceManager -> SequenceManager) : Action unit :=
  fun s => (Returned tt, f s).

Definition get : Action SequenceManager := fun s => (Returned s, s).
End Act.

Declare Scope action_scope.
Delimit Scope action_scope with action.
Notation "x <- m ;; k" := (Act.bind m (fun x => k))
  (at level 61, m at next level, right associativity) : action_scope.
Notation "m ;; k" := (Act.bind m (fun _ => k))
  (at level 61, right associativity) : action_scope.

Definition with_ui (f : UIManager -> UIManager) (s : SequenceManager) : SequenceManager :=
  {| currentScene := currentScene s; modelLoader := modelLoader s;
     cameraManager := cameraManager s; audioManager := audioManager s;
     uiManager := f (uiManager s); isVR := isVR s; reloads := reloads s |}.

Definition with_loader (f : ModelLoader -> ModelLoader) (s : SequenceManager) : SequenceManager :=
  {| currentScene := currentScene s; modelLoader := f (modelLoader s);
     cameraManager := cameraManager s; audioManager := audioManager s;
     uiManager := uiManager s; isVR := isVR s; reloads := reloads s |}.

Definition with_audio (f : AudioManager -> AudioManager) (s : SequenceManager) : SequenceManager :=
  {| currentScene := currentScene s; modelLoader := modelLoader s;
     cameraManager := cameraManager s; audioManager := f (audioManager s);
     uiManager := uiManager s; isVR := isVR s; reloads := reloads s |}.

Definition with_camera (config : CameraConfig) (s : SequenceManager) : SequenceManager :=
  {| currentScene := currentScene s; modelLoader := modelLoader s;
     cameraManager := setupCamera config (isVR s) (cameraManager s);
     audioManager := audioManager s;
     uiManager := uiManager s; isVR := isVR s; reloads := reloads s |}.

Definition ui (f : UIManager -> UIManager) : Action unit := Act.update (with_ui f).
Definition loader (f : ModelLoader -> ModelLoader) : Action unit := Act.update (with_loader f).
Definition audio (f : AudioManager -> AudioManager) : Action unit := Act.update (with_audio f).
Definition camera (config : CameraConfig) : Action unit := Act.update (with_camera config).

(** [this.currentScene++] *)
Definition incrementScene (s : SequenceManager) : SequenceManager :=
  {| currentScene := currentScene s + 1; modelLoader := modelLoader s;
     cameraManager := cameraManager s; audioManager := audioManager s;
     uiManager := uiManager s; isVR := isVR s; reloads := reloads s |}.

(** [window.location.reload()] *)
Definition reload (s : SequenceManager) : SequenceManager :=
  {| currentScene := currentScene s; modelLoader := modelLoader s;
     cameraManager := cameraManager s; audioManager := audioManager s;
     uiManager := uiManager s; isVR := isVR s; reloads := S (reloads s) |}.

(** [array[index]] for a JavaScript number that is an integer. *)
Definition js_index {A} (l : list A) (index : Z) : option A :=
  if index <? 0 then None else nth_error l (Z.to_nat index).

(** The text a template literal prints for [buttons[index]?.textContent]. *)
Definition buttonText (bs : list ToggleButton) (index : Z) : string :=
  match js_index bs index with
  | Some b => textContent b
  | None => "undefined"
  end.

(** The camera configuration the scenes 0 to 3 build from their config. *)
Definition orbitConfig (config : SceneConfig) : CameraConfig :=
  {| cc_type := orbit;
     cc_cameraType := Some (cameraType config);
     cc_pos := cameraPosition config;
     cc_lookAt := cameraLookAt config;
     cc_fov := None;
     cc_autoRotate := autoRotate config;
     cc_autoRotateSpeed := autoRotateSpeed config;
     cc_enablePan := enablePan config;
     cc_enableZoom := enableZoom config;
     cc_enableRotate := enableUserRotation config |}.

Definition modelCfg (id : option string) (vis : bool) : ModelConfig :=
  {| cfg_id := id; cfg_pos := None; cfg_rot := None; cfg_scale := None;
     cfg_visible := Some vis |}.

Definition scene4_panelIds : list (string * string) :=
  [ ("html_scene4_cam1_left", "html_scene4_cam1_right");
    ("html_scene4_cam2_left", "html_scene4_cam2_right");
    ("html_scene4_cam3_left", "html_scene4_cam3_right");
    ("html_scene4_cam4_left", "html_scene4_cam4_right");
    ("html_scene4_cam5_left", "html_scene4_cam5_right");
    ("html_scene4_cam6_left", "html_scene4_cam6_right") ].

Section Sequence.
(** The answer of the network and of the GLTF parser for a URL. *)
Variable network : string -> Fetch.

(** The order in which the requests of one [Promise.all] batch settle. *)
Variable arrival : list Request -> list Request.

Local Open Scope action_scope.

(** One request settles: its callback runs on success; on failure the
    promise rejects with the loader's error. *)
Definition settleOne (r : Request) (ml : ModelLoader) : ModelLoader * option Error :=
  match network (req_url r) with
  | Loaded gltf =>
      (match r with
       | ReqModel url config => Loader.onModel url config gltf ml
       | ReqCollider url => Loader.onCollider url gltf ml
       end, None)
  | Rejected e => (ml, Some e)
  end.

(** The requests of the batch settle one after the other, in the order
    of their arrival. The first rejection rejects [Promise.all], and the
    call that awaits it resumes at once: the requests that have not
    settled by then are still in flight, and their callbacks are no
    part of the call. *)
Fixpoint settle (rs : list Request) (ml : ModelLoader) : ModelLoader * option Error :=
  match rs with
  | [] => (ml, None)
  | r :: rest =>
      let (ml1, e1) := settleOne r ml in
      match e1 with
      | Some e => (ml1, Some e)
      | None => settle rest ml1
      end
  end.

Definition issue (rs : list Request) (ml : ModelLoader) : ModelLoader :=
  {| loadedModels := loadedModels ml; colliderMeshes := colliderMeshes ml;
     requested := requested ml ++ map req_url rs |}.

(** [await Promise.all(rs.map(load))], and [await load(r)] for one request *)
Definition awaitAll (rs : list Request) : Action unit :=
  fun s =>
    let (ml, err) := settle (arrival rs) (issue rs (modelLoader s)) in
    (match err with Some e => Thrown e | None => Returned tt end,
     with_loader (fun _ => ml) s).

Definition handleVariantClick (index : Z) : Action unit :=
  ui (UI.selectToggleButton index) ;;
  s <- Act.get ;;
  let sceneConfig := APP_CONFIG.scenes (currentScene s) in
  let buttons := UI.getModelToggleButtons (uiManager s) in
  match currentScene s with
  | 1 =>
      (if index =? 0 then
         ui (UI.updateHtmlPanels (Some "html_scene1_opt1_left") (Some "html_scene1_opt1_right"))
       else if index =? 1 then
         ui (UI.updateHtmlPanels (Some "html_scene1_opt2_left") (Some "html_scene1_opt2_right"))
       else if index =? 2 then
         ui (UI.updateHtmlPanels (Some "html_scene1_opt3_left") (Some "html_scene1_opt3_right"))
       else Act.ret tt) ;;
      ui (UI.showDescription (String.append "Info for " (buttonText buttons index)))
  | 2 =>
      let showView1 := index =? 0 in
      loader (Loader.setModelVisibility "m1" showView1) ;;
      loader (Loader.setModelVisibility "m4" showView1) ;;
      loader (Loader.setModelVisibility "m3" (negb showView1)) ;;
      loader (Loader.setModelVisibility "m5" (negb showView1)) ;;
      (if index =? 0 then
         ui (UI.updateHtmlPanels (Some "html_scene2_opt1_left") (Some "html_scene2_opt1_right"))
       else if index =? 1 then
         ui (UI.updateHtmlPanels (Some "html_scene2_opt2_left") (Some "html_scene2_opt2_right"))
       else Act.ret tt) ;;
      ui (UI.showDescription (String.append "Showing " (buttonText buttons index)))
  | 4 =>
      match sceneConfig with
      | None => Act.throw "TypeError: sceneConfig is undefined"
      | Some cfg =>
          match cameraPositions cfg with
          | Some cps =>
              if index <? Z.of_nat (List.length cps) then
                match js_index cps index with
                | None => Act.throw "TypeError: camPos is undefined"
                | Some camPos =>
                    camera {| cc_type := static_orbit;
                              cc_cameraType := Some perspective;
                              cc_pos := Some (cam_pos camPos);
                              cc_lookAt := Some (cam_lookAt camPos);
                              cc_fov := Some (cam_fov camPos);
                              cc_autoRotate := Some false;
                              cc_autoRotateSpeed := None;
                              cc_enablePan := Some false;
                              cc_enableZoom := Some true;
                              cc_enableRotate := Some true |} ;;
                    match js_index scene4_panelIds index with
                    | Some (l, r) => ui (UI.updateHtmlPanels (Some l) (Some r))
                    | None => Act.ret tt
                    end ;;
                    ui (UI.showDescription (String.append "Camera: " (buttonText buttons index)))
                end
              else Act.ret tt
          | None => Act.ret tt
          end
      end
  | _ => Act.ret tt
  end.

Definition toggleButtonsIfAny (config : SceneConfig) : Action unit :=
  match buttons config with
  | Some bs => ui (UI.updateToggleButtons (Some bs))
  | None => Act.ret tt
  end.

Definition loadScene0 (config : SceneConfig) : Action unit :=
  ui UI.hideInstructions ;;
  ui (UI.showStartButton "Start") ;;
  loader Loader.unloadAll ;;
  awaitAll (map (fun modelIndex => ReqModel (APP_CONFIG.modelUrl modelIndex) (modelCfg None true))
                (models config)) ;;
  camera (orbitConfig config) ;;
  ui (UI.updateHtmlPanels (Some "html_scene0_left") (Some "html_scene0_right")) ;;
  audio (AudioM.playAudio 0 true (1 # 2)).

Definition loadScene1 (config : SceneConfig) : Action unit :=
  ui (UI.showStartButton "Next Scene") ;;
  camera (orbitConfig config) ;;
  toggleButtonsIfAny config ;;
  ui (UI.updateHtmlPanels (Some "html_scene1_opt1_left") (Some "html_scene1_opt1_right")) ;;
  audio (AudioM.playAudio 1 true (1 # 2)).

Definition loadScene2 (config : SceneConfig) : Action unit :=
  loader Loader.unloadAll ;;
  awaitAll [ ReqModel (APP_CONFIG.modelUrl 0) (modelCfg (Some "m1") false);
             ReqModel (APP_CONFIG.modelUrl 3) (modelCfg (Some "m4") false);
             ReqModel (APP_CONFIG.modelUrl 2) (modelCfg (Some "m3") false);
             ReqModel (APP_CONFIG.modelUrl 4) (modelCfg (Some "m5") false) ] ;;
  toggleButtonsIfAny config ;;
  camera (orbitConfig config) ;;
  handleVariantClick 0 ;;
  audio (AudioM.playAudio 2 true (1 # 2)).

Definition loadScene3 (config : SceneConfig) : Action unit :=
  loader Loader.unloadAll ;;
  awaitAll (map (fun modelIndex => ReqModel (APP_CONFIG.modelUrl modelIndex) (modelCfg None true))
                (models config)) ;;
  ui (UI.updateToggleButtons None) ;;
  camera (orbitConfig config) ;;
  ui (UI.updateHtmlPanels (Some "html_scene3_left") (Some "html_scene3_right")) ;;
  audio (AudioM.playAudio 3 true (1 # 2)).

Definition loadScene4 (config : SceneConfig) : Action unit :=
  loader Loader.unloadAll ;;
  awaitAll [ ReqModel (APP_CONFIG.modelUrl 6) (modelCfg None true) ] ;;
  toggleButtonsIfAny config ;;
  handleVariantClick 0 ;;
  audio (AudioM.playAudio 4 true (1 # 2)).

Definition loadScene5 (config : SceneConfig) : Action unit :=
  loader Loader.unloadAll ;;
  awaitAll [ ReqModel (APP_CONFIG.modelUrl 6) (modelCfg None true);
             ReqCollider (APP_CONFIG.modelUrl 7) ] ;;
  ui (UI.updateToggleButtons None) ;;
  ui (UI.showStartButton "Restart") ;;
  camera {| cc_type := pointerlock; cc_cameraType := None;
            cc_pos := cameraPosition config; cc_lookAt := None; cc_fov := None;
            cc_autoRotate := None; cc_autoRotateSpeed := None;
            cc_enablePan := None; cc_enableZoom := None; cc_enableRotate := None |} ;;
  ui (UI.updateHtmlPanels (Some "html_scene5_left") (Some "html_scene5_right")) ;;
  audio (AudioM.playAudio 5 true (1 # 2)).

Definition loadScene (config : SceneConfig) : Action unit :=
  s <- Act.get ;;
  match currentScene s with
  | 0 => loadScene0 config
  | 1 => loadScene1 config
  | 2 => loadScene2 config
  | 3 => loadScene3 config
  | 4 => loadScene4 config
  | 5 => loadScene5 config
  | _ => Act.ret tt
  end.

Definition runNextScene : Action unit :=
  Act.update incrementScene ;;
  ui UI.showSceneLoading ;;
  ui UI.showBackgroundImage ;;
  ui (UI.showInfoButtons false) ;;
  ui (UI.updateHtmlPanels None None) ;;
  ui UI.hideDescription ;;
  audio AudioM.stopAll ;;
  Act.tryFinally
    (Act.tryCatch
       (s <- Act.get ;;
        match APP_CONFIG.scenes (currentScene s) with
        | None =>
            if currentScene s =? 6 then Act.update reload else Act.ret tt
        | Some sceneConfig => loadScene sceneConfig
        end)
       (fun error => Act.throw error))
    (ui UI.hideSceneLoading ;;
     ui UI.hideBackgroundImage ;;
     ui (UI.showInfoButtons true) ;;
     s <- Act.get ;;
     if isVR s then ui UI.hideFullscreenButton else Act.ret tt).

Definition getCurrentScene (s : SequenceManager) : Z := currentScene s.

(** [n] clicks on the start button, each after the previous call has
    settled: the outcomes, oldest first, and the final state. *)
Fixpoint advance (n : nat) (s : SequenceManager) : list (Outcome unit) * SequenceManager :=
  match n with
  | O => ([], s)
  | S k =>
      let (outs, s1) := advance k s in
      let (o, s2) := runNextScene s1 in
      (outs ++ [o], s2)
  end.
End Sequence.

(** The application as its constructor wires it. *)
Definition start (vr : bool) (buffers : list (option AudioBuffer))
  (doc : string -> option string) : SequenceManager :=
  {| currentScene := -1;
     modelLoader := Loader.create;
     cameraManager := {| setups := [] |};
     audioManager := AudioM.create buffers;
     uiManager := UI.create doc;
     isVR := vr;
     reloads := 0 |}.

(** ** PhysicsManager (PhysicsManager.ts) *)

Module KeyState.
Record t : Type := mk {
  forward : bool;
  backward : bool;
  left : bool;
  right : bool;
  jump : bool;
  sprint : bool
}.

Definition released : t := mk false false false false false false.
End KeyState.

Record PhysicsManager := {
  playerVelocity : Vector3.t;
  playerDirection : Vector3.t;
  playerOnFloor : bool;
  currentMoveSpeed : Q;
  keys : KeyState.t
}.

(** One entry of [raycaster.intersectObjects(...)]. *)
Record Intersection := { distance : Q; point : Vector3.t }.

(** [raycaster.set(origin, direction); raycaster.intersectObjects(colliderMeshes)]
    for the collider meshes of the frame: the hits, nearest first. *)
Definition Raycast : Type := Vector3.t -> Vector3.t -> list Intersection.

(** The pointer-lock controls and the camera they move: the camera's
    position, the first column of its matrix (its right vector) and its up
    vector. *)
Record PointerLockControls := {
  isLocked : bool;
  position : Vector3.t;
  matrixColumn0 : Vector3.t;
  up : Vector3.t
}.

Record Desktop := { physicsManager : PhysicsManager; pointerLockControls : PointerLockControls }.

(** The VR rig: its position and the angle [rotateY] has accumulated. *)
Record PlayerRig := { rig_position : Vector3.t; rig_rotationY : Q }.

Record VR := { vr_physicsManager : PhysicsManager; playerRig : PlayerRig }.

Record Gamepad := { axes : list Q; gp_buttons : list Q }.

(** [controller.userData]: the gamepad, once connected, and the hand. *)
Record Controller := { gamepad : option Gamepad; hand : string }.

Inductive KeyCode := KeyW | KeyS | KeyA | KeyD | Space | ShiftLeft | KeyOther.

Definition Qltb (a b : Q) : bool := negb (Qle_bool b a).

(** [Math.max(a, b)] *)
Definition Math_max (a b : Q) : Q := if Qle_bool a b then b else a.

(** [Number(flag)] *)
Definition Number (b : bool) : Q := if b then 1 else 0.

(** [value || 0] for a number that may be missing *)
Definition or_zero (o : option Q) : Q := match o with Some v => v | None => 0 end.

Definition set_pos (p : Vector3.t) (c : PointerLockControls) : PointerLockControls :=
  {| isLocked := isLocked c; position := p;
     matrixColumn0 := matrixColumn0 c; up := up c |}.

(** [PointerLockControls.moveRight]: along the camera's right vector. *)
Definition moveRight (d : Q) (c : PointerLockControls) : PointerLockControls :=
  set_pos (Vector3.addScaledVector (position c) (matrixColumn0 c) d) c.

(** [PointerLockControls.moveForward]: along [up x right], which stays
    parallel to the ground whatever the pitch. *)
Definition moveForward (d : Q) (c : PointerLockControls) : PointerLockControls :=
  set_pos (Vector3.addScaledVector (position c)
             (Vector3.cross (up c) (matrixColumn0 c)) d) c.

Definition down : Vector3.t := Vector3.mk 0 (-1) 0.

Definition checkDirections : list Vector3.t :=
  [ Vector3.mk 1 0 0; Vector3.mk (-1) 0 0; Vector3.mk 0 0 1; Vector3.mk 0 0 (-1) ].

Definition set_velocity (v : Vector3.t) (p : PhysicsManager) : PhysicsManager :=
  {| playerVelocity := v; playerDirection := playerDirection p;
     playerOnFloor := playerOnFloor p; currentMoveSpeed := currentMoveSpeed p;
     keys := keys p |}.

Definition set_jump (j : bool) (p : PhysicsManager) : PhysicsManager :=
  {| playerVelocity := playerVelocity p; playerDirection := playerDirection p;
     playerOnFloor := playerOnFloor p; currentMoveSpeed := currentMoveSpeed p;
     keys := KeyState.mk (KeyState.forward (keys p)) (KeyState.backward (keys p))
               (KeyState.left (keys p)) (KeyState.right (keys p)) j
               (KeyState.sprint (keys p)) |}.

Definition set_onFloor (f : bool) (p : PhysicsManager) : PhysicsManager :=
  {| playerVelocity := playerVelocity p; playerDirection := playerDirection p;
     playerOnFloor := f; currentMoveSpeed := currentMoveSpeed p;
     keys := keys p |}.

Definition set_direction (d : Vector3.t) (p : PhysicsManager) : PhysicsManager :=
  {| playerVelocity := playerVelocity p; playerDirection := d;
     playerOnFloor := playerOnFloor p; currentMoveSpeed := currentMoveSpeed p;
     keys := keys p |}.

Module Physics.
Import APP_CONFIG.
Local Open Scope Q_scope.

Definition create : PhysicsManager :=
  {| playerVelocity := Vector3.zero; playerDirection := Vector3.zero;
     playerOnFloor := false;
     currentMoveSpeed := baseMoveSpeed physics;
     keys := KeyState.released |}.

Definition handleKeyDown (code : KeyCode) (p : PhysicsManager) : PhysicsManager :=
  let k := keys p in
  let with_keys (k' : KeyState.t) (speed : Q) :=
    {| playerVelocity := playerVelocity p; playerDirection := playerDirection p;
       playerOnFloor := playerOnFloor p; currentMoveSpeed := speed; keys := k' |} in
  match code with
  | KeyW => with_keys (KeyState.mk true (KeyState.backward k) (KeyState.left k)
                         (KeyState.right k) (KeyState.jump k) (KeyState.sprint k))
                      (currentMoveSpeed p)
  | KeyS => with_keys (KeyState.mk (KeyState.forward k) true (KeyState.left k)
                         (KeyState.right k) (KeyState.jump k) (KeyState.sprint k))
                      (currentMoveSpeed p)
  | KeyA => with_keys (KeyState.mk (KeyState.forward k) (KeyState.backward k) true
                         (KeyState.right k) (KeyState.jump k) (KeyState.sprint k))
                      (currentMoveSpeed p)
  | KeyD => with_keys (KeyState.mk (KeyState.forward k) (KeyState.backward k)
                         (KeyState.left k) true (KeyState.jump k) (KeyState.sprint k))
                      (currentMoveSpeed p)
  | Space => if playerOnFloor p then set_jump true p else p
  | ShiftLeft => with_keys (KeyState.mk (KeyState.forward k) (KeyState.backward k)
                              (KeyState.left k) (KeyState.right k) (KeyState.jump k) true)
                           (baseMoveSpeed physics * sprintMultiplier physics)
  | KeyOther => p
  end.

Definition handleKeyUp (code : KeyCode) (p : PhysicsManager) : PhysicsManager :=
  let k := keys p in
  let with_keys (k' : KeyState.t) (speed : Q) :=
    {| playerVelocity := playerVelocity p; playerDirection := playerDirection p;
       playerOnFloor := playerOnFloor p; currentMoveSpeed := speed; keys := k' |} in
  match code with
  | KeyW => with_keys (KeyState.mk false (KeyState.backward k) (KeyState.left k)
                         (KeyState.right k) (KeyState.jump k) (KeyState.sprint k))
                      (currentMoveSpeed p)
  | KeyS => with_keys (KeyState.mk (KeyState.forward k) false (KeyState.left k)
                         (KeyState.right k) (KeyState.jump k) (KeyState.sprint k))
                      (currentMoveSpeed p)
  | KeyA => with_keys (KeyState.mk (KeyState.forward k) (KeyState.backward k) false
                         (KeyState.right k) (KeyState.jump k) (KeyState.sprint k))
                      (currentMoveSpeed p)
  | KeyD => with_keys (KeyState.mk (KeyState.forward k) (KeyState.backward k)
                         (KeyState.left k) false (KeyState.jump k) (KeyState.sprint k))
                      (currentMoveSpeed p)
  | Space => set_jump false p
  | ShiftLeft => with_keys (KeyState.mk (KeyState.forward k) (KeyState.backward k)
                              (KeyState.left k) (KeyState.right k) (KeyState.jump k) false)
                           (baseMoveSpeed physics)
  | KeyOther => p
  end.

Definition reset (p : PhysicsManager) : PhysicsManager :=
  {| playerVelocity := Vector3.zero; playerDirection := playerDirection p;
     playerOnFloor := true; currentMoveSpeed := currentMoveSpeed p;
     keys := KeyState.released |}.

Definition isPlayerOnFloor (p : PhysicsManager) : bool := playerOnFloor p.

(** [floorIntersections.length > 0 && floorIntersections[0].distance < limit] *)
Definition nearerThan (limit : Q) (hits : list Intersection) : bool :=
  match hits with
  | h :: _ => Qltb (distance h) limit
  | [] => false
  end.

(** Friction, step 2 of both ticks, in exact arithmetic. *)
Definition applyFriction (delta : Q) (p : PhysicsManager) : PhysicsManager :=
  let v := playerVelocity p in
  set_velocity
    (Vector3.mk (Vector3.x v - Vector3.x v * friction physics * delta)
                (Vector3.y v)
                (Vector3.z v - Vector3.z v * friction physics * delta)) p.

(** One direction of the collision loop (step 5 of both ticks): the ray
    leaves [checkPos], the correction lands on the live position. *)
Definition resolveDirection (cast : Raycast) (checkPos : Vector3.t)
  (acc : Vector3.t * Vector3.t) (dir : Vector3.t) : Vector3.t * Vector3.t :=
  let (pos, vel) := acc in
  let wallIntersections := cast checkPos dir in
  match wallIntersections with
  | h :: _ =>
      if Qltb (distance h) (playerRadius physics) then
        let penetrationDepth := playerRadius physics - distance h in
        (Vector3.mk (Vector3.x pos - Vector3.x dir * (penetrationDepth + (1 # 100)))
                    (Vector3.y pos)
                    (Vector3.z pos - Vector3.z dir * (penetrationDepth + (1 # 100))),
         Vector3.mk (if Qeq_bool (Vector3.x dir) 0 then Vector3.x vel else 0)
                    (Vector3.y vel)
                    (if Qeq_bool (Vector3.z dir) 0 then Vector3.z vel else 0))
      else acc
  | [] => acc
  end.

Definition resolveCollisions (cast : Raycast) (checkPos : Vector3.t)
  (pos vel : Vector3.t) : Vector3.t * Vector3.t :=
  fold_left (resolveDirection cast checkPos) checkDirections (pos, vel).

Section Ticks.
(** [Math.sqrt] *)
Variable sqrt : Q -> Q.

(** [Vector3.normalize]: [divideScalar(length() || 1)] *)
Definition normalize (v : Vector3.t) : Vector3.t :=
  let l := sqrt (Vector3.lengthSq v) in
  let s := if Qeq_bool l 0 then 1 else l in
  Vector3.multiplyScalar v (/ s).

(** Step 1 of the desktop tick and the move along y that follows it. *)
Definition desktopVertical (delta : Q) (cast : Raycast) (d : Desktop) : Desktop :=
  let p := physicsManager d in
  let c := pointerLockControls d in
  let playerPos := position c in
  let floorIntersections := cast playerPos down in
  let localOnFloor := nearerThan (playerHeight physics + (1 # 10)) floorIntersections in
  let v := playerVelocity p in
  let '(p1, posY) :=
    if localOnFloor then
      let vy := Math_max 0 (Vector3.y v) in
      let '(vy, p) :=
        if KeyState.jump (keys p)
        then (jumpVelocity physics, set_jump false p)
        else (vy, p) in
      let floorDist := match floorIntersections with h :: _ => distance h | [] => 0 end in
      let posY :=
        if Qltb floorDist (playerHeight physics)
        then Vector3.y playerPos + (playerHeight physics - floorDist)
        else Vector3.y playerPos in
      (set_velocity (Vector3.setY v vy) p, posY)
    else
      (set_velocity (Vector3.setY v (Vector3.y v + gravity physics * delta)) p,
       Vector3.y playerPos) in
  let posY := posY + Vector3.y (playerVelocity p1) * delta in
  {| physicsManager := p1;
     pointerLockControls := set_pos (Vector3.setY playerPos posY) c |}.

(** Step 3 of the desktop tick. *)
Definition desktopInput (delta : Q) (p : PhysicsManager) : PhysicsManager :=
  let k := keys p in
  let dir0 := playerDirection p in
  let dir := normalize
               (Vector3.mk (Number (KeyState.right k) - Number (KeyState.left k))
                           (Vector3.y dir0)
                           (Number (KeyState.forward k) - Number (KeyState.backward k))) in
  let v := playerVelocity p in
  let vz := if KeyState.forward k || KeyState.backward k
            then Vector3.z v - Vector3.z dir * currentMoveSpeed p * delta
            else Vector3.z v in
  let vx := if KeyState.left k || KeyState.right k
            then Vector3.x v - Vector3.x dir * currentMoveSpeed p * delta
            else Vector3.x v in
  set_velocity (Vector3.mk vx (Vector3.y v) vz) (set_direction dir p).

(** Step 4 of the desktop tick. *)
Definition desktopMove (delta : Q) (d : Desktop) : Desktop :=
  let v := playerVelocity (physicsManager d) in
  {| physicsManager := physicsManager d;
     pointerLockControls :=
       moveForward (- Vector3.z v * delta)
         (moveRight (- Vector3.x v * delta) (pointerLockControls d)) |}.

(** Steps 1 to 4: the state the collision loop starts from. *)
Definition desktopBeforeCollision (delta : Q) (cast : Raycast) (d : Desktop) : Desktop :=
  let d1 := desktopVertical delta cast d in
  desktopMove delta
    {| physicsManager := desktopInput delta (applyFriction delta (physicsManager d1));
       pointerLockControls := pointerLockControls d1 |}.

(** Step 5 of the desktop tick. *)
Definition desktopCollide (cast : Raycast) (d : Desktop) : Desktop :=
  let playerPos := position (pointerLockControls d) in
  let horizontalCheckPos :=
    Vector3.mk (Vector3.x playerPos)
               (Vector3.y playerPos - playerHeight physics / 2)
               (Vector3.z playerPos) in
  let (pos, vel) :=
    resolveCollisions cast horizontalCheckPos playerPos
      (playerVelocity (physicsManager d)) in
  {| physicsManager := set_velocity vel (physicsManager d);
     pointerLockControls := set_pos pos (pointerLockControls d) |}.

(** Step 6 of the desktop tick. *)
Definition desktopGround (cast : Raycast) (d : Desktop) : Desktop :=
  let p := physicsManager d in
  let c := pointerLockControls d in
  let playerPos := position c in
  match cast playerPos down with
  | h :: _ =>
      let floorDist := distance h in
      if Qltb floorDist (playerHeight physics + (1 # 10)) then
        if Qltb floorDist (playerHeight physics) then
          let v := playerVelocity p in
          let v := if Qltb (Vector3.y v) 0 then Vector3.setY v 0 else v in
          {| physicsManager := set_velocity v (set_onFloor true p);
             pointerLockControls :=
               set_pos (Vector3.setY playerPos (Vector3.y (point h) + playerHeight physics)) c |}
        else
          {| physicsManager := set_onFloor true p; pointerLockControls := c |}
      else
        {| physicsManager := set_onFloor false p; pointerLockControls := c |}
  | [] => {| physicsManager := set_onFloor false p; pointerLockControls := c |}
  end.

Definition updatePlayerDesktop (delta : Q) (cast : Raycast) (d : Desktop) : Desktop :=
  if negb (isLocked (pointerLockControls d)) then d
  else desktopGround cast (desktopCollide cast (desktopBeforeCollision delta cast d)).

(** The two gamepads the VR tick reads: the last left-hand and the last
    right-hand controller that has one. *)
Definition pickGamepads (vrControllers : list Controller)
  : option Gamepad * option Gamepad :=
  fold_left
    (fun (acc : option Gamepad * option Gamepad) controller =>
       match gamepad controller with
       | Some g =>
           if String.eqb (hand controller) "left" then (Some g, snd acc)
           else if String.eqb (hand controller) "right" then (fst acc, Some g)
           else acc
       | None => acc
       end)
    vrControllers (None, None).

(** The angle of the [playerRig.rotateY] call of the tick, if any. *)
Definition vrTurn (delta : Q) (turnGamepad : option Gamepad) : option Q :=
  match turnGamepad with
  | Some g =>
      let turnAxis := or_zero (nth_error (axes g) 2) in
      if Qltb (1 # 10) (Qabs turnAxis)
      then Some (- turnAxis * delta * turnSpeed vr)
      else None
  | None => None
  end.

(** [rotateY(angle)] on a rig that only ever turns about the vertical. *)
Definition rotateY (angle : Q) (r : PlayerRig) : PlayerRig :=
  {| rig_position := rig_position r; rig_rotationY := rig_rotationY r + angle |}.

Definition set_rig_position (p : Vector3.t) (r : PlayerRig) : PlayerRig :=
  {| rig_position := p; rig_rotationY := rig_rotationY r |}.

(** Steps 1 to 4 of the VR tick. [worldDirection] and [cameraUp] are
    [camera.getWorldDirection(...)] and [camera.up]. *)
Definition vrBeforeCollision (delta : Q) (worldDirection cameraUp : Vector3.t)
  (cast : Raycast) (vrControllers : list Controller) (s : VR) : VR :=
  let p := vr_physicsManager s in
  let rig := playerRig s in
  let '(moveGamepad, turnGamepad) := pickGamepads vrControllers in
  (* 1. vertical *)
  let playerPos := rig_position rig in
  let rayStart := Vector3.add playerPos (Vector3.mk 0 (1 # 10) 0) in
  let floorIntersections := cast rayStart down in
  let onFloor := nearerThan (15 # 100) floorIntersections in
  let v := playerVelocity p in
  let '(vy, posY) :=
    if onFloor then
      (Math_max 0 (Vector3.y v),
       match floorIntersections with
       | h :: _ => Vector3.y (point h) + (5 # 100)
       | [] => Vector3.y playerPos
       end)
    else (Vector3.y v + gravity physics * delta, Vector3.y playerPos) in
  let p := set_velocity (Vector3.setY v vy) p in
  let rig := set_rig_position (Vector3.setY playerPos posY) rig in
  (* 2. friction *)
  let p := applyFriction delta p in
  (* 3. input and direction *)
  let '(mdx, mdz, speed) :=
    match moveGamepad with
    | Some g =>
        (or_zero (nth_error (axes g) 2), or_zero (nth_error (axes g) 3),
         match nth_error (gp_buttons g) 0 with
         | Some value =>
             if Qltb (sprintThreshold vr) value
             then moveSpeed vr * sprintMultiplier physics
             else moveSpeed vr
         | None => moveSpeed vr
         end)
    | None => (0, 0, moveSpeed vr)
    end in
  let rig := match vrTurn delta turnGamepad with
             | Some angle => rotateY angle rig
             | None => rig
             end in
  let cameraDirection := normalize (Vector3.setY worldDirection 0) in
  let forwardVector := Vector3.multiplyScalar cameraDirection (- mdz * speed * delta) in
  let rightVector :=
    Vector3.multiplyScalar (normalize (Vector3.cross worldDirection cameraUp))
      (mdx * speed * delta) in
  let v := playerVelocity p in
  let v := Vector3.mk (Vector3.x v + (Vector3.x forwardVector + Vector3.x rightVector))
                      (Vector3.y v)
                      (Vector3.z v + (Vector3.z forwardVector + Vector3.z rightVector)) in
  let p := set_velocity v p in
  (* 4. apply position *)
  let pos := rig_position rig in
  let pos := Vector3.mk (Vector3.x pos + Vector3.x v * delta)
                        (Vector3.y pos + Vector3.y v * delta)
                        (Vector3.z pos + Vector3.z v * delta) in
  {| vr_physicsManager := p; playerRig := set_rig_position pos rig |}.

(** Step 5 of the VR tick. *)
Definition vrCollide (cast : Raycast) (s : VR) : VR :=
  let pos0 := rig_position (playerRig s) in
  let horizontalCheckPos := Vector3.add pos0 (Vector3.mk 0 1 0) in
  let (pos, vel) :=
    resolveCollisions cast horizontalCheckPos pos0
      (playerVelocity (vr_physicsManager s)) in
  {| vr_physicsManager := set_velocity vel (vr_physicsManager s);
     playerRig := set_rig_position pos (playerRig s) |}.

(** Step 6 of the VR tick. *)
Definition vrGround (cast : Raycast) (s : VR) : VR :=
  let p := vr_physicsManager s in
  let playerPos := rig_position (playerRig s) in
  let finalRayStart := Vector3.add playerPos (Vector3.mk 0 (1 # 10) 0) in
  match cast finalRayStart down with
  | h :: _ =>
      if Qltb (distance h) (15 # 100) then
        let v := playerVelocity p in
        let v := if Qltb (Vector3.y v) 0 then Vector3.setY v 0 else v in
        {| vr_physicsManager := set_velocity v p;
           playerRig :=
             set_rig_position (Vector3.setY playerPos (Vector3.y (point h) + (5 # 100)))
               (playerRig s) |}
      else s
  | [] => s
  end.

Definition updatePlayerVR (delta : Q) (worldDirection cameraUp : Vector3.t)
  (cast : Raycast) (vrControllers : list Controller) (s : VR) : VR :=
  vrGround cast
    (vrCollide cast (vrBeforeCollision delta worldDirection cameraUp cast vrControllers s)).

(** What reaches the desktop player between two renders: a key event,
    which Application.ts forwards only while the pointer is locked, or
    a frame. *)
Inductive Input :=
| KeyDown (code : KeyCode)
| KeyUp (code : KeyCode)
| Frame (delta : Q) (cast : Raycast).

Definition react (d : Desktop) (i : Input) : Desktop :=
  match i with
  | KeyDown code =>
      if isLocked (pointerLockControls d)
      then {| physicsManager := handleKeyDown code (physicsManager d);
              pointerLockControls := pointerLockControls d |}
      else d
  | KeyUp code =>
      if isLocked (pointerLockControls d)
      then {| physicsManager := handleKeyUp code (physicsManager d);
              pointerLockControls := pointerLockControls d |}
      else d
  | Frame delta cast => updatePlayerDesktop delta cast d
  end.

Definition play (inputs : list Input) (d : Desktop) : Desktop :=
  fold_left react inputs d.

(** [n] frames of the same length against the same colliders. *)
Fixpoint frames (n : nat) (delta : Q) (cast : Raycast) (d : Desktop) : Desktop :=
  match n with
  | O => d
  | S k => updatePlayerDesktop delta cast (frames k delta cast d)
  end.
End Ticks.
End Physics.

(** ** Definitions the statements below use *)

(** A stand-in for [Math.sqrt] where a closed example needs one: the
    square root cut after 32 binary digits. *)
Definition sqrt_floor (q : Q) : Q :=
  Z.sqrt (Qnum q * Z.pos (Qden q) * 2 ^ 64) # (Qden q * 2 ^ 32).

(** Unbounded double-sided planes as collider meshes, and the raycaster's
    answer for them. The rays of the ticks have unit length, so the ray
    parameter is the distance. *)
Module PlaneWorld.
Local Open Scope Q_scope.

(** the points [p] with [normal . p = offset] *)
Record Plane := { normal : Vector3.t; offset : Q }.

Definition hit (origin dir : Vector3.t) (pl : Plane) : option Intersection :=
  let nd := Vector3.dot (normal pl) dir in
  if Qeq_bool nd 0 then None
  else
    let t := (offset pl - Vector3.dot (normal pl) origin) / nd in
    if Qltb t 0 then None
    else Some {| distance := t; point := Vector3.addScaledVector origin dir t |}.

Fixpoint insert (h : Intersection) (l : list Intersection) : list Intersection :=
  match l with
  | [] => [h]
  | h' :: rest => if Qle_bool (distance h) (distance h') then h :: l else h' :: insert h rest
  end.

Definition cast (planes : list Plane) : Raycast :=
  fun origin dir =>
    fold_right
      (fun pl acc => match hit origin dir pl with Some h => insert h acc | None => acc end)
      [] planes.

(** The square of the horizontal distance from [p] to a vertical plane. *)
Definition horizontalDistSq (p : Vector3.t) (pl : Plane) : Q :=
  let n := normal pl in
  (Vector3.dot n p - offset pl) * (Vector3.dot n p - offset pl)
  / (Vector3.x n * Vector3.x n + Vector3.z n * Vector3.z n).
End PlaneWorld.

(** The square of the horizontal speed. *)
Definition horizontalSpeedSq (v : Vector3.t) : Q :=
  (Vector3.x v * Vector3.x v + Vector3.z v * Vector3.z v)%Q.

(** The displacement the collision loop applies against one direction:
    penetration depth plus 0.01 when the nearest hit is closer than the
    player radius, nothing otherwise. *)
Definition pushBack (cast : Raycast) (checkPos dir : Vector3.t) : Q :=
  match cast checkPos dir with
  | h :: _ =>
      if Qltb (distance h) (playerRadius APP_CONFIG.physics)
      then (playerRadius APP_CONFIG.physics - distance h + (1 # 100))%Q
      else 0%Q
  | [] => 0%Q
  end.

(** The URLs of the models a loader holds. *)
Definition assets (ml : ModelLoader) : list string :=
  map (fun m => asset (scene m)) (loadedModels ml).

(** The URLs the configuration declares for a step. *)
Definition declaredAssets (k : Z) : list string :=
  match APP_CONFIG.scenes k with
  | Some config => map APP_CONFIG.modelUrl (models config)
  | None => []
  end.

(** The number of variants a step offers: its camera positions if it has
    any, else its toggle buttons. *)
Definition variantCount (k : Z) : Z :=
  match APP_CONFIG.scenes k with
  | Some config =>
      match cameraPositions config with
      | Some cps => Z.of_nat (List.length cps)
      | None =>
          match buttons config with
          | Some bs => Z.of_nat (List.length bs)
          | None => 0
          end
      end
  | None => 0
  end.

(** The expected state of the info buttons once a step has settled. *)
Definition infoButtonsShown (vr : bool) (before : list Display) : list Display :=
  let shown := map (fun _ => display_block) before in
  if vr then match shown with _ :: rest => display_none :: rest | [] => [] end
  else shown.

(** Calls on the audio manager. *)
Inductive AudioCall :=
| CallPlay (index : nat) (loop : bool) (volume : Q)
| CallStopAll.

Definition audioCall (a : AudioManager) (c : AudioCall) : AudioManager :=
  match c with
  | CallPlay index loop volume => AudioM.playAudio index loop volume a
  | CallStopAll => AudioM.stopAll a
  end.

(** The sounds of the heap that are playing. *)
Definition playing (a : AudioManager) : list Audio := filter isPlaying (sounds a).

(** An action leaves the observation [f] of the state as it was. *)
Definition keeps {X A : Type} (f : SequenceManager -> X) (m : Action A) : Prop :=
  forall s, f (snd (m s)) = f s.

(** The state [runNextScene] reaches before its [try] block. *)
Definition prelude (s : SequenceManager) : SequenceManager :=
  with_audio AudioM.stopAll
    (with_ui UI.hideDescription
       (with_ui (UI.updateHtmlPanels None None)
          (with_ui (UI.showInfoButtons false)
             (with_ui UI.showBackgroundImage
                (with_ui UI.showSceneLoading (incrementScene s)))))).

(** The effect of the [finally] block of [runNextScene]. *)
Definition cleanup (s : SequenceManager) : SequenceManager :=
  let s1 := with_ui (UI.showInfoButtons true)
              (with_ui UI.hideBackgroundImage (with_ui UI.hideSceneLoading s)) in
  if isVR s1 then with_ui UI.hideFullscreenButton s1 else s1.

(** The requests the load routine of a step hands to the loader, in the
    order of the calls. *)
Definition stepRequests (k : Z) : list Request :=
  match k with
  | 0 => map (fun i => ReqModel (APP_CONFIG.modelUrl i) (modelCfg None true))
             (models APP_CONFIG.scene0)
  | 2 => [ ReqModel (APP_CONFIG.modelUrl 0) (modelCfg (Some "m1") false);
           ReqModel (APP_CONFIG.modelUrl 3) (modelCfg (Some "m4") false);
           ReqModel (APP_CONFIG.modelUrl 2) (modelCfg (Some "m3") false);
           ReqModel (APP_CONFIG.modelUrl 4) (modelCfg (Some "m5") false) ]
  | 3 => map (fun i => ReqModel (APP_CONFIG.modelUrl i) (modelCfg None true))
             (models APP_CONFIG.scene3)
  | 4 => [ ReqModel (APP_CONFIG.modelUrl 6) (modelCfg None true) ]
  | 5 => [ ReqModel (APP_CONFIG.modelUrl 6) (modelCfg None true);
           ReqCollider (APP_CONFIG.modelUrl 7) ]
  | _ => []
  end.

(** A network on which every load succeeds, a page whose every content
    template exists, and the state three clicks on the start button lead
    to on them: step 2 with its four models loaded and option 1 shown. *)
Definition network_ok : string -> Fetch :=
  fun _ => Loaded {| animations := 0; meshes := 1 |}.

Definition page_ok : string -> option string := fun id => Some id.

Definition atStep2 : SequenceManager :=
  snd (advance network_ok (fun rs => rs) 3 (start false APP_CONFIG.assets_sounds page_ok)).

(** The [id] and the visibility of the loaded models. *)
Definition visibilities (s : SequenceManager) : list (option string * bool) :=
  map (fun m => (userData_id (scene m), visible (scene m))) (loadedModels (modelLoader s)).

(** What [handleVariantClick] does to the loader in step 2 for an index
    other than 0. *)
Definition showSecondView (ml : ModelLoader) : ModelLoader :=
  Loader.setModelVisibility "m5" true
    (Loader.setModelVisibility "m3" true
       (Loader.setModelVisibility "m4" false
          (Loader.setModelVisibility "m1" false ml))).

(** [sound.stop()] on a heap cell *)
Definition stopped (s : Audio) : Audio :=
  {| buffer := buffer s; loop := loop s; volume := volume s; isPlaying := false |}.

(** The shape the audio manager keeps: nothing active and nothing
    playing, or the youngest sound of the heap active and no older sound
    playing. *)
Definition tidy (a : AudioManager) : Prop :=
  (activeSounds a = [] /\ playing a = []) \/
  (exists heap snd,
      sounds a = heap ++ [snd] /\
      activeSounds a = [List.length heap] /\
      filter isPlaying heap = []).

(** A toggle button as [updateToggleButtons] leaves one it has a
    descriptor for, and one it has none for. *)
Definition buttonFor (config : ButtonConfig) (first : bool) : ToggleButton :=
  {| textContent := btn_name config; dataset_id := Some (btn_id config);
     btn_display := display_block; selected := first |}.

Definition buttonHidden (btn : ToggleButton) : ToggleButton :=
  {| textContent := textContent btn; dataset_id := dataset_id btn;
     btn_display := display_none; selected := selected btn |}.

(** A toggle button with its [selected] class set or cleared. *)
Definition buttonMarked (btn : ToggleButton) (mark : bool) : ToggleButton :=
  {| textContent := textContent btn; dataset_id := dataset_id btn;
     btn_display := btn_display btn; selected := mark |}.

(** The visibility of the model [setModelVisibility id] would write to. *)
Definition visibleOf (id : string) (ml : ModelLoader) : option bool :=
  option_map (fun m => visible (scene m)) (find (Loader.has_id id) (loadedModels ml)).

(** The camera configuration [handleVariantClick] builds in step 4. *)
Definition tourConfig (camPos : CameraPosition) : CameraConfig :=
  {| cc_type := static_orbit;
     cc_cameraType := Some perspective;
     cc_pos := Some (cam_pos camPos);
     cc_lookAt := Some (cam_lookAt camPos);
     cc_fov := Some (cam_fov camPos);
     cc_autoRotate := Some false;
     cc_autoRotateSpeed := None;
     cc_enablePan := Some false;
     cc_enableZoom := Some true;
     cc_enableRotate := Some true |}.

(** The state but for the log of camera setups. *)
Definition besidesCameraLog (s : SequenceManager)
  : Z * ModelLoader * AudioManager * UIManager * bool * nat :=
  (currentScene s, modelLoader s, audioManager s, uiManager s, isVR s, reloads s).

(** What [handleVariantClick] does to the loader in step 2. *)
Definition showView (first : bool) (ml : ModelLoader) : ModelLoader :=
  Loader.setModelVisibility "m5" (negb first)
    (Loader.setModelVisibility "m3" (negb first)
       (Loader.setModelVisibility "m4" first
          (Loader.setModelVisibility "m1" first ml))).

(** The network answers the request with a model. *)
Definition loads (network : string -> Fetch) (r : Request) : bool :=
  match network (req_url r) with
  | Loaded _ => true
  | Rejected _ => false
  end.

(** The requests of a batch that settle before its first rejection, in
    the order of their arrival. *)
Fixpoint arrived (network : string -> Fetch) (rs : list Request) : list Request :=
  match rs with
  | [] => []
  | r :: rest => if loads network r then r :: arrived network rest else []
  end.

(** The collider meshes a settled request adds. *)
Definition collidersOf (network : string -> Fetch) (r : Request) : list Mesh :=
  match r with
  | ReqCollider url =>
      match network url with
      | Loaded gltf => map (fun k => (url, k)) (seq 0 (meshes gltf))
      | Rejected _ => []
      end
  | ReqModel _ _ => []
  end.

(** [arr[index] = v] on a JS array: a write past the end extends the
    array, the holes reading as [undefined]; [None] stands for [null],
    [undefined] and a hole alike, all of which [!buffer] takes for a
    missing buffer. *)
Definition setIndex {B : Type} (index : nat) (v : option B) (arr : list (option B))
  : list (option B) :=
  if (index <? List.length arr)%nat
  then firstn index arr ++ v :: skipn (S index) arr
  else arr ++ repeat None (index - List.length arr) ++ [v].

Definition set_soundBuffers (b : list (option AudioBuffer)) (a : AudioManager) : AudioManager :=
  {| soundBuffers := b; sounds := sounds a; activeSounds := activeSounds a |}.

(** [AudioManager.loadAllSounds]: the [map] over the URLs writes [null]
    at once for an empty URL and starts a load for every other; each load
    ends in one of its two callbacks, which writes the buffer or [null] at
    the index of its URL and resolves. [audioNetwork] is the answer of the
    audio loader, [None] for an error; [arrival] is the order in which the
    loads started end. *)
Definition loadAllSounds (audioNetwork : string -> option AudioBuffer)
  (arrival : list nat -> list nat) (soundUrls : list string) (a : AudioManager)
  : AudioManager :=
  let url (index : nat) := nth index soundUrls "" in
  let indices := seq 0 (List.length soundUrls) in
  let started := filter (fun index => negb (String.eqb (url index) "")) indices in
  let a1 :=
    fold_left
      (fun a index =>
         if String.eqb (url index) "" then set_soundBuffers (setIndex index None (soundBuffers a)) a
         else a)
      indices a in
  fold_left
    (fun a index =>
       set_soundBuffers (setIndex index (audioNetwork (url index)) (soundBuffers a)) a)
    (arrival started) a1.

(** The buffer a URL ends with. *)
Definition bufferOf (audioNetwork : string -> option AudioBuffer) (url : string)
  : option AudioBuffer :=
  if String.eqb url "" then None else audioNetwork url.

(** The batch of loads of step [k] after [runNextScene] has emptied the
    loader. *)
Definition stepBatch (network : string -> Fetch) (arrival : list Request -> list Request)
  (k : Z) (ml : ModelLoader) : ModelLoader * option Error :=
  settle network (arrival (stepRequests k)) (issue (stepRequests k) (Loader.unloadAll ml)).

(** The camera configuration [loadScene5] builds. *)
Definition walkConfig (config : SceneConfig) : CameraConfig :=
  {| cc_type := pointerlock; cc_cameraType := None;
     cc_pos := cameraPosition config; cc_lookAt := None; cc_fov := None;
     cc_autoRotate := None; cc_autoRotateSpeed := None;
     cc_enablePan := None; cc_enableZoom := None; cc_enableRotate := None |}.

(** The camera configuration a step ends with: the tour starts at its
    first camera position, the walk uses the pointer lock, every other
    step orbits as its configuration says. *)
Definition sceneCamera (k : Z) (config : SceneConfig) : option CameraConfig :=
  if k =? 5 then Some (walkConfig config)
  else if k =? 4 then
    match cameraPositions config with
    | Some (camPos :: _) => Some (tourConfig camPos)
    | _ => None
    end
  else Some (orbitConfig config).

Local Open Scope Q_scope.
Import APP_CONFIG.

(** The nearest hit of a ray of the collision loop is closer than the
    player radius. *)
Definition hitsNear (cast : Raycast) (checkPos dir : Vector3.t) : bool :=
  Physics.nearerThan (playerRadius physics) (cast checkPos dir).

(** The four directions of the collision loop. *)
Definition dirX : Vector3.t := Vector3.mk 1 0 0.
Definition dirXneg : Vector3.t := Vector3.mk (-1) 0 0.
Definition dirZ : Vector3.t := Vector3.mk 0 0 1.
Definition dirZneg : Vector3.t := Vector3.mk 0 0 (-1).

(** The grounding probe at the start of the desktop tick. *)
Definition groundedAtStart (cast : Raycast) (d : Desktop) : bool :=
  Physics.nearerThan (playerHeight physics + (1 # 10))
    (cast (position (pointerLockControls d)) down).

(** The vertical velocity step 1 of the desktop tick leaves. *)
Definition verticalVelocity (delta : Q) (cast : Raycast) (d : Desktop) : Q :=
  let p := physicsManager d in
  if groundedAtStart cast d then
    if KeyState.jump (keys p) then jumpVelocity physics
    else Math_max 0 (Vector3.y (playerVelocity p))
  else Vector3.y (playerVelocity p) + gravity physics * delta.


(** The check point of the desktop collision loop. *)
Definition desktopCheckPos (d : Desktop) : Vector3.t :=
  let playerPos := position (pointerLockControls d) in
  Vector3.mk (Vector3.x playerPos)
             (Vector3.y playerPos - playerHeight physics / 2)
             (Vector3.z playerPos).

(** The check point of the VR collision loop. *)
Definition vrCheckPos (s : VR) : Vector3.t :=
  Vector3.add (rig_position (playerRig s)) (Vector3.mk 0 1 0).

(** The direction step 3 of the desktop tick computes from the keys. *)
Definition inputDirection (sqrt : Q -> Q) (k : KeyState.t) (y0 : Q) : Vector3.t :=
  Physics.normalize sqrt
    (Vector3.mk (Number (KeyState.right k) - Number (KeyState.left k)) y0
                (Number (KeyState.forward k) - Number (KeyState.backward k))).

(** A velocity component after friction. *)
Definition damped (v delta : Q) : Q := v - v * friction physics * delta.

(** The invariant that ties the speed setting to the sprint key. *)
Definition speedFollowsSprint (p : PhysicsManager) : Prop :=
  currentMoveSpeed p
  = if KeyState.sprint (keys p)
    then baseMoveSpeed physics * sprintMultiplier physics
    else baseMoveSpeed physics.

(** A desktop player in the state the constructor leaves, pointer locked,
    camera looking down the negative z axis. *)
Definition lockedAt (pos vel : Vector3.t) (p : PhysicsManager) : Desktop :=
  {| physicsManager := set_velocity vel p;
     pointerLockControls :=
       {| isLocked := true; position := pos;
          matrixColumn0 := Vector3.mk 1 0 0; up := Vector3.mk 0 1 0 |} |}.

(** No collider in reach of any ray. *)
Definition emptyWorld : Raycast := fun _ _ => [].




(** What the collision loop guarantees, read from the position [pos] it
    starts at, the position [pos'] and velocity [vel'] the tick ends with,
    and the four rays cast from [cp]. *)
Definition pushedBack (cast : Raycast) (cp pos pos' vel' : Vector3.t) : Prop :=
  Vector3.x pos' == Vector3.x pos - pushBack cast cp dirX + pushBack cast cp dirXneg /\
  Vector3.z pos' == Vector3.z pos - pushBack cast cp dirZ + pushBack cast cp dirZneg /\
  (hitsNear cast cp dirX || hitsNear cast cp dirXneg = true -> Vector3.x vel' = 0) /\
  (hitsNear cast cp dirZ || hitsNear cast cp dirZneg = true -> Vector3.z vel' = 0) /\
  (forall h rest,
      cast cp dirX = h :: rest -> distance h < playerRadius physics ->
      hitsNear cast cp dirXneg = false ->
      (Vector3.x pos + distance h) - Vector3.x pos' == playerRadius physics + (1 # 100)) /\
  (forall h rest,
      cast cp dirXneg = h :: rest -> distance h < playerRadius physics ->
      hitsNear cast cp dirX = false ->
      Vector3.x pos' - (Vector3.x pos - distance h) == playerRadius physics + (1 # 100)) /\
  (forall h rest,
      cast cp dirZ = h :: rest -> distance h < playerRadius physics ->
      hitsNear cast cp dirZneg = false ->
      (Vector3.z pos + distance h) - Vector3.z pos' == playerRadius physics + (1 # 100)) /\
  (forall h rest,
      cast cp dirZneg = h :: rest -> distance h < playerRadius physics ->
      hitsNear cast cp dirZ = false ->
      Vector3.z pos' - (Vector3.z pos - distance h) == playerRadius physics + (1 # 100)).

(** A floor at height 0 and a wall standing on the line x + z = 0.41. *)
Definition floorPlane : PlaneWorld.Plane :=
  {| PlaneWorld.normal := Vector3.mk 0 1 0; PlaneWorld.offset := 0 |}.

Definition obliqueWall : PlaneWorld.Plane :=
  {| PlaneWorld.normal := Vector3.mk 1 0 1; PlaneWorld.offset := 41 # 100 |}.

(** A player walking towards the wall at 45 degrees. *)
Definition walker : Desktop :=
  lockedAt (Vector3.mk (- (3 # 16)) (16 # 10) (- (3 # 16))) (Vector3.mk (- (8)) 0 8)
    Physics.create.

(** The reading of the turn stick: [turnGamepad.axes[2] || 0], and 0 when
    no right-hand controller has a gamepad. *)
Definition turnAxis (vrControllers : list Controller) : Q :=
  match snd (Physics.pickGamepads vrControllers) with
  | Some g => or_zero (nth_error (axes g) 2)
  | None => 0
  end.

(** A network that serves every model but the fifth of the table. *)
Definition network_without_kopuk : string -> Fetch :=
  fun u => if String.eqb u (APP_CONFIG.modelUrl 4)
           then Rejected "404 Not Found"
           else Loaded {| animations := 0; meshes := 1 |}.

(** A player standing on the floor at the origin. *)
Definition standing (p : PhysicsManager) : Desktop :=
  lockedAt (Vector3.mk 0 (16 # 10) 0) Vector3.zero p.

(** A wall across the x axis, 0.3 ahead of the origin. *)
Definition wallAhead : PlaneWorld.Plane :=
  {| PlaneWorld.normal := Vector3.mk 1 0 0; PlaneWorld.offset := 3 # 10 |}.

(** A right-hand controller with its stick pushed half way to the right. *)
Definition turningRight : list Controller :=
  [ {| gamepad := Some {| axes := [0; 0; 1 # 2; 0]%Q; gp_buttons := [0%Q] |};
       hand := "right" |} ].

Definition rigAtOrigin : VR :=
  {| vr_physicsManager := Physics.create;
     playerRig := {| rig_position := Vector3.zero; rig_rotationY := 0 |} |}.

(** The gamepad of the last controller of the list that has one and is
    held in the hand [h]. *)
Definition lastGamepad (h : string) (vrControllers : list Controller) : option Gamepad :=
  match find (fun c => match gamepad c with Some _ => String.eqb (hand c) h | None => false end)
             (rev vrControllers) with
  | Some c => gamepad c
  | None => None
  end.

(** The velocity along z at which friction and a held key balance. *)
Definition terminalZ (sqrt : Q -> Q) (p : PhysicsManager) : Q :=
  - (Vector3.z (inputDirection sqrt (keys p) (Vector3.y (playerDirection p)))
     * currentMoveSpeed p) / friction physics.

Definition terminalX (sqrt : Q -> Q) (p : PhysicsManager) : Q :=
  - (Vector3.x (inputDirection sqrt (keys p) (Vector3.y (playerDirection p)))
     * currentMoveSpeed p) / friction physics.

(** The camera is level: its right vector lies in the ground plane and
    its up vector is vertical. *)
Definition level (c : PointerLockControls) : Prop :=
  Vector3.y (matrixColumn0 c) == 0 /\ Vector3.x (up c) == 0 /\ Vector3.z (up c) == 0.

(** The number of frames as a JS number. *)
Definition count (n : nat) : Q := inject_Z (Z.of_nat n).

(** The state the last stage of the desktop tick starts from. *)
Definition afterCollision (sqrt : Q -> Q) (delta : Q) (cast : Raycast) (d : Desktop) : Desktop :=
  Physics.desktopCollide cast (Physics.desktopBeforeCollision sqrt delta cast d).

(** ** CameraManager.setupCamera (CameraManager.ts)

    The two cameras, the rig and the orbit controller as far as
    [setupCamera] writes them. A position is the one last given to
    [position.set], and the target the one last given to [target.set]:
    [orbitControls.update()], with which a setup in an orbit mode ends,
    then moves the active camera about the target (it clamps the polar
    angle and applies damping and auto-rotation), so after such a setup
    these fields say what was written, not where the camera is;
    [updateCalls] counts those calls. Orientation ([lookAt]), the
    projection matrices and the state of the browser's pointer lock are
    left out; [lockCalls] counts the calls of
    [pointerLockControls.lock()]. The pointer-lock controls steer the
    perspective camera. *)
Record OrbitControls := {
  oc_object : CameraType;
  oc_enabled : bool;
  oc_autoRotate : bool;
  oc_autoRotateSpeed : Q;
  oc_target : Vector3.t;
  oc_enablePan : bool;
  oc_enableZoom : bool;
  oc_enableRotate : bool
}.

Record Cameras := {
  activeCamera : CameraType;
  perspectivePosition : Vector3.t;
  orthographicPosition : Vector3.t;
  perspectiveFov : Q;
  rigPosition : Vector3.t;
  listenerParent : CameraType;
  orbitControls : OrbitControls;
  lockCalls : nat;
  updateCalls : nat
}.

(** [value || fallback] for a number that may be missing: 0 is falsy. *)
Definition or_number (o : option Q) (fallback : Q) : Q :=
  match o with
  | Some v => if Qeq_bool v 0 then fallback else v
  | None => fallback
  end.

Definition CameraType_eqb (a b : CameraType) : bool :=
  match a, b with
  | perspective, perspective => true
  | orthographic, orthographic => true
  | _, _ => false
  end.

Module Camera.
Definition create : Cameras :=
  {| activeCamera := perspective;
     perspectivePosition := Vector3.zero;
     orthographicPosition := Vector3.zero;
     perspectiveFov := 75;
     rigPosition := Vector3.zero;
     listenerParent := perspective;
     orbitControls :=
       {| oc_object := perspective; oc_enabled := false; oc_autoRotate := false;
          oc_autoRotateSpeed := 2; oc_target := Vector3.mk 0 1 0;
          oc_enablePan := true; oc_enableZoom := true; oc_enableRotate := true |};
     lockCalls := 0;
     updateCalls := 0 |}.

Definition set_orbit (o : OrbitControls) (v : Cameras) : Cameras :=
  {| activeCamera := activeCamera v;
     perspectivePosition := perspectivePosition v;
     orthographicPosition := orthographicPosition v;
     perspectiveFov := perspectiveFov v;
     rigPosition := rigPosition v;
     listenerParent := listenerParent v;
     orbitControls := o;
     lockCalls := lockCalls v;
     updateCalls := updateCalls v |}.

Definition set_rigPosition (p : Vector3.t) (v : Cameras) : Cameras :=
  {| activeCamera := activeCamera v;
     perspectivePosition := perspectivePosition v;
     orthographicPosition := orthographicPosition v;
     perspectiveFov := perspectiveFov v;
     rigPosition := p;
     listenerParent := listenerParent v;
     orbitControls := orbitControls v;
     lockCalls := lockCalls v;
     updateCalls := updateCalls v |}.

(** [camera.position.set(...)] on one of the two cameras *)
Definition set_position (camera : CameraType) (p : Vector3.t) (v : Cameras) : Cameras :=
  {| activeCamera := activeCamera v;
     perspectivePosition :=
       match camera with perspective => p | orthographic => perspectivePosition v end;
     orthographicPosition :=
       match camera with orthographic => p | perspective => orthographicPosition v end;
     perspectiveFov := perspectiveFov v;
     rigPosition := rigPosition v;
     listenerParent := listenerParent v;
     orbitControls := orbitControls v;
     lockCalls := lockCalls v;
     updateCalls := updateCalls v |}.

Definition set_fov (fov : Q) (v : Cameras) : Cameras :=
  {| activeCamera := activeCamera v;
     perspectivePosition := perspectivePosition v;
     orthographicPosition := orthographicPosition v;
     perspectiveFov := fov;
     rigPosition := rigPosition v;
     listenerParent := listenerParent v;
     orbitControls := orbitControls v;
     lockCalls := lockCalls v;
     updateCalls := updateCalls v |}.

Definition lock (v : Cameras) : Cameras :=
  {| activeCamera := activeCamera v;
     perspectivePosition := perspectivePosition v;
     orthographicPosition := orthographicPosition v;
     perspectiveFov := perspectiveFov v;
     rigPosition := rigPosition v;
     listenerParent := listenerParent v;
     orbitControls := orbitControls v;
     lockCalls := S (lockCalls v);
     updateCalls := updateCalls v |}.

(** [orbitControls.update()]: the call is counted; where it leaves the
    active camera is not modelled. *)
Definition update (v : Cameras) : Cameras :=
  {| activeCamera := activeCamera v;
     perspectivePosition := perspectivePosition v;
     orthographicPosition := orthographicPosition v;
     perspectiveFov := perspectiveFov v;
     rigPosition := rigPosition v;
     listenerParent := listenerParent v;
     orbitControls := orbitControls v;
     lockCalls := lockCalls v;
     updateCalls := S (updateCalls v) |}.

Definition switchCamera (newCamera : CameraType) (v : Cameras) : Cameras :=
  let o := orbitControls v in
  {| activeCamera := newCamera;
     perspectivePosition := perspectivePosition v;
     orthographicPosition := orthographicPosition v;
     perspectiveFov := perspectiveFov v;
     rigPosition := rigPosition v;
     listenerParent := newCamera;
     orbitControls :=
       {| oc_object := newCamera; oc_enabled := oc_enabled o;
          oc_autoRotate := oc_autoRotate o; oc_autoRotateSpeed := oc_autoRotateSpeed o;
          oc_target := oc_target o; oc_enablePan := oc_enablePan o;
          oc_enableZoom := oc_enableZoom o; oc_enableRotate := oc_enableRotate o |};
     lockCalls := lockCalls v;
     updateCalls := updateCalls v |}.

Definition setupOrbitMode (config : CameraConfig) (pos lookAt : Vector3.t) (isVR : bool)
  (v : Cameras) : Cameras :=
  let v := if isVR then set_rigPosition pos v else set_position (activeCamera v) pos v in
  let v := match cc_cameraType config with
           | Some orthographic => v
           | _ => set_fov (or_number (cc_fov config) 75) v
           end in
  update (set_orbit
    {| oc_object := oc_object (orbitControls v);
       oc_enabled := true;
       oc_autoRotate := match cc_autoRotate config with Some b => b | None => false end;
       oc_autoRotateSpeed := or_number (cc_autoRotateSpeed config) 1;
       oc_target := lookAt;
       oc_enablePan := match cc_enablePan config with Some b => b | None => true end;
       oc_enableZoom := match cc_enableZoom config with Some b => b | None => true end;
       oc_enableRotate := match cc_enableRotate config with Some b => b | None => true end |}
    v).

Definition setupPointerLockMode (pos : Vector3.t) (fov : option Q) (isVR : bool)
  (v : Cameras) : Cameras :=
  if isVR then set_rigPosition pos v
  else lock (set_position perspective pos (set_fov (or_number fov 75) v)).

Definition setupCamera (config : CameraConfig) (isVR : bool) (v : Cameras) : Cameras :=
  let o := orbitControls v in
  let v := set_orbit
             {| oc_object := oc_object o; oc_enabled := false; oc_autoRotate := false;
                oc_autoRotateSpeed := oc_autoRotateSpeed o; oc_target := oc_target o;
                oc_enablePan := oc_enablePan o; oc_enableZoom := oc_enableZoom o;
                oc_enableRotate := oc_enableRotate o |} v in
  let newCamera :=
    match cc_type config with
    | pointerlock => perspective
    | _ => match cc_cameraType config with
           | Some orthographic => orthographic
           | _ => perspective
           end
    end in
  let v := if CameraType_eqb (activeCamera v) newCamera then v else switchCamera newCamera v in
  let pos := match cc_pos config with Some p => p | None => Vector3.mk 0 5 10 end in
  let lookAt := match cc_lookAt config with Some p => p | None => Vector3.mk 0 1 0 end in
  match cc_type config with
  | pointerlock => setupPointerLockMode pos (cc_fov config) isVR v
  | _ => setupOrbitMode config pos lookAt isVR v
  end.
End Camera.

(** The cameras after the setups a camera manager has gone through. *)
Definition view (c : CameraManager) : Cameras :=
  fold_left (fun v su => Camera.setupCamera (fst su) (snd su) v) (setups c) Camera.create.

(** What holds of the cameras whatever they are asked to do. *)
Definition coherent (v : Cameras) : Prop :=
  listenerParent v = activeCamera v /\
  oc_object (orbitControls v) = activeCamera v /\
  (oc_autoRotate (orbitControls v) = true -> oc_enabled (orbitControls v) = true) /\
  (activeCamera v = orthographic -> oc_enabled (orbitControls v) = true).

Local Close Scope Q_scope.

(** * Properties of the sequence *)

(** *** Frame rules of the action combinators *)

Section Frame.
Context {X : Type} (f : SequenceManager -> X).

Lemma keeps_ret {A} (a : A) : keeps f (Act.ret a).
Proof. intro s; reflexivity. Qed.

Lemma keeps_throw {A} (e : Error) : keeps f (@Act.throw A e).
Proof. intro s; reflexivity. Qed.

Lemma keeps_get : keeps f Act.get.
Proof. intro s; reflexivity. Qed.

Lemma keeps_update (g : SequenceManager -> SequenceManager) :
  (forall s, f (g s) = f s) -> keeps f (Act.update g).
Proof. intros H s; apply H. Qed.

Lemma keeps_bind {A B} (m : Action A) (k : A -> Action B) :
  keeps f m -> (forall a, keeps f (k a)) -> keeps f (Act.bind m k).
Proof.
  intros Hm Hk s. unfold Act.bind.
  specialize (Hm s). destruct (m s) as [[a | e] s1]; simpl in *.
  - rewrite Hk. exact Hm.
  - exact Hm.
Qed.

Lemma keeps_tryCatch {A} (body : Action A) (handler : Error -> Action A) :
  keeps f body -> (forall e, keeps f (handler e)) -> keeps f (Act.tryCatch body handler).
Proof.
  intros Hb Hh s. unfold Act.tryCatch.
  specialize (Hb s). destruct (body s) as [[a | e] s1]; simpl in *.
  - exact Hb.
  - rewrite Hh. exact Hb.
Qed.

Lemma keeps_tryFinally {A} (body : Action A) (fin : Action unit) :
  keeps f body -> keeps f fin -> keeps f (Act.tryFinally body fin).
Proof.
  intros Hb Hf s. unfold Act.tryFinally.
  specialize (Hb s). destruct (body s) as [r s1]; simpl in *.
  specialize (Hf s1). destruct (fin s1) as [[u | e] s2]; simpl in *; congruence.
Qed.
End Frame.

Ltac keeps_step :=
  first
    [ apply keeps_ret | apply keeps_throw | apply keeps_get
    | apply keeps_update; intros; reflexivity
    | apply keeps_bind; [ | intros ]
    | apply keeps_tryCatch; [ | intros ]
    | apply keeps_tryFinally
    | match goal with
      | |- keeps _ (match ?x with _ => _ end) => destruct x
      | |- keeps _ (if ?b then _ else _) => destruct b
      end ].

Ltac keeps_tac := repeat keeps_step.

Lemma awaitAll_keeps {X} (f : SequenceManager -> X) network arrival rs :
  (forall g s, f (with_loader g s) = f s) ->
  keeps f (awaitAll network arrival rs).
Proof.
  intros H s. unfold awaitAll.
  destruct (settle network _ _) as [ml err]; simpl. apply H.
Qed.

Lemma handleVariantClick_keeps {X} (f : SequenceManager -> X) index :
  (forall g s, f (with_ui g s) = f s) ->
  (forall g s, f (with_loader g s) = f s) ->
  (forall c s, f (with_camera c s) = f s) ->
  keeps f (handleVariantClick index).
Proof.
  intros Hu Hl Hc. unfold handleVariantClick, ui, loader, camera.
  apply keeps_bind; [ apply keeps_update; intros; apply Hu | intros _ ].
  apply keeps_bind; [ apply keeps_get | intros s ].
  repeat first
    [ apply keeps_ret | apply keeps_throw
    | apply keeps_update; intros; first [ apply Hu | apply Hl | apply Hc ]
    | apply keeps_bind; [ | intros ]
    | match goal with
      | |- keeps _ (match ?x with _ => _ end) => destruct x
      | |- keeps _ (if ?b then _ else _) => destruct b
      end ].
Qed.

Lemma loadScene_keeps {X} (f : SequenceManager -> X) network arrival config :
  (forall g s, f (with_ui g s) = f s) ->
  (forall g s, f (with_loader g s) = f s) ->
  (forall c s, f (with_camera c s) = f s) ->
  (forall g s, f (with_audio g s) = f s) ->
  keeps f (loadScene network arrival config).
Proof.
  intros Hu Hl Hc Ha.
  unfold loadScene, loadScene0, loadScene1, loadScene2, loadScene3, loadScene4,
    loadScene5, toggleButtonsIfAny, ui, loader, camera, audio.
  apply keeps_bind; [ apply keeps_get | intros s ].
  repeat first
    [ apply keeps_ret | apply keeps_throw
    | apply keeps_update; intros; first [ apply Hu | apply Hl | apply Hc | apply Ha ]
    | apply awaitAll_keeps; assumption
    | apply handleVariantClick_keeps; assumption
    | apply keeps_bind; [ | intros ]
    | match goal with
      | |- keeps _ (match ?x with _ => _ end) => destruct x
      | |- keeps _ (if ?b then _ else _) => destruct b
      end ].
Qed.

Lemma runNextScene_currentScene network arrival s :
  currentScene (snd (runNextScene network arrival s)) = currentScene s + 1.
Proof.
  unfold runNextScene.
  set (rest := Act.bind (ui UI.showSceneLoading) _).
  assert (Hrest : keeps currentScene rest).
  { subst rest. unfold ui, audio.
    repeat first
      [ apply keeps_ret | apply keeps_throw | apply keeps_get
      | apply keeps_update; intros; reflexivity
      | apply loadScene_keeps; intros; reflexivity
      | apply keeps_bind; [ | intros ]
      | apply keeps_tryCatch; [ | intros ]
      | apply keeps_tryFinally
      | match goal with
        | |- keeps _ (match ?x with _ => _ end) => destruct x
        | |- keeps _ (if ?b then _ else _) => destruct b
        end ]. }
  unfold Act.bind at 1. unfold Act.update at 1.
  rewrite Hrest. reflexivity.
Qed.

Lemma runNextScene_unfold network arrival s :
  runNextScene network arrival s =
  let s1 := prelude s in
  let (r, s2) :=
    match APP_CONFIG.scenes (currentScene s + 1) with
    | None => if currentScene s + 1 =? 6 then (Returned tt, reload s1) else (Returned tt, s1)
    | Some config => loadScene network arrival config s1
    end in
  (r, cleanup s2).
Proof.
  unfold runNextScene, prelude, cleanup, ui, audio.
  unfold Act.bind, Act.update, Act.tryFinally, Act.tryCatch, Act.get, Act.ret, Act.throw.
  cbn [fst snd currentScene incrementScene with_ui with_audio].
  destruct (APP_CONFIG.scenes (currentScene s + 1)) as [config | ].
  - destruct (loadScene network arrival config _) as [[[] | e] s2]; cbn;
      destruct (isVR s2); reflexivity.
  - destruct (currentScene s + 1 =? 6); cbn; destruct (isVR s); reflexivity.
Qed.

Lemma scenes_some_range k config :
  APP_CONFIG.scenes k = Some config -> 0 <= k <= 5.
Proof.
  destruct k as [ | p | p ]; simpl; try discriminate; try lia.
  do 3 (destruct p as [ p | p | ]; simpl; try discriminate; try lia).
Qed.

Lemma scenes_none_6 : APP_CONFIG.scenes 6 = None.
Proof. reflexivity. Qed.

Lemma cleanup_frame s :
  currentScene (cleanup s) = currentScene s /\
  reloads (cleanup s) = reloads s /\
  modelLoader (cleanup s) = modelLoader s /\
  cameraManager (cleanup s) = cameraManager s /\
  audioManager (cleanup s) = audioManager s /\
  isVR (cleanup s) = isVR s.
Proof.
  unfold cleanup. cbv zeta. cbn [isVR with_ui].
  destruct (isVR s) eqn:E; repeat split; cbn; exact E.
Qed.

Lemma runNextScene_reloads network arrival s :
  reloads (snd (runNextScene network arrival s)) =
  if currentScene s + 1 =? 6 then S (reloads s) else reloads s.
Proof.
  rewrite runNextScene_unfold. cbv zeta.
  destruct (APP_CONFIG.scenes (currentScene s + 1)) as [config | ] eqn:Hcfg.
  - apply scenes_some_range in Hcfg.
    destruct (Z.eqb_spec (currentScene s + 1) 6) as [H6 | _]; [ lia | ].
    pose proof (loadScene_keeps reloads network arrival config
                  ltac:(reflexivity) ltac:(reflexivity) ltac:(reflexivity)
                  ltac:(reflexivity) (prelude s)) as Hk.
    destruct (loadScene network arrival config (prelude s)) as [r s2]; cbn in *.
    destruct (cleanup_frame s2) as (_ & -> & _). exact Hk.
  - destruct (currentScene s + 1 =? 6); cbn;
      match goal with |- reloads (cleanup ?x) = _ =>
        destruct (cleanup_frame x) as (_ & -> & _) end; reflexivity.
Qed.

Lemma runNextScene_at_sentinel network arrival s :
  currentScene s + 1 = 6 ->
  fst (runNextScene network arrival s) = Returned tt /\
  modelLoader (snd (runNextScene network arrival s)) = modelLoader s /\
  cameraManager (snd (runNextScene network arrival s)) = cameraManager s.
Proof.
  intros H6. rewrite runNextScene_unfold. cbv zeta. rewrite H6. cbn.
  match goal with |- _ /\ modelLoader (cleanup ?x) = _ /\ _ =>
    destruct (cleanup_frame x) as (_ & _ & -> & -> & _) end.
  repeat split.
Qed.

Lemma advance_S network arrival n s :
  advance network arrival (S n) s =
  (fst (advance network arrival n s) ++ [fst (runNextScene network arrival (snd (advance network arrival n s)))],
   snd (runNextScene network arrival (snd (advance network arrival n s)))).
Proof.
  cbn [advance]. destruct (advance network arrival n s) as [outs s1]. cbn [fst snd].
  destruct (runNextScene network arrival s1) as [o s2]. reflexivity.
Qed.

Lemma advance_currentScene network arrival n s :
  currentScene (snd (advance network arrival n s)) = currentScene s + Z.of_nat n.
Proof.
  induction n as [ | n IH].
  - cbn. lia.
  - rewrite advance_S. cbn [snd]. rewrite runNextScene_currentScene, IH. lia.
Qed.

Lemma advance_reloads_before_sentinel network arrival n s :
  currentScene s + Z.of_nat n < 6 ->
  reloads (snd (advance network arrival n s)) = reloads s.
Proof.
  induction n as [ | n IH]; intros Hlt.
  - reflexivity.
  - rewrite advance_S. cbn [snd]. rewrite runNextScene_reloads.
    rewrite advance_currentScene.
    destruct (Z.eqb_spec (currentScene s + Z.of_nat n + 1) 6) as [H6 | _]; [ lia | ].
    apply IH. lia.
Qed.

Lemma advance_snd_S network arrival n s :
  snd (advance network arrival (S n) s) =
  snd (runNextScene network arrival (snd (advance network arrival n s))).
Proof. rewrite advance_S. reflexivity. Qed.

Lemma start_six network arrival vr buffers doc :
  currentScene (snd (advance network arrival 6 (start vr buffers doc))) = 5 /\
  reloads (snd (advance network arrival 6 (start vr buffers doc))) = 0%nat.
Proof.
  split.
  - rewrite advance_currentScene. reflexivity.
  - rewrite advance_reloads_before_sentinel; [ reflexivity | ].
    change (currentScene (start vr buffers doc)) with (-1). lia.
Qed.

(** C2. The scene index starts at -1; every run of [runNextScene] adds
    exactly one to it; the run that reaches index 6 calls
    [window.location.reload()] once, returns normally and leaves the loaded
    models and the camera as they were, and no other run reloads; so the
    seventh run after the start is the restart, the first six are not. *)
Theorem C2_index_and_restart :
  forall (network : string -> Fetch) (arrival : list Request -> list Request),
    (forall vr buffers doc, currentScene (start vr buffers doc) = -1) /\
    (forall s, currentScene (snd (runNextScene network arrival s)) = currentScene s + 1) /\
    (forall s,
        let r := runNextScene network arrival s in
        if currentScene s + 1 =? 6
        then reloads (snd r) = S (reloads s) /\
             fst r = Returned tt /\
             modelLoader (snd r) = modelLoader s /\
             cameraManager (snd r) = cameraManager s
        else reloads (snd r) = reloads s) /\
    (forall vr buffers doc,
        let s6 := snd (advance network arrival 6 (start vr buffers doc)) in
        let s7 := snd (advance network arrival 7 (start vr buffers doc)) in
        currentScene s6 = 5 /\ reloads s6 = 0%nat /\
        currentScene s7 = 6 /\ reloads s7 = 1%nat /\
        modelLoader s7 = modelLoader s6 /\ cameraManager s7 = cameraManager s6).
Proof.
  intros network arrival. split; [ reflexivity | ].
  split; [ apply runNextScene_currentScene | ].
  split.
  - intros s r. subst r.
    pose proof (runNextScene_reloads network arrival s) as Hr.
    destruct (Z.eqb_spec (currentScene s + 1) 6) as [H6 | H6].
    + destruct (runNextScene_at_sentinel network arrival s H6) as (Ho & Hm & Hc).
      repeat split; assumption.
    + exact Hr.
  - intros vr buffers doc s6 s7.
    destruct (start_six network arrival vr buffers doc) as [H5 Hr6].
    assert (E7 : s7 = snd (runNextScene network arrival s6))
      by apply advance_snd_S.
    fold s6 in H5, Hr6.
    clearbody s6 s7. subst s7.
    destruct (runNextScene_at_sentinel network arrival s6) as (_ & Hm & Hc);
      [ rewrite H5; reflexivity | ].
    split; [ exact H5 | ]. split; [ exact Hr6 | ].
    split; [ rewrite runNextScene_currentScene, H5; reflexivity | ].
    split; [ rewrite runNextScene_reloads, H5, Hr6; reflexivity | ].
    split; [ exact Hm | exact Hc ].
Qed.

(** *** Batches of loads *)

Section Batches.
Variable network : string -> Fetch.
Variable arrival : list Request -> list Request.

Lemma settleOne_assets r ml :
  match snd (settleOne network r ml) with
  | None => assets (fst (settleOne network r ml)) = assets ml ++ [req_url r]
  | Some e => fst (settleOne network r ml) = ml /\ network (req_url r) = Rejected e
  end.
Proof.
  unfold settleOne. destruct (network (req_url r)) as [g | e] eqn:Hn; cbn.
  - destruct r as [url config | url]; unfold assets; cbn;
      rewrite map_app; reflexivity.
  - split; reflexivity.
Qed.

Lemma settleOne_requested r ml :
  requested (fst (settleOne network r ml)) = requested ml.
Proof.
  unfold settleOne. destruct (network (req_url r)) as [g | e]; cbn; [ | reflexivity ].
  destruct r; reflexivity.
Qed.

Lemma settle_cons r rs ml :
  settle network (r :: rs) ml =
  match snd (settleOne network r ml) with
  | Some e => (fst (settleOne network r ml), Some e)
  | None => settle network rs (fst (settleOne network r ml))
  end.
Proof.
  cbn [settle]. destruct (settleOne network r ml) as [ml1 e1]. reflexivity.
Qed.

Lemma settle_requested rs : forall ml,
  requested (fst (settle network rs ml)) = requested ml.
Proof.
  induction rs as [ | r rs IH]; intros ml; [ reflexivity | ].
  rewrite settle_cons.
  destruct (snd (settleOne network r ml)); cbn [fst]; [ | rewrite IH ];
    apply settleOne_requested.
Qed.

(** Every load succeeds: the batch resolves and each request adds its
    model. *)
Lemma settle_loaded rs :
  (forall r, In r rs -> exists g, network (req_url r) = Loaded g) ->
  forall ml,
    snd (settle network rs ml) = None /\
    assets (fst (settle network rs ml)) = assets ml ++ map req_url rs.
Proof.
  induction rs as [ | r rs IH]; intros Hnet ml.
  - cbn. rewrite app_nil_r. split; reflexivity.
  - rewrite settle_cons.
    pose proof (settleOne_assets r ml) as H1.
    destruct (Hnet r (or_introl eq_refl)) as [g Hg].
    destruct (snd (settleOne network r ml)) as [e | ] eqn:He.
    + destruct H1 as [_ H1]. congruence.
    + destruct (IH (fun r' Hr' => Hnet r' (or_intror Hr'))
                   (fst (settleOne network r ml))) as [IH1 IH2].
      split; [ exact IH1 | ].
      rewrite IH2, H1. cbn [map]. rewrite <- app_assoc. reflexivity.
Qed.

(** A rejected load rejects the batch, with the error of a request of
    the batch. *)
Lemma settle_rejected rs :
  forall ml r e0,
    In r rs -> network (req_url r) = Rejected e0 ->
    exists e r', snd (settle network rs ml) = Some e /\
                 In r' rs /\ network (req_url r') = Rejected e.
Proof.
  induction rs as [ | r1 rs IH]; intros ml r e0 Hin Hrej; [ destruct Hin | ].
  rewrite settle_cons.
  pose proof (settleOne_assets r1 ml) as H1.
  destruct (snd (settleOne network r1 ml)) as [e | ] eqn:He.
  - destruct H1 as [_ H1]. exists e, r1. repeat split; [ left; reflexivity | exact H1 ].
  - destruct Hin as [-> | Hin].
    + unfold settleOne in He. rewrite Hrej in He. discriminate.
    + destruct (IH (fst (settleOne network r1 ml)) r e0 Hin Hrej) as (e & r' & Hs & Hr' & Hn).
      exists e, r'. repeat split; [ exact Hs | right; exact Hr' | exact Hn ].
Qed.

Lemma awaitAll_run rs s :
  awaitAll network arrival rs s =
  (match snd (settle network (arrival rs) (issue rs (modelLoader s))) with
   | Some e => Thrown e
   | None => Returned tt
   end,
   with_loader (fun _ => fst (settle network (arrival rs) (issue rs (modelLoader s)))) s).
Proof.
  unfold awaitAll. destruct (settle network (arrival rs) _) as [ml err]. reflexivity.
Qed.
End Batches.

Lemma setFirst_assets id v l :
  map (fun m => asset (scene m)) (Loader.setFirst id v l) = map (fun m => asset (scene m)) l.
Proof.
  induction l as [ | m l IH]; [ reflexivity | ].
  cbn [Loader.setFirst]. destruct (Loader.has_id id m); cbn; [ reflexivity | ].
  rewrite IH. reflexivity.
Qed.

Lemma setModelVisibility_assets id v ml :
  assets (Loader.setModelVisibility id v ml) = assets ml.
Proof. unfold assets. cbn. apply setFirst_assets. Qed.

(** *** What a load routine does to the loader *)

Lemma scenes_cases k config :
  APP_CONFIG.scenes k = Some config ->
  (k = 0 /\ config = APP_CONFIG.scene0) \/ (k = 1 /\ config = APP_CONFIG.scene1) \/
  (k = 2 /\ config = APP_CONFIG.scene2) \/ (k = 3 /\ config = APP_CONFIG.scene3) \/
  (k = 4 /\ config = APP_CONFIG.scene4) \/ (k = 5 /\ config = APP_CONFIG.scene5).
Proof.
  intros H. pose proof (scenes_some_range k config H) as Hr.
  assert (Hk : k = 0 \/ k = 1 \/ k = 2 \/ k = 3 \/ k = 4 \/ k = 5) by lia.
  destruct Hk as [-> | [-> | [-> | [-> | [-> | ->]]]]]; cbn in H;
    injection H as <-; tauto.
Qed.

Ltac run_actions :=
  unfold loadScene, loadScene0, loadScene1, loadScene2, loadScene3, loadScene4,
    loadScene5, toggleButtonsIfAny, handleVariantClick, ui, loader, camera, audio,
    Act.bind, Act.update, Act.get, Act.ret, Act.throw.

Lemma loadScene_effect network arrival k config s1 :
  currentScene s1 = k ->
  APP_CONFIG.scenes k = Some config ->
  let b := settle network (arrival (stepRequests k))
             (issue (stepRequests k) (Loader.unloadAll (modelLoader s1))) in
  let r := loadScene network arrival config s1 in
  (k = 1 -> fst r = Returned tt /\ modelLoader (snd r) = modelLoader s1) /\
  (k <> 1 ->
   fst r = match snd b with Some e => Thrown e | None => Returned tt end /\
   assets (modelLoader (snd r)) = assets (fst b) /\
   requested (modelLoader (snd r)) = requested (fst b)).
Proof.
  intros Hcs Hcfg. destruct s1 as [cs ml cam aud u vr rl]. cbn in Hcs. subst cs.
  destruct (scenes_cases k config Hcfg)
    as [[-> ->] | [[-> ->] | [[-> ->] | [[-> ->] | [[-> ->] | [-> ->]]]]]];
    cbv zeta; (split; [ intros Hk; try discriminate Hk | intros Hk; try (exfalso; apply Hk; reflexivity) ]).
  - run_actions. cbn -[awaitAll]. rewrite awaitAll_run. cbn [modelLoader].
    destruct (settle network _ _) as [ml' [e | ]]; cbn; repeat split.
  - run_actions. cbn. split; reflexivity.
  - run_actions. cbn -[awaitAll]. rewrite awaitAll_run. cbn [modelLoader].
    destruct (settle network _ _) as [ml' [e | ]];
      cbn -[Loader.setModelVisibility assets]; repeat split.
    rewrite !setModelVisibility_assets. reflexivity.
  - run_actions. cbn -[awaitAll]. rewrite awaitAll_run. cbn [modelLoader].
    destruct (settle network _ _) as [ml' [e | ]]; cbn; repeat split.
  - run_actions. cbn -[awaitAll]. rewrite awaitAll_run. cbn [modelLoader].
    destruct (settle network _ _) as [ml' [e | ]]; cbn; repeat split.
  - run_actions. cbn -[awaitAll]. rewrite awaitAll_run. cbn [modelLoader].
    destruct (settle network _ _) as [ml' [e | ]]; cbn; repeat split.
Qed.

Lemma prelude_frame s :
  currentScene (prelude s) = currentScene s + 1 /\
  modelLoader (prelude s) = modelLoader s /\
  isVR (prelude s) = isVR s /\
  List.length (infoButtons (uiManager (prelude s))) = List.length (infoButtons (uiManager s)).
Proof. unfold prelude. cbn. rewrite length_map. repeat split. Qed.

(** One run of [runNextScene] into a step of the catalog, read off the
    batch of loads the step issues. *)
Lemma runNextScene_step network arrival s k config :
  currentScene s + 1 = k ->
  APP_CONFIG.scenes k = Some config ->
  let b := settle network (arrival (stepRequests k))
             (issue (stepRequests k) (Loader.unloadAll (modelLoader s))) in
  let r := runNextScene network arrival s in
  (k = 1 -> fst r = Returned tt /\ modelLoader (snd r) = modelLoader s) /\
  (k <> 1 ->
   fst r = match snd b with Some e => Thrown e | None => Returned tt end /\
   assets (modelLoader (snd r)) = assets (fst b) /\
   requested (modelLoader (snd r)) = requested (fst b)).
Proof.
  intros Hk Hcfg b r. subst b r. rewrite runNextScene_unfold. cbv zeta.
  rewrite Hk, Hcfg.
  destruct (prelude_frame s) as (Hp1 & Hp2 & _).
  pose proof (loadScene_effect network arrival k config (prelude s)
                ltac:(lia) Hcfg) as H.
  cbv zeta in H. rewrite Hp2 in H.
  destruct (loadScene network arrival config (prelude s)) as [o s2].
  cbn [fst snd] in *.
  destruct (cleanup_frame s2) as (_ & _ & -> & _).
  exact H.
Qed.

Lemma declared_requests k :
  k <> 1 -> map req_url (stepRequests k) = declaredAssets k.
Proof.
  intros Hk.
  destruct k as [ | p | p ]; [ reflexivity | | reflexivity ].
  destruct p as [ [ [ p | p | ] | [ p | p | ] | ] | [ [ p | p | ] | [ p | p | ] | ] | ];
    try reflexivity.
  exfalso; apply Hk; reflexivity.
Qed.

Lemma issue_assets rs ml : assets (issue rs ml) = assets ml.
Proof. reflexivity. Qed.

Lemma issue_requested rs ml : requested (issue rs ml) = requested ml ++ map req_url rs.
Proof. reflexivity. Qed.

Section AllLoadsSucceed.
Variable network : string -> Fetch.
Variable arrival : list Request -> list Request.
Hypothesis loads : forall u, exists g, network u = Loaded g.
Hypothesis settles : forall rs, Permutation (arrival rs) rs.

Lemma runNextScene_loaded s k config :
  currentScene s + 1 = k ->
  APP_CONFIG.scenes k = Some config ->
  fst (runNextScene network arrival s) = Returned tt /\
  (k = 1 -> modelLoader (snd (runNextScene network arrival s)) = modelLoader s) /\
  (k <> 1 ->
   Permutation (assets (modelLoader (snd (runNextScene network arrival s))))
               (declaredAssets k) /\
   requested (modelLoader (snd (runNextScene network arrival s)))
   = requested (modelLoader s) ++ declaredAssets k).
Proof.
  intros Hk Hcfg.
  destruct (runNextScene_step network arrival s k config Hk Hcfg) as [H1 Hn].
  destruct (settle_loaded network (arrival (stepRequests k))
              (fun r _ => loads (req_url r))
              (issue (stepRequests k) (Loader.unloadAll (modelLoader s))))
    as [Hnone Hassets].
  destruct (Z.eq_dec k 1) as [E1 | N1].
  - destruct (H1 E1) as [Ho Hm]. split; [ exact Ho | ].
    split; [ intros _; exact Hm | intros C; contradiction ].
  - destruct (Hn N1) as (Ho & Ha & Hr). rewrite Hnone in Ho.
    split; [ exact Ho | ].
    split; [ intros C; contradiction | intros _ ].
    split.
    + rewrite Ha, Hassets, issue_assets. cbn [assets Loader.unloadAll loadedModels map app].
      rewrite <- (declared_requests k N1).
      apply Permutation_map, settles.
    + rewrite Hr, settle_requested, issue_requested, (declared_requests k N1).
      reflexivity.
Qed.

Lemma advance_loaded vr buffers doc n :
  (n <= 5)%nat ->
  fst (advance network arrival (S n) (start vr buffers doc)) = repeat (Returned tt) (S n) /\
  Permutation (assets (modelLoader (snd (advance network arrival (S n) (start vr buffers doc)))))
              (declaredAssets (Z.of_nat n)).
Proof.
  induction n as [ | n IH]; intros Hn.
  - rewrite advance_S. cbn [advance fst snd].
    destruct (runNextScene_loaded (start vr buffers doc) 0 APP_CONFIG.scene0
                eq_refl eq_refl) as (Ho & _ & Hp).
    rewrite Ho. split; [ reflexivity | ].
    apply Hp. discriminate.
  - destruct (IH ltac:(lia)) as [IHo IHp].
    rewrite advance_S. cbn [fst snd]. rewrite IHo.
    set (s := snd (advance network arrival (S n) (start vr buffers doc))) in *.
    assert (Hcs : currentScene s + 1 = Z.of_nat (S n)).
    { subst s. rewrite advance_currentScene.
      change (currentScene (start vr buffers doc)) with (-1). lia. }
    clearbody s.
    destruct (APP_CONFIG.scenes (Z.of_nat (S n))) as [config | ] eqn:Hcfg.
    2:{ exfalso.
        assert (Hc : Z.of_nat (S n) = 1 \/ Z.of_nat (S n) = 2 \/ Z.of_nat (S n) = 3 \/
                     Z.of_nat (S n) = 4 \/ Z.of_nat (S n) = 5) by lia.
        destruct Hc as [E | [E | [E | [E | E]]]]; rewrite E in Hcfg; discriminate. }
    destruct (runNextScene_loaded s (Z.of_nat (S n)) config Hcs Hcfg) as (Ho & H1 & Hp).
    rewrite Ho. split.
    + change (repeat (Returned tt) (S (S n)))
        with (@Returned unit tt :: repeat (Returned tt) (S n)).
      rewrite (repeat_cons (S n) (@Returned unit tt)). reflexivity.
    + destruct (Z.eq_dec (Z.of_nat (S n)) 1) as [E1 | N1].
      * rewrite (H1 E1). assert (n = 0%nat) by lia. subst n. exact IHp.
      * apply (Hp N1).
Qed.
End AllLoadsSucceed.

(** C3. With every load succeeding and the loads of a batch settling in
    any order: N+1 runs of [runNextScene] from the start, for N from 0 to
    5, all return normally and end on step N with exactly the models the
    configuration declares for step N; the run into step 1 leaves the
    loader untouched; the run into any other step of the catalog discards
    whatever was loaded, requests the declared URLs once each, and ends
    with exactly those models. *)
Theorem C3_advance_lands_on_step :
  forall (network : string -> Fetch) (arrival : list Request -> list Request),
    (forall u, exists g, network u = Loaded g) ->
    (forall rs, Permutation (arrival rs) rs) ->
    (forall vr buffers doc N,
        (N <= 5)%nat ->
        let r := advance network arrival (S N) (start vr buffers doc) in
        fst r = repeat (Returned tt) (S N) /\
        currentScene (snd r) = Z.of_nat N /\
        Permutation (assets (modelLoader (snd r))) (declaredAssets (Z.of_nat N))) /\
    (forall s,
        currentScene s + 1 = 1 ->
        modelLoader (snd (runNextScene network arrival s)) = modelLoader s) /\
    (forall s k,
        currentScene s + 1 = k -> 0 <= k <= 5 -> k <> 1 ->
        Permutation (assets (modelLoader (snd (runNextScene network arrival s))))
                    (declaredAssets k) /\
        requested (modelLoader (snd (runNextScene network arrival s)))
        = requested (modelLoader s) ++ declaredAssets k).
Proof.
  intros network arrival loads settles. split; [ | split ].
  - intros vr buffers doc N HN r. subst r.
    destruct (advance_loaded network arrival loads settles vr buffers doc N HN) as [Ho Hp].
    split; [ exact Ho | ]. split; [ | exact Hp ].
    rewrite advance_currentScene. change (currentScene (start vr buffers doc)) with (-1). lia.
  - intros s H1.
    destruct (runNextScene_loaded network arrival loads settles s 1 APP_CONFIG.scene1
                H1 eq_refl) as (_ & Hm & _).
    apply Hm. reflexivity.
  - intros s k Hk Hr N1.
    assert (Hc : k = 0 \/ k = 1 \/ k = 2 \/ k = 3 \/ k = 4 \/ k = 5) by lia.
    assert (Hcfg : exists config, APP_CONFIG.scenes k = Some config).
    { destruct Hc as [E | [E | [E | [E | [E | E]]]]]; rewrite E; eexists; reflexivity. }
    destruct Hcfg as [config Hcfg].
    destruct (runNextScene_loaded network arrival loads settles s k config Hk Hcfg)
      as (_ & _ & Hp).
    apply Hp. exact N1.
Qed.

(** *** The [finally] block *)

Lemma handleVariantClick_infoButtons index :
  keeps (fun s => infoButtons (uiManager s)) (handleVariantClick index).
Proof.
  unfold handleVariantClick, ui, loader, camera.
  apply keeps_bind; [ apply keeps_update; intros; reflexivity | intros _ ].
  apply keeps_bind; [ apply keeps_get | intros s ].
  repeat first
    [ apply keeps_ret | apply keeps_throw
    | apply keeps_update; intros; reflexivity
    | apply keeps_bind; [ | intros ]
    | match goal with
      | |- keeps _ (match ?x with _ => _ end) => destruct x
      | |- keeps _ (if ?b then _ else _) => destruct b
      end ].
Qed.

Lemma loadScene_infoButtons network arrival config :
  keeps (fun s => infoButtons (uiManager s)) (loadScene network arrival config).
Proof.
  unfold loadScene, loadScene0, loadScene1, loadScene2, loadScene3, loadScene4,
    loadScene5, toggleButtonsIfAny, ui, loader, camera, audio.
  apply keeps_bind; [ apply keeps_get | intros s ].
  repeat first
    [ apply keeps_ret | apply keeps_throw
    | apply keeps_update; intros; reflexivity
    | apply awaitAll_keeps; intros; reflexivity
    | apply handleVariantClick_infoButtons
    | apply keeps_bind; [ | intros ]
    | match goal with
      | |- keeps _ (match ?x with _ => _ end) => destruct x
      | |- keeps _ (if ?b then _ else _) => destruct b
      end ].
Qed.

Lemma map_const_length {A B} (b : B) (l l' : list A) :
  List.length l = List.length l' -> map (fun _ => b) l = map (fun _ => b) l'.
Proof.
  revert l'. induction l as [ | a l IH]; intros [ | a' l'] H; try discriminate H.
  - reflexivity.
  - cbn. f_equal. apply IH. injection H as H. exact H.
Qed.

Lemma cleanup_ui s :
  sceneLoadingEl (uiManager (cleanup s)) = display_none /\
  backgroundImgEl (uiManager (cleanup s)) = display_none /\
  infoButtons (uiManager (cleanup s)) = infoButtonsShown (isVR s) (infoButtons (uiManager s)).
Proof.
  unfold cleanup, infoButtonsShown. cbv zeta. cbn [isVR with_ui].
  destruct (isVR s); cbn; repeat split.
Qed.

(** Whatever the [try] block does, [runNextScene] ends with the loading
    indicator and the background image hidden and the info buttons shown
    (the fullscreen button excepted in VR). *)
Lemma runNextScene_cleanup network arrival s :
  let r := runNextScene network arrival s in
  sceneLoadingEl (uiManager (snd r)) = display_none /\
  backgroundImgEl (uiManager (snd r)) = display_none /\
  infoButtons (uiManager (snd r)) = infoButtonsShown (isVR s) (infoButtons (uiManager s)).
Proof.
  cbv zeta. rewrite runNextScene_unfold. cbv zeta.
  destruct (prelude_frame s) as (_ & _ & Hvr & Hlen).
  assert (H : forall o s2,
             isVR s2 = isVR s ->
             List.length (infoButtons (uiManager s2)) = List.length (infoButtons (uiManager s)) ->
             sceneLoadingEl (uiManager (snd (o : Outcome unit, cleanup s2))) = display_none /\
             backgroundImgEl (uiManager (snd (o, cleanup s2))) = display_none /\
             infoButtons (uiManager (snd (o, cleanup s2)))
             = infoButtonsShown (isVR s) (infoButtons (uiManager s))).
  { intros o s2 Hv Hl. cbn [snd]. destruct (cleanup_ui s2) as (H1 & H2 & H3).
    repeat split; [ exact H1 | exact H2 | ].
    rewrite H3, Hv. unfold infoButtonsShown.
    rewrite (map_const_length display_block _ _ Hl). reflexivity. }
  destruct (APP_CONFIG.scenes (currentScene s + 1)) as [config | ].
  - pose proof (loadScene_infoButtons network arrival config (prelude s)) as Hi.
    pose proof (loadScene_keeps isVR network arrival config
                  ltac:(reflexivity) ltac:(reflexivity) ltac:(reflexivity)
                  ltac:(reflexivity) (prelude s)) as Hv.
    destruct (loadScene network arrival config (prelude s)) as [o s2].
    cbn [snd] in Hi, Hv. apply H; [ congruence | ].
    cbn beta in Hi. rewrite Hi. exact Hlen.
  - destruct (currentScene s + 1 =? 6); apply H; try exact Hvr; exact Hlen.
Qed.

(** A rejected load of the step is thrown on by [runNextScene]. *)
Lemma runNextScene_rejected network arrival s r0 e0 :
  (forall rs, Permutation (arrival rs) rs) ->
  In r0 (stepRequests (currentScene s + 1)) ->
  network (req_url r0) = Rejected e0 ->
  exists e r', fst (runNextScene network arrival s) = Thrown e /\
               In r' (stepRequests (currentScene s + 1)) /\
               network (req_url r') = Rejected e.
Proof.
  intros settles Hin Hrej.
  set (k := currentScene s + 1) in *.
  assert (Hk : k <> 1) by (intros E; rewrite E in Hin; destruct Hin).
  assert (Hcfg : exists config, APP_CONFIG.scenes k = Some config).
  { destruct k as [ | p | p ]; [ eexists; reflexivity | | destruct Hin ].
    destruct p as [ [ [ p | p | ] | [ p | p | ] | ] | [ [ p | p | ] | [ p | p | ] | ] | ];
      try (destruct Hin; fail); eexists; reflexivity. }
  destruct Hcfg as [config Hcfg].
  destruct (runNextScene_step network arrival s k config eq_refl Hcfg) as [_ Hn].
  destruct (Hn Hk) as (Ho & _).
  destruct (settle_rejected network (arrival (stepRequests k))
              (issue (stepRequests k) (Loader.unloadAll (modelLoader s))) r0 e0)
    as (e & r' & Hs & Hr' & Hn').
  { apply (Permutation_in r0 (Permutation_sym (settles (stepRequests k)))). exact Hin. }
  { exact Hrej. }
  exists e, r'. rewrite Ho, Hs. repeat split; [ | exact Hn' ].
  apply (Permutation_in r' (settles (stepRequests k))). exact Hr'.
Qed.

(** Each URL of the step is handed to the loader once, no more, whether
    the loads succeed or not. *)
Lemma runNextScene_requested network arrival s :
  requested (modelLoader (snd (runNextScene network arrival s)))
  = requested (modelLoader s) ++ map req_url (stepRequests (currentScene s + 1)).
Proof.
  destruct (APP_CONFIG.scenes (currentScene s + 1)) as [config | ] eqn:Hcfg.
  - destruct (runNextScene_step network arrival s _ config eq_refl Hcfg) as [H1 Hn].
    destruct (Z.eq_dec (currentScene s + 1) 1) as [E1 | N1].
    + destruct (H1 E1) as [_ Hm]. rewrite Hm, E1. cbn. rewrite app_nil_r. reflexivity.
    + destruct (Hn N1) as (_ & _ & Hr).
      rewrite Hr, settle_requested, issue_requested. reflexivity.
  - rewrite runNextScene_unfold. cbv zeta. rewrite Hcfg.
    assert (Hnil : stepRequests (currentScene s + 1) = []).
    { destruct (currentScene s + 1) as [ | p | p ]; try discriminate Hcfg; try reflexivity.
      destruct p as [ [ [ p | p | ] | [ p | p | ] | ] | [ [ p | p | ] | [ p | p | ] | ] | ];
        try discriminate Hcfg; reflexivity. }
    rewrite Hnil. cbn [map]. rewrite app_nil_r.
    destruct (currentScene s + 1 =? 6); cbn [snd];
      match goal with |- requested (modelLoader (cleanup ?x)) = _ =>
        destruct (cleanup_frame x) as (_ & _ & -> & _) end; reflexivity.
Qed.

(** C4. Whatever the load routine does, [runNextScene] ends with the
    loading indicator and the background image hidden, the info buttons
    shown (in VR all but the fullscreen button) and the index one above
    where it was; when a load of the step is rejected the call throws, and
    the error it throws is the one a rejected load of that step gave; the
    URLs of the step are requested once each, success or not. *)
Theorem C4_rejected_load_cleanup_rethrow :
  forall (network : string -> Fetch) (arrival : list Request -> list Request),
    (forall rs, Permutation (arrival rs) rs) ->
    (forall s,
        let r := runNextScene network arrival s in
        sceneLoadingEl (uiManager (snd r)) = display_none /\
        backgroundImgEl (uiManager (snd r)) = display_none /\
        infoButtons (uiManager (snd r)) = infoButtonsShown (isVR s) (infoButtons (uiManager s)) /\
        currentScene (snd r) = currentScene s + 1) /\
    (forall s r0 e0,
        In r0 (stepRequests (currentScene s + 1)) ->
        network (req_url r0) = Rejected e0 ->
        exists e r',
          fst (runNextScene network arrival s) = Thrown e /\
          In r' (stepRequests (currentScene s + 1)) /\
          network (req_url r') = Rejected e) /\
    (forall s,
        requested (modelLoader (snd (runNextScene network arrival s)))
        = requested (modelLoader s) ++ map req_url (stepRequests (currentScene s + 1))).
Proof.
  intros network arrival settles. split; [ | split ].
  - intros s r. subst r.
    destruct (runNextScene_cleanup network arrival s) as (H1 & H2 & H3).
    repeat split; [ exact H1 | exact H2 | exact H3 | apply runNextScene_currentScene ].
  - intros s r0 e0. apply runNextScene_rejected. exact settles.
  - apply runNextScene_requested.
Qed.

(** C8, as stated, fails: in step 2 index 2 lies beyond the two options,
    yet the call swaps the visible pair of models and rewrites the
    description. *)
Lemma C8_counterexample :
  variantCount (currentScene atStep2) <= 2 /\
  visibilities atStep2
  = [ (Some "m1", true); (Some "m4", true); (Some "m3", false); (Some "m5", false) ] /\
  visibilities (snd (handleVariantClick 2 atStep2))
  = [ (Some "m1", false); (Some "m4", false); (Some "m3", true); (Some "m5", true) ] /\
  text (descriptionEl (uiManager atStep2)) = "Showing Option 1 (M1+M4)" /\
  text (descriptionEl (uiManager (snd (handleVariantClick 2 atStep2)))) = "Showing Units".
Proof.
  vm_compute. repeat split; try reflexivity. discriminate.
Qed.

Ltac z_small k :=
  destruct k as [ | k | k ];
  [ | destruct k as [ [ [ k | k | ] | [ k | k | ] | ] | [ [ k | k | ] | [ k | k | ] | ] | ] | ].

(** C8, amended. For an index at or beyond the variants of the current
    step, [handleVariantClick] throws nothing and never touches the camera
    or the content panels. It always re-marks the toggle buttons (button i
    is selected exactly when i is the index). Outside the steps 1 and 2
    that is all it does; in step 1 it also rewrites the description; in
    step 2 it also rewrites the description and shows the models m3 and m5
    in place of m1 and m4. *)
Theorem C8_out_of_range_variant :
  forall (s : SequenceManager) (index : Z),
    variantCount (currentScene s) <= index ->
    let r := handleVariantClick index s in
    let selected := with_ui (UI.selectToggleButton index) s in
    let label := buttonText (modelToggleButtons (uiManager selected)) index in
    fst r = Returned tt /\
    cameraManager (snd r) = cameraManager s /\
    leftHtmlPanel (uiManager (snd r)) = leftHtmlPanel (uiManager s) /\
    rightHtmlPanel (uiManager (snd r)) = rightHtmlPanel (uiManager s) /\
    modelToggleButtons (uiManager (snd r)) = modelToggleButtons (uiManager selected) /\
    (currentScene s <> 1 -> currentScene s <> 2 -> snd r = selected) /\
    (currentScene s = 1 ->
     snd r = with_ui (UI.showDescription (String.append "Info for " label)) selected) /\
    (currentScene s = 2 ->
     snd r = with_ui (UI.showDescription (String.append "Showing " label))
               (with_loader showSecondView selected)).
Proof.
  intros s index Hidx. destruct s as [cs ml cam aud u vr rl].
  cbn [currentScene] in Hidx.
  unfold handleVariantClick, ui, loader, camera,
    Act.bind, Act.update, Act.get, Act.ret, Act.throw.
  cbv zeta. cbn [currentScene with_ui fst snd].
  z_small cs; cbn -[Z.le] in Hidx;
    try (cbn; repeat split; intros; (congruence || lia)).
  all: cbn -[Z.ltb Z.eqb].
  all: repeat match goal with
         | |- context [ Z.eqb ?i ?c ] => is_var i; destruct (Z.eqb_spec i c); [ lia | ]
         | |- context [ Z.ltb ?i ?c ] => is_var i; destruct (Z.ltb_spec i c); [ lia | ]
         end.
  all: cbn; repeat split; intros; congruence.
Qed.

Lemma C8_witness :
  let r := handleVariantClick 7 atStep2 in
  fst r = Returned tt /\ cameraManager (snd r) = cameraManager atStep2.
Proof.
  pose proof (C8_out_of_range_variant atStep2 7 ltac:(vm_compute; discriminate)) as H.
  cbv zeta in H. destruct H as (H1 & H2 & _). split; [ exact H1 | exact H2 ].
Defined.

(** *** The audio heap *)

Lemma forEach_index_length {A} (f : A -> nat -> A) l : forall k,
  List.length (forEach_index f l k) = List.length l.
Proof. induction l as [ | a l IH]; intros k; cbn; [ | rewrite IH ]; reflexivity. Qed.

Lemma forEach_index_nth {A} (f : A -> nat -> A) l : forall k i,
  nth_error (forEach_index f l k) i = option_map (fun a => f a (k + i)%nat) (nth_error l i).
Proof.
  induction l as [ | a l IH]; intros k i.
  - destruct i; reflexivity.
  - destruct i as [ | i]; cbn.
    + rewrite Nat.add_0_r. reflexivity.
    + rewrite IH. rewrite Nat.add_succ_r. reflexivity.
Qed.

Lemma stopSound_length r heap : List.length (AudioM.stopSound r heap) = List.length heap.
Proof. apply forEach_index_length. Qed.

Lemma stopSound_nth r heap i :
  nth_error (AudioM.stopSound r heap) i
  = option_map (fun s => if (i =? r)%nat then stopped s else s) (nth_error heap i).
Proof. unfold AudioM.stopSound. rewrite forEach_index_nth. reflexivity. Qed.

Lemma stopSound_last heap snd :
  AudioM.stopSound (List.length heap) (heap ++ [snd]) = heap ++ [stopped snd].
Proof.
  apply nth_error_ext. intros i. rewrite stopSound_nth.
  destruct (Nat.lt_ge_cases i (List.length heap)) as [Hlt | Hge].
  - rewrite !nth_error_app1 by exact Hlt.
    destruct (Nat.eqb_spec i (List.length heap)); [ lia | ].
    destruct (nth_error heap i); reflexivity.
  - rewrite !nth_error_app2 by exact Hge.
    destruct (i - List.length heap)%nat as [ | d] eqn:Hd; cbn.
    + destruct (Nat.eqb_spec i (List.length heap)); [ reflexivity | lia ].
    + destruct d; reflexivity.
Qed.

Lemma stopAll_sounds_length a :
  List.length (sounds (AudioM.stopAll a)) = List.length (sounds a).
Proof.
  unfold AudioM.stopAll. cbn [sounds].
  generalize (sounds a). induction (activeSounds a) as [ | r rs IH]; intros heap.
  - reflexivity.
  - cbn [fold_left]. rewrite IH. apply stopSound_length.
Qed.

Lemma fold_stop_nth rs : forall heap i s,
  nth_error heap i = Some s ->
  exists s', nth_error (fold_left (fun h r => AudioM.stopSound r h) rs heap) i = Some s' /\
             (In i rs \/ isPlaying s = false -> isPlaying s' = false).
Proof.
  induction rs as [ | r rs IH]; intros heap i s Hs.
  - exists s. split; [ exact Hs | ]. intros [[] | H]; exact H.
  - cbn [fold_left].
    pose proof (stopSound_nth r heap i) as Hn. rewrite Hs in Hn. cbn in Hn.
    destruct (IH _ _ _ Hn) as (s' & Hs' & Hp).
    exists s'. split; [ exact Hs' | ].
    intros [[-> | Hin] | Hq].
    + apply Hp. right. rewrite Nat.eqb_refl. reflexivity.
    + apply Hp. left. exact Hin.
    + apply Hp. right. destruct (i =? r)%nat; [ reflexivity | exact Hq ].
Qed.

Lemma stopAll_tidy a : tidy a -> activeSounds (AudioM.stopAll a) = [] /\ playing (AudioM.stopAll a) = [].
Proof.
  intros [[Ha Hp] | (heap & snd & Hs & Ha & Hq)]; unfold AudioM.stopAll, playing; cbn [activeSounds sounds].
  - rewrite Ha. cbn. split; [ reflexivity | exact Hp ].
  - rewrite Ha, Hs. cbn [fold_left]. rewrite stopSound_last.
    split; [ reflexivity | ]. rewrite filter_app, Hq. reflexivity.
Qed.

Lemma playAudio_tidy index loop volume a : tidy a -> tidy (AudioM.playAudio index loop volume a).
Proof.
  intros Ht. unfold AudioM.playAudio.
  destruct (nth_error (soundBuffers a) index) as [[buf | ] | ]; try exact Ht.
  destruct (stopAll_tidy a Ht) as [Ha Hp].
  right. exists (sounds (AudioM.stopAll a)). eexists.
  cbn [sounds activeSounds]. split; [ reflexivity | ].
  split; [ rewrite Ha; reflexivity | exact Hp ].
Qed.

Lemma audioCall_tidy a c : tidy a -> tidy (audioCall a c).
Proof.
  intros Ht. destruct c as [index loop volume | ]; cbn [audioCall].
  - apply playAudio_tidy. exact Ht.
  - left. apply stopAll_tidy. exact Ht.
Qed.

Lemma calls_tidy calls : forall a, tidy a -> tidy (fold_left audioCall calls a).
Proof.
  induction calls as [ | c calls IH]; intros a Ht; [ exact Ht | ].
  cbn [fold_left]. apply IH, audioCall_tidy, Ht.
Qed.

Lemma tidy_at_most_one a :
  tidy a -> (List.length (activeSounds a) <= 1)%nat /\ (List.length (playing a) <= 1)%nat.
Proof.
  intros [[Ha Hp] | (heap & snd & Hs & Ha & Hq)].
  - rewrite Ha, Hp. cbn. lia.
  - rewrite Ha. unfold playing. rewrite Hs, filter_app, Hq. cbn.
    destruct (isPlaying snd); cbn; lia.
Qed.

(** C10. When [playAudio] finds its buffer it leaves exactly one active
    sound, the one it has just created and started, and every sound that
    was active before is stopped; when the buffer is missing it changes
    nothing. So after any sequence of [playAudio] and [stopAll] calls on a
    fresh manager at most one sound is active, and at most one sound of
    all those ever created is playing. *)
Theorem C10_at_most_one_active_sound :
  (forall a index loop volume buf,
      nth_error (soundBuffers a) index = Some (Some buf) ->
      let a' := AudioM.playAudio index loop volume a in
      activeSounds a' = [List.length (sounds a)] /\
      nth_error (sounds a') (List.length (sounds a))
      = Some {| buffer := buf; loop := loop; volume := volume; isPlaying := true |} /\
      (forall r s, In r (activeSounds a) -> nth_error (sounds a) r = Some s ->
                   exists s', nth_error (sounds a') r = Some s' /\ isPlaying s' = false)) /\
  (forall a index loop volume,
      nth_error (soundBuffers a) index = None \/ nth_error (soundBuffers a) index = Some None ->
      AudioM.playAudio index loop volume a = a) /\
  (forall buffers calls,
      let a := fold_left audioCall calls (AudioM.create buffers) in
      (List.length (activeSounds a) <= 1)%nat /\ (List.length (playing a) <= 1)%nat).
Proof.
  split; [ | split ].
  - intros a index loop volume buf Hbuf a'. subst a'.
    unfold AudioM.playAudio. rewrite Hbuf. cbn [activeSounds sounds].
    rewrite stopAll_sounds_length.
    split; [ reflexivity | ]. split.
    + rewrite nth_error_app2 by (rewrite stopAll_sounds_length; lia).
      rewrite stopAll_sounds_length, Nat.sub_diag. reflexivity.
    + intros r s Hin Hs.
      destruct (fold_stop_nth (activeSounds a) (sounds a) r s Hs) as (s' & Hs' & Hp).
      exists s'. split; [ | apply Hp; left; exact Hin ].
      rewrite nth_error_app1; [ exact Hs' | ].
      rewrite stopAll_sounds_length. apply nth_error_Some. congruence.
  - intros a index loop volume [H | H]; unfold AudioM.playAudio; rewrite H; reflexivity.
  - intros buffers calls a. subst a. apply tidy_at_most_one, calls_tidy.
    left. split; reflexivity.
Qed.

Lemma C10_witness :
  let a := AudioM.playAudio 0 true (1 # 2) (AudioM.create [Some "intro.mp3"]) in
  let a' := AudioM.playAudio 0 false (1 # 2) a in
  activeSounds a' = [1%nat] /\
  nth_error (sounds a') 1
  = Some {| buffer := "intro.mp3"; loop := false; volume := 1 # 2; isPlaying := true |}.
Proof.
  cbv zeta.
  destruct (proj1 C10_at_most_one_active_sound
              (AudioM.playAudio 0 true (1 # 2) (AudioM.create [Some "intro.mp3"]))
              0%nat false (1 # 2)%Q "intro.mp3" eq_refl) as (H1 & H2 & _).
  split; [ exact H1 | exact H2 ].
Defined.

(** ** Further properties of the UI and the loader *)

Lemma nth_error_head_update {A} (f : A -> A) (l : list A) i :
  nth_error (match l with a :: rest => f a :: rest | [] => [] end) i
  = option_map (fun a => if (i =? 0)%nat then f a else a) (nth_error l i).
Proof.
  destruct l as [ | a rest]; destruct i; cbn; try reflexivity.
  destruct (nth_error rest i); reflexivity.
Qed.

(** X1. [updateToggleButtons] with a list of descriptors shows one button
    per descriptor, as far as there are buttons, with the descriptor's
    name and id, the first one selected and no other; it hides every
    button beyond the list and leaves its text, id and selection alone;
    the label is shown exactly when the list is not empty. With [null] it
    hides the label and every button and changes nothing else of them. *)
Theorem updateToggleButtons_spec :
  forall (u : UIManager),
    (forall bs,
        let u' := UI.updateToggleButtons (Some bs) u in
        List.length (modelToggleButtons u') = List.length (modelToggleButtons u) /\
        modelLabelEl u' = (if (0 <? List.length bs)%nat then display_block else display_none) /\
        (forall i btn,
            nth_error (modelToggleButtons u) i = Some btn ->
            nth_error (modelToggleButtons u') i
            = Some (match nth_error bs i with
                    | Some config => buttonFor config (i =? 0)%nat
                    | None => buttonHidden btn
                    end))) /\
    (let u' := UI.updateToggleButtons None u in
     modelLabelEl u' = display_none /\
     modelToggleButtons u' = map buttonHidden (modelToggleButtons u)).
Proof.
  intros u. split.
  - intros bs u'. subst u'. unfold UI.updateToggleButtons. cbv zeta.
    cbn [modelToggleButtons modelLabelEl UI.set_toggles].
    split; [ | split; [ reflexivity | ] ].
    + destruct (0 <? List.length bs)%nat.
      * pose proof (forEach_index_length
                      (fun (btn : ToggleButton) (index : nat) =>
                         match nth_error bs index with
                         | Some config =>
                             {| textContent := btn_name config;
                                dataset_id := Some (btn_id config);
                                btn_display := display_block; selected := false |}
                         | None =>
                             {| textContent := textContent btn;
                                dataset_id := dataset_id btn;
                                btn_display := display_none; selected := selected btn |}
                         end) (modelToggleButtons u) 0) as Hlen.
        destruct (forEach_index _ (modelToggleButtons u) 0); cbn in *; exact Hlen.
      * apply forEach_index_length.
    + intros i btn Hbtn.
      destruct (0 <? List.length bs)%nat eqn:Hn.
      * rewrite (nth_error_head_update
                   (fun b0 => {| textContent := textContent b0; dataset_id := dataset_id b0;
                                 btn_display := btn_display b0; selected := true |})).
        rewrite forEach_index_nth, Hbtn. cbn [option_map Nat.add].
        destruct i as [ | i]; cbn [Nat.eqb].
        -- destruct bs as [ | config bs]; [ discriminate Hn | reflexivity ].
        -- destruct (nth_error bs (S i)); reflexivity.
      * rewrite forEach_index_nth, Hbtn. cbn [option_map Nat.add].
        destruct bs as [ | config bs]; [ | discriminate Hn ].
        destruct i; reflexivity.
  - cbv zeta. unfold UI.updateToggleButtons. cbv zeta.
    cbn [modelToggleButtons modelLabelEl UI.set_toggles Nat.ltb Nat.leb List.length].
    split; [ reflexivity | ].
    apply nth_error_ext. intros i. rewrite forEach_index_nth, nth_error_map.
    destruct (nth_error (modelToggleButtons u) i); reflexivity.
Qed.

Lemma filter_marked (index : Z) (l : list ToggleButton) : forall k,
  List.length (filter selected
    (forEach_index (fun btn i => buttonMarked btn (Z.of_nat i =? index)) l k))
  = if (Z.of_nat k <=? index) && (index <? Z.of_nat k + Z.of_nat (List.length l))
    then 1%nat else 0%nat.
Proof.
  induction l as [ | b l IH]; intros k.
  - cbn [forEach_index filter List.length].
    destruct (Z.leb_spec (Z.of_nat k) index), (Z.ltb_spec index (Z.of_nat k + Z.of_nat 0));
      cbn; try reflexivity; lia.
  - cbn [forEach_index filter buttonMarked selected List.length].
    destruct (Z.eqb_spec (Z.of_nat k) index) as [E | N];
      cbn [List.length]; rewrite IH;
      repeat match goal with
        | |- context [ Z.leb ?a ?b ] => destruct (Z.leb_spec a b)
        | |- context [ Z.ltb ?a ?b ] => destruct (Z.ltb_spec a b)
        end; cbn [andb]; try reflexivity; lia.
Qed.

(** X2. [selectToggleButton] touches nothing but the [selected] class of
    the buttons: button i ends selected exactly when i is the index, so
    one button is selected for an index inside the row and none for any
    other index, negative ones included. *)
Theorem selectToggleButton_spec :
  forall (index : Z) (u : UIManager),
    let u' := UI.selectToggleButton index u in
    (forall i btn,
        nth_error (modelToggleButtons u) i = Some btn ->
        nth_error (modelToggleButtons u') i
        = Some (buttonMarked btn (Z.of_nat i =? index))) /\
    List.length (filter selected (modelToggleButtons u'))
    = (if (0 <=? index) && (index <? Z.of_nat (List.length (modelToggleButtons u)))
       then 1%nat else 0%nat) /\
    u' = UI.set_toggles (modelLabelEl u) (modelToggleButtons u') u.
Proof.
  intros index u u'. subst u'. unfold UI.selectToggleButton.
  cbn [modelToggleButtons UI.set_toggles].
  split; [ | split; [ | reflexivity ] ].
  - intros i btn Hbtn. rewrite forEach_index_nth, Hbtn. reflexivity.
  - apply (filter_marked index (modelToggleButtons u) 0).
Qed.

Lemma setFirst_absent id v l :
  find (Loader.has_id id) l = None -> Loader.setFirst id v l = l.
Proof.
  induction l as [ | m l IH]; [ reflexivity | ].
  cbn [find Loader.setFirst]. destruct (Loader.has_id id m); [ discriminate | ].
  intros H. rewrite (IH H). reflexivity.
Qed.

Lemma has_id_setVisible id v m : Loader.has_id id (Loader.setVisible v m) = Loader.has_id id m.
Proof. reflexivity. Qed.

Lemma find_setFirst_same id v l :
  find (Loader.has_id id) (Loader.setFirst id v l)
  = option_map (Loader.setVisible v) (find (Loader.has_id id) l).
Proof.
  induction l as [ | m l IH]; [ reflexivity | ].
  cbn [find Loader.setFirst]. destruct (Loader.has_id id m) eqn:E.
  - cbn [find]. rewrite has_id_setVisible, E. reflexivity.
  - cbn [find]. rewrite E. exact IH.
Qed.

Lemma has_id_other id id' m :
  id <> id' -> Loader.has_id id m = true -> Loader.has_id id' m = false.
Proof.
  unfold Loader.has_id. destruct (userData_id (scene m)) as [i | ]; [ | discriminate ].
  intros Hne Hi. apply String.eqb_eq in Hi. subst i.
  apply String.eqb_neq. exact Hne.
Qed.

Lemma find_setFirst_other id id' v l :
  id <> id' ->
  option_map (fun m => visible (scene m)) (find (Loader.has_id id') (Loader.setFirst id v l))
  = option_map (fun m => visible (scene m)) (find (Loader.has_id id') l).
Proof.
  intros Hne. induction l as [ | m l IH]; [ reflexivity | ].
  cbn [Loader.setFirst]. destruct (Loader.has_id id m) eqn:E.
  - cbn [find]. rewrite has_id_setVisible, (has_id_other id id' m Hne E). reflexivity.
  - cbn [find]. destruct (Loader.has_id id' m); [ reflexivity | exact IH ].
Qed.

(** X3. [setModelVisibility] for an id no loaded model carries changes
    nothing (the code only warns); for an id some model carries, the model
    it would find again is the same one with the new visibility, the
    visibility read through any other id is as before, and neither the
    assets loaded nor the colliders change. *)
Theorem setModelVisibility_spec :
  forall (id : string) (v : bool) (ml : ModelLoader),
    (visibleOf id ml = None -> Loader.setModelVisibility id v ml = ml) /\
    (visibleOf id ml <> None -> visibleOf id (Loader.setModelVisibility id v ml) = Some v) /\
    (forall id', id <> id' ->
                 visibleOf id' (Loader.setModelVisibility id v ml) = visibleOf id' ml) /\
    assets (Loader.setModelVisibility id v ml) = assets ml /\
    colliderMeshes (Loader.setModelVisibility id v ml) = colliderMeshes ml.
Proof.
  intros id v ml. unfold visibleOf, Loader.setModelVisibility. cbn [loadedModels colliderMeshes].
  split; [ | split; [ | split; [ | split ] ] ].
  - intros H. destruct (find (Loader.has_id id) (loadedModels ml)) eqn:E; [ discriminate H | ].
    rewrite (setFirst_absent id v _ E). destruct ml; reflexivity.
  - intros H. rewrite find_setFirst_same.
    destruct (find (Loader.has_id id) (loadedModels ml)); [ reflexivity | ].
    exfalso. apply H. reflexivity.
  - intros id' Hne. apply find_setFirst_other. exact Hne.
  - apply setModelVisibility_assets.
  - reflexivity.
Qed.

Lemma setModelVisibility_witness :
  visibleOf "m3" (Loader.setModelVisibility "m3" true (modelLoader atStep2)) = Some true /\
  Loader.setModelVisibility "m9" true (modelLoader atStep2) = modelLoader atStep2.
Proof.
  split.
  - apply (proj1 (proj2 (setModelVisibility_spec "m3" true (modelLoader atStep2)))).
    vm_compute. discriminate.
  - apply (proj1 (setModelVisibility_spec "m9" true (modelLoader atStep2))).
    vm_compute. reflexivity.
Defined.

(** ** Further properties of [handleVariantClick] *)

Lemma scene4_positions :
  cameraPositions APP_CONFIG.scene4 <> None /\
  (forall cps, cameraPositions APP_CONFIG.scene4 = Some cps -> List.length cps = 6%nat).
Proof.
  split; [ discriminate | ]. intros cps H. injection H as <-. reflexivity.
Qed.

(** X4. In step 4, for an index that names one of the declared camera
    positions, [handleVariantClick] returns normally after one camera
    setup: a static perspective orbit at that position, looking at its
    target with its field of view, auto-rotate and pan off, zoom and
    rotate on; the panels are taken from the pair of templates of that
    index, the description reads "Camera: " and the button's text, the
    button of the index is the one selected, and the loader is untouched. *)
Theorem handleVariantClick_tour :
  forall (s : SequenceManager) (index : Z) (cps : list CameraPosition)
         (camPos : CameraPosition),
    currentScene s = 4 ->
    cameraPositions APP_CONFIG.scene4 = Some cps ->
    0 <= index ->
    nth_error cps (Z.to_nat index) = Some camPos ->
    let r := handleVariantClick index s in
    let picked := UI.selectToggleButton index (uiManager s) in
    let ids := nth (Z.to_nat index) scene4_panelIds ("", "") in
    fst r = Returned tt /\
    setups (cameraManager (snd r))
    = setups (cameraManager s) ++ [(tourConfig camPos, isVR s)] /\
    leftHtmlPanel (uiManager (snd r)) = UI.panelFrom (uiManager s) (Some (fst ids)) /\
    rightHtmlPanel (uiManager (snd r)) = UI.panelFrom (uiManager s) (Some (snd ids)) /\
    descriptionEl (uiManager (snd r))
    = {| text := String.append "Camera: " (buttonText (modelToggleButtons picked) index);
         text_display := display_block |} /\
    modelToggleButtons (uiManager (snd r)) = modelToggleButtons picked /\
    modelLoader (snd r) = modelLoader s.
Proof.
  intros s index cps camPos Hcs Hcps H0 Hnth.
  assert (Hlen : Z.of_nat (List.length cps) = 6).
  { rewrite (proj2 scene4_positions cps Hcps). reflexivity. }
  assert (Hlt : (Z.to_nat index < List.length cps)%nat).
  { apply nth_error_Some. rewrite Hnth. discriminate. }
  destruct s as [cs ml cam aud u vr rl]. cbn [currentScene] in Hcs. subst cs.
  cbv zeta.
  unfold handleVariantClick, ui, loader, camera,
    Act.bind, Act.update, Act.get, Act.ret, Act.throw.
  cbn [currentScene with_ui APP_CONFIG.scenes fst snd].
  rewrite Hcps, Hlen.
  destruct (Z.ltb_spec index 6) as [Hi | Hi]; [ | lia ].
  assert (Hjs : js_index cps index = Some camPos).
  { unfold js_index. destruct (Z.ltb_spec index 0) as [Hn | _]; [ lia | exact Hnth ]. }
  rewrite Hjs.
  assert (Hids : js_index scene4_panelIds index
                 = Some (nth (Z.to_nat index) scene4_panelIds ("", ""))).
  { unfold js_index. destruct (Z.ltb_spec index 0) as [Hn | _]; [ lia | ].
    apply nth_error_nth'. cbn [List.length scene4_panelIds]. lia. }
  rewrite Hids.
  destruct (nth (Z.to_nat index) scene4_panelIds ("", "")) as [l r].
  cbn. repeat split.
Qed.

Lemma handleVariantClick_tour_witness :
  let s := snd (advance network_ok (fun rs => rs) 5
                  (start false APP_CONFIG.assets_sounds page_ok)) in
  fst (handleVariantClick 3 s) = Returned tt /\
  leftHtmlPanel (uiManager (snd (handleVariantClick 3 s)))
  = {| innerHTML := "html_scene4_cam4_left"; panel_display := display_block |}.
Proof.
  cbv zeta.
  destruct (handleVariantClick_tour
              (snd (advance network_ok (fun rs => rs) 5
                      (start false APP_CONFIG.assets_sounds page_ok)))
              3 _ _ eq_refl eq_refl ltac:(lia) eq_refl) as (H1 & _ & H3 & _).
  split; [ exact H1 | ]. rewrite H3. vm_compute. reflexivity.
Defined.

(** X5. The only guard of step 4 is [index < cameraPositions.length], so a
    negative index passes it, the read of the missing camera position
    throws, and the call ends with an error after it has cleared the
    selection of every toggle button; camera, panels and description are
    as before. *)
Theorem handleVariantClick_negative_index :
  forall (s : SequenceManager) (index : Z),
    currentScene s = 4 ->
    index < 0 ->
    (exists e, fst (handleVariantClick index s) = Thrown e) /\
    snd (handleVariantClick index s) = with_ui (UI.selectToggleButton index) s /\
    filter selected (modelToggleButtons (uiManager (snd (handleVariantClick index s)))) = [].
Proof.
  intros s index Hcs Hneg.
  destruct s as [cs ml cam aud u vr rl]. cbn [currentScene] in Hcs. subst cs.
  unfold handleVariantClick, ui, loader, camera,
    Act.bind, Act.update, Act.get, Act.ret, Act.throw.
  cbn [currentScene with_ui APP_CONFIG.scenes fst snd].
  destruct (cameraPositions APP_CONFIG.scene4) as [cps | ] eqn:Hcps;
    [ | exfalso; exact (proj1 scene4_positions Hcps) ].
  rewrite (proj2 scene4_positions cps Hcps).
  change (Z.of_nat 6) with 6.
  destruct (Z.ltb_spec index 6) as [_ | Hi]; [ | lia ].
  assert (Hjs : js_index cps index = None).
  { unfold js_index. destruct (Z.ltb_spec index 0) as [_ | Hn]; [ reflexivity | lia ]. }
  rewrite Hjs.
  cbn [fst snd]. split; [ eexists; reflexivity | ]. split; [ reflexivity | ].
  cbn [uiManager with_ui].
  pose proof (filter_marked index (modelToggleButtons u) 0) as Hcount.
  change (Z.of_nat 0) with 0 in Hcount.
  destruct (Z.leb_spec 0 index) as [Hp | _]; [ lia | ]. cbn [andb] in Hcount.
  apply length_zero_iff_nil. exact Hcount.
Qed.

Lemma handleVariantClick_negative_index_witness :
  exists e,
    fst (handleVariantClick (-1)
           (snd (advance network_ok (fun rs => rs) 5
                   (start false APP_CONFIG.assets_sounds page_ok)))) = Thrown e.
Proof.
  apply (proj1 (handleVariantClick_negative_index
                  (snd (advance network_ok (fun rs => rs) 5
                          (start false APP_CONFIG.assets_sounds page_ok)))
                  (-1) eq_refl ltac:(lia))).
Defined.

Lemma visibleOf_set id v id' ml :
  visibleOf id' (Loader.setModelVisibility id v ml)
  = if String.eqb id id' then option_map (fun _ => v) (visibleOf id' ml)
    else visibleOf id' ml.
Proof.
  destruct (String.eqb_spec id id') as [<- | Hne].
  - unfold visibleOf, Loader.setModelVisibility. cbn [loadedModels].
    rewrite find_setFirst_same.
    destruct (find (Loader.has_id id) (loadedModels ml)); reflexivity.
  - unfold visibleOf, Loader.setModelVisibility. cbn [loadedModels].
    apply find_setFirst_other. exact Hne.
Qed.

Lemma showView_visible first ml id :
  visibleOf id (showView first ml)
  = if String.eqb "m1" id || String.eqb "m4" id
    then option_map (fun _ => first) (visibleOf id ml)
    else if String.eqb "m3" id || String.eqb "m5" id
         then option_map (fun _ => negb first) (visibleOf id ml)
         else visibleOf id ml.
Proof.
  unfold showView. rewrite !visibleOf_set.
  destruct (String.eqb_spec "m1" id) as [<- | N1]; [ cbn; destruct (visibleOf _ ml); reflexivity | ].
  destruct (String.eqb_spec "m4" id) as [<- | N4]; [ cbn; destruct (visibleOf _ ml); reflexivity | ].
  destruct (String.eqb_spec "m3" id) as [<- | N3]; [ cbn; destruct (visibleOf _ ml); reflexivity | ].
  destruct (String.eqb_spec "m5" id) as [<- | N5]; [ cbn; destruct (visibleOf _ ml); reflexivity | ].
  reflexivity.
Qed.

Lemma setVisible_same v m : visible (scene m) = v -> Loader.setVisible v m = m.
Proof. destruct m as [[a i vis p r sc] mx]. cbn. intros ->. reflexivity. Qed.

Lemma setFirst_settled id v l :
  option_map (fun m => visible (scene m)) (find (Loader.has_id id) l) <> Some (negb v) ->
  Loader.setFirst id v l = l.
Proof.
  induction l as [ | m l IH]; [ reflexivity | ].
  cbn [find Loader.setFirst]. destruct (Loader.has_id id m).
  - cbn [option_map]. intros H. rewrite setVisible_same; [ reflexivity | ].
    destruct (visible (scene m)), v; cbn in H; try reflexivity; exfalso; apply H; reflexivity.
  - intros H. rewrite (IH H). reflexivity.
Qed.

Lemma setModelVisibility_settled id v ml :
  visibleOf id ml <> Some (negb v) -> Loader.setModelVisibility id v ml = ml.
Proof.
  intros H. unfold Loader.setModelVisibility.
  rewrite (setFirst_settled id v _ H). destruct ml; reflexivity.
Qed.

Lemma showView_twice first ml : showView first (showView first ml) = showView first ml.
Proof.
  set (ml' := showView first ml).
  assert (H : forall id v,
             visibleOf id ml' = option_map (fun _ => v) (visibleOf id ml) ->
             Loader.setModelVisibility id v ml' = ml').
  { intros id v Hv. apply setModelVisibility_settled. rewrite Hv.
    destruct (visibleOf id ml); cbn; [ destruct v; discriminate | discriminate ]. }
  unfold showView at 1. fold ml'.
  rewrite (H "m1" first); [ | subst ml'; rewrite showView_visible; reflexivity ].
  rewrite (H "m4" first); [ | subst ml'; rewrite showView_visible; reflexivity ].
  rewrite (H "m3" (negb first)); [ | subst ml'; rewrite showView_visible; reflexivity ].
  rewrite (H "m5" (negb first)); [ | subst ml'; rewrite showView_visible; reflexivity ].
  reflexivity.
Qed.

(** X6. In step 2 [handleVariantClick] returns normally for every index
    and splits the four models in two pairs: the models found under the
    ids m1 and m4 end visible exactly when the index is 0, those under m3
    and m5 exactly when it is not, a model under any other id keeps its
    visibility; the set of loaded assets and the camera do not change. *)
Theorem handleVariantClick_design_options :
  forall (s : SequenceManager) (index : Z),
    currentScene s = 2 ->
    let r := handleVariantClick index s in
    fst r = Returned tt /\
    modelLoader (snd r) = showView (index =? 0) (modelLoader s) /\
    (forall id,
        visibleOf id (modelLoader (snd r))
        = if String.eqb "m1" id || String.eqb "m4" id
          then option_map (fun _ => index =? 0) (visibleOf id (modelLoader s))
          else if String.eqb "m3" id || String.eqb "m5" id
               then option_map (fun _ => negb (index =? 0)) (visibleOf id (modelLoader s))
               else visibleOf id (modelLoader s)) /\
    assets (modelLoader (snd r)) = assets (modelLoader s) /\
    cameraManager (snd r) = cameraManager s.
Proof.
  intros s index Hcs. destruct s as [cs ml cam aud u vr rl].
  cbn [currentScene] in Hcs. subst cs. cbv zeta.
  assert (Hml : modelLoader (snd (handleVariantClick index
                  {| currentScene := 2; modelLoader := ml; cameraManager := cam;
                     audioManager := aud; uiManager := u; isVR := vr; reloads := rl |}))
                = showView (index =? 0) ml
                /\ fst (handleVariantClick index
                  {| currentScene := 2; modelLoader := ml; cameraManager := cam;
                     audioManager := aud; uiManager := u; isVR := vr; reloads := rl |})
                   = Returned tt
                /\ cameraManager (snd (handleVariantClick index
                  {| currentScene := 2; modelLoader := ml; cameraManager := cam;
                     audioManager := aud; uiManager := u; isVR := vr; reloads := rl |}))
                   = cam).
  { unfold handleVariantClick, ui, loader, camera,
      Act.bind, Act.update, Act.get, Act.ret, Act.throw.
    cbn [currentScene with_ui fst snd].
    destruct (index =? 0); [ | destruct (index =? 1) ]; cbn; repeat split. }
  destruct Hml as (Hml & Ho & Hc). rewrite Hml.
  cbn [modelLoader cameraManager].
  split; [ exact Ho | ]. split; [ reflexivity | ].
  split; [ intros id; apply showView_visible | ].
  split; [ | exact Hc ].
  unfold showView. rewrite !setModelVisibility_assets. reflexivity.
Qed.

Lemma handleVariantClick_design_options_witness :
  visibleOf "m3" (modelLoader (snd (handleVariantClick 1 atStep2))) = Some true /\
  visibleOf "m1" (modelLoader (snd (handleVariantClick 1 atStep2))) = Some false.
Proof.
  destruct (handleVariantClick_design_options atStep2 1 eq_refl) as (_ & _ & Hv & _).
  split.
  - rewrite (Hv "m3"). vm_compute. reflexivity.
  - rewrite (Hv "m1"). vm_compute. reflexivity.
Defined.

Lemma mark_twice index l : forall k,
  forEach_index
    (fun (btn : ToggleButton) (i : nat) =>
       {| textContent := textContent btn; dataset_id := dataset_id btn;
          btn_display := btn_display btn; selected := (Z.of_nat i =? index) |})
    (forEach_index
       (fun (btn : ToggleButton) (i : nat) =>
          {| textContent := textContent btn; dataset_id := dataset_id btn;
             btn_display := btn_display btn; selected := (Z.of_nat i =? index) |})
       l k) k
  = forEach_index
      (fun (btn : ToggleButton) (i : nat) =>
         {| textContent := textContent btn; dataset_id := dataset_id btn;
            btn_display := btn_display btn; selected := (Z.of_nat i =? index) |})
      l k.
Proof.
  induction l as [ | b l IH]; intros k; [ reflexivity | ].
  cbn [forEach_index]. rewrite IH. reflexivity.
Qed.

(** X7. A second [handleVariantClick] with the same index changes nothing
    the first has not already set: the outcome is the same and so is the
    state, but for step 4, where the camera is set up a second time with
    the configuration it was set up with the first time. *)
Theorem handleVariantClick_twice :
  forall (s : SequenceManager) (index : Z),
    let r1 := handleVariantClick index s in
    let r2 := handleVariantClick index (snd r1) in
    fst r2 = fst r1 /\
    besidesCameraLog (snd r2) = besidesCameraLog (snd r1) /\
    (currentScene s <> 4 -> snd r2 = snd r1) /\
    (forall d, last (setups (cameraManager (snd r2))) d
               = last (setups (cameraManager (snd r1))) d).
Proof.
  intros s index. destruct s as [cs ml cam aud u vr rl]. cbv zeta.
  unfold besidesCameraLog, handleVariantClick, ui, UI.selectToggleButton.
  set (mark := fun (btn : ToggleButton) (i : nat) =>
                 {| textContent := textContent btn; dataset_id := dataset_id btn;
                    btn_display := btn_display btn; selected := (Z.of_nat i =? index) |}).
  assert (Hmark : forall l k,
             forEach_index mark (forEach_index mark l k) k = forEach_index mark l k)
    by (intros l k; apply mark_twice).
  clearbody mark.
  z_small cs;
    match goal with
    | |- context [Build_SequenceManager ?c] =>
        lazymatch c with
        | 1 => z_small index
        | 2 => z_small index
        | 4 => z_small index
        | _ => idtac
        end
    end.
  all: lazy -[forEach_index Loader.setModelVisibility String.append last app buttonText].
  all: rewrite ?Hmark.
  all: repeat match goal with
         | |- context [ Loader.setModelVisibility "m5" ?b
                          (Loader.setModelVisibility "m3" ?b
                             (Loader.setModelVisibility "m4" ?a
                                (Loader.setModelVisibility "m1" ?a ?m))) ] =>
             change (Loader.setModelVisibility "m5" b
                       (Loader.setModelVisibility "m3" b
                          (Loader.setModelVisibility "m4" a
                             (Loader.setModelVisibility "m1" a m))))
               with (showView a m)
         end.
  all: rewrite ?showView_twice.
  all: repeat split; intros; try congruence; try reflexivity.
  all: rewrite ?last_last; reflexivity.
Qed.

(** ** Batches of loads that fail in part *)

Lemma arrived_all network rs :
  forallb (loads network) rs = true -> arrived network rs = rs.
Proof.
  induction rs as [ | r rs IH]; [ reflexivity | ].
  cbn [forallb arrived]. intros H. apply andb_true_iff in H. destruct H as [Hr Hrs].
  rewrite Hr, (IH Hrs). reflexivity.
Qed.

Lemma arrived_loads network rs : forallb (loads network) (arrived network rs) = true.
Proof.
  induction rs as [ | r rs IH]; [ reflexivity | ].
  cbn [arrived]. destruct (loads network r) eqn:Hr; [ | reflexivity ].
  cbn [forallb]. rewrite Hr, IH. reflexivity.
Qed.

Lemma arrived_incl network rs : incl (arrived network rs) rs.
Proof.
  induction rs as [ | r rs IH]; [ intros x [] | ].
  cbn [arrived]. destruct (loads network r); [ | intros x [] ].
  intros x [<- | Hx]; [ left; reflexivity | right; apply IH; exact Hx ].
Qed.

Section PartialBatches.
Variable network : string -> Fetch.
Variable arrival : list Request -> list Request.

Lemma settleOne_colliderMeshes r ml :
  snd (settleOne network r ml) = None ->
  colliderMeshes (fst (settleOne network r ml))
  = colliderMeshes ml ++ collidersOf network r.
Proof.
  unfold settleOne, collidersOf.
  destruct r as [url config | url]; cbn [req_url];
    destruct (network url) as [g | e]; cbn; intros H; try discriminate H;
    rewrite ?app_nil_r; reflexivity.
Qed.

Lemma settle_partial rs : forall ml,
  assets (fst (settle network rs ml)) = assets ml ++ map req_url (arrived network rs) /\
  colliderMeshes (fst (settle network rs ml))
  = colliderMeshes ml ++ flat_map (collidersOf network) (arrived network rs) /\
  (snd (settle network rs ml) = None <-> forallb (loads network) rs = true) /\
  (forall e, snd (settle network rs ml) = Some e ->
             exists q after,
               rs = arrived network rs ++ q :: after /\
               network (req_url q) = Rejected e).
Proof.
  induction rs as [ | r rs IH]; intros ml.
  - cbn. rewrite !app_nil_r. repeat split; intros; discriminate.
  - rewrite settle_cons. cbn [arrived forallb].
    pose proof (settleOne_assets network r ml) as H1.
    pose proof (settleOne_colliderMeshes r ml) as H2.
    destruct (snd (settleOne network r ml)) as [e | ] eqn:He.
    + destruct H1 as [H1 Hn].
      assert (Hl : loads network r = false) by (unfold loads; rewrite Hn; reflexivity).
      rewrite Hl. cbn [fst snd andb map flat_map]. rewrite H1, !app_nil_r.
      split; [ reflexivity | ]. split; [ reflexivity | ].
      split; [ split; discriminate | ].
      intros e' He'. injection He' as <-. exists r, rs. split; [ reflexivity | exact Hn ].
    + assert (Hl : loads network r = true).
      { unfold settleOne in He. unfold loads.
        destruct (network (req_url r)) as [g | e]; [ reflexivity | discriminate ]. }
      rewrite Hl. cbn [andb map flat_map].
      destruct (IH (fst (settleOne network r ml))) as (IHa & IHc & IHn & IHe).
      split; [ rewrite IHa, H1, <- app_assoc; reflexivity | ].
      split; [ rewrite IHc, (H2 eq_refl), <- app_assoc; reflexivity | ].
      split; [ exact IHn | ].
      intros e He'. destruct (IHe e He') as (q & after & Hrs & Hq).
      exists q, after. split; [ | exact Hq ].
      cbn [app]. rewrite <- Hrs. reflexivity.
Qed.

Lemma awaitAll_settled :
  forall (rs : list Request) (s : SequenceManager),
    let r := awaitAll network arrival rs s in
    let batch := arrival rs in
    assets (modelLoader (snd r))
    = assets (modelLoader s) ++ map req_url (arrived network batch) /\
    requested (modelLoader (snd r)) = requested (modelLoader s) ++ map req_url rs /\
    (fst r = Returned tt <-> forallb (loads network) batch = true) /\
    (fst r = Returned tt -> arrived network batch = batch) /\
    (forall e, fst r = Thrown e ->
               exists q after,
                 batch = arrived network batch ++ q :: after /\
                 network (req_url q) = Rejected e) /\
    snd r = with_loader (fun _ => modelLoader (snd r)) s.
Proof.
  intros rs s. cbv zeta. rewrite awaitAll_run. cbn [fst snd].
  destruct (settle_partial (arrival rs) (issue rs (modelLoader s)))
    as (Ha & _ & Hn & He).
  assert (Hret : (match snd (settle network (arrival rs) (issue rs (modelLoader s))) with
                  | Some e => Thrown e
                  | None => Returned tt
                  end = Returned tt)
                 <-> forallb (loads network) (arrival rs) = true).
  { rewrite <- Hn.
    destruct (snd (settle network (arrival rs) (issue rs (modelLoader s))));
      split; intros; try reflexivity; discriminate. }
  split; [ destruct s as [cs ml cam aud u vr rl]; cbn [modelLoader with_loader] in *;
           rewrite Ha, issue_assets; reflexivity | ].
  split; [ destruct s as [cs ml cam aud u vr rl]; cbn [modelLoader with_loader] in *;
           rewrite settle_requested; apply issue_requested | ].
  split; [ exact Hret | ].
  split; [ intros H; apply arrived_all, Hret, H | ].
  split.
  { intros e H. apply He.
    destruct (snd (settle network (arrival rs) (issue rs (modelLoader s))));
      [ injection H as ->; reflexivity | discriminate ]. }
  destruct s as [cs ml cam aud u vr rl]; reflexivity.
Qed.

(** X8. A batch of loads awaited together adds the models of the
    requests that are answered before the first rejection, in the order
    the answers arrive. It resolves exactly when every request is
    answered, and then every model of the batch has been added;
    otherwise it throws the error of the first rejection to arrive, and
    what would arrive after it has added nothing when the call throws.
    Every URL of the batch has been requested, and nothing but the
    loader changes. *)
Theorem awaitAll_partial :
  forall (rs : list Request) (s : SequenceManager),
    let r := awaitAll network arrival rs s in
    let batch := arrival rs in
    assets (modelLoader (snd r))
    = assets (modelLoader s) ++ map req_url (arrived network batch) /\
    requested (modelLoader (snd r)) = requested (modelLoader s) ++ map req_url rs /\
    (fst r = Returned tt <-> forallb (loads network) batch = true) /\
    (fst r = Returned tt -> arrived network batch = batch) /\
    (forall e, fst r = Thrown e ->
               exists q after,
                 batch = arrived network batch ++ q :: after /\
                 network (req_url q) = Rejected e) /\
    snd r = with_loader (fun _ => modelLoader (snd r)) s.
Proof. exact awaitAll_settled. Qed.
End PartialBatches.

Lemma forallb_permutation {A} (f : A -> bool) (l l' : list A) :
  Permutation l l' -> forallb f l = forallb f l'.
Proof.
  induction 1 as [ | x l l' _ IH | x y l | l l' l'' _ IH1 _ IH2 ]; cbn.
  - reflexivity.
  - rewrite IH. reflexivity.
  - destruct (f x), (f y); reflexivity.
  - congruence.
Qed.

(** X9. Whether a batch resolves does not depend on the order in which
    its loads end: it resolves exactly when the network answers every
    request, and then the models added are those of the batch, in the
    order of arrival. When it throws, the order decides what has been
    added: the models present are among the answered requests, and the
    error is that of a rejected request of the batch. *)
Theorem awaitAll_any_order :
  forall (network : string -> Fetch) (arrival : list Request -> list Request)
         (rs : list Request) (s : SequenceManager),
    Permutation (arrival rs) rs ->
    let r := awaitAll network arrival rs s in
    (fst r = Returned tt <-> forall q, In q rs -> exists g, network (req_url q) = Loaded g) /\
    (exists added,
        assets (modelLoader (snd r)) = assets (modelLoader s) ++ map req_url added /\
        (fst r = Returned tt -> Permutation added rs) /\
        (forall q, In q added -> In q rs /\ loads network q = true)) /\
    (forall e, fst r = Thrown e -> exists q, In q rs /\ network (req_url q) = Rejected e).
Proof.
  intros network arrival rs s Hperm. cbv zeta.
  destruct (awaitAll_settled network arrival rs s) as (Ha & _ & Hr & Hall & He & _).
  cbv zeta in Ha, Hr, Hall, He.
  split; [ | split ].
  - rewrite Hr, (forallb_permutation _ _ _ Hperm), forallb_forall.
    split; intros H q Hq; specialize (H q Hq); unfold loads in *;
      destruct (network (req_url q)) as [g | e].
    + exists g; reflexivity.
    + discriminate.
    + reflexivity.
    + destruct H as [g Hg]; discriminate.
  - exists (arrived network (arrival rs)). split; [ exact Ha | ]. split.
    + intros H. rewrite (Hall H). exact Hperm.
    + intros q Hq. split.
      * apply (Permutation_in _ Hperm). apply (arrived_incl network _ q Hq).
      * pose proof (arrived_loads network (arrival rs)) as Hl.
        rewrite forallb_forall in Hl. apply Hl. exact Hq.
  - intros e H. destruct (He e H) as (q & after & Hb & Hq).
    exists q. split; [ | exact Hq ].
    apply (Permutation_in _ Hperm). rewrite Hb. apply in_or_app. right. left. reflexivity.
Qed.

Lemma awaitAll_any_order_witness :
  fst (awaitAll network_ok (@rev Request) (stepRequests 5)
         (start false APP_CONFIG.assets_sounds page_ok)) = Returned tt.
Proof.
  apply (proj1 (awaitAll_any_order network_ok (@rev Request) (stepRequests 5)
                  (start false APP_CONFIG.assets_sounds page_ok)
                  (Permutation_sym (Permutation_rev (stepRequests 5))))).
  intros q _. eexists. reflexivity.
Defined.

(** ** Loading the sounds *)

Lemma setIndex_length {B} index (v : option B) arr :
  List.length (setIndex index v arr) = Nat.max (List.length arr) (S index).
Proof.
  unfold setIndex. destruct (Nat.ltb_spec index (List.length arr)) as [H | H].
  - rewrite length_app. cbn [List.length]. rewrite length_firstn, length_skipn. lia.
  - rewrite !length_app, repeat_length. cbn [List.length]. lia.
Qed.

Lemma setIndex_nth {B} index (v : option B) arr j :
  nth j (setIndex index v arr) None = if (j =? index)%nat then v else nth j arr None.
Proof.
  unfold setIndex. destruct (Nat.ltb_spec index (List.length arr)) as [H | H].
  - destruct (Nat.eqb_spec j index) as [-> | Hne].
    + rewrite app_nth2; rewrite length_firstn; [ | lia ].
      replace (index - Nat.min index (List.length arr))%nat with 0%nat by lia. reflexivity.
    + destruct (Nat.lt_ge_cases j index) as [Hlt | Hge].
      * rewrite app_nth1; [ | rewrite length_firstn; lia ].
        rewrite <- (firstn_skipn index arr) at 2.
        rewrite app_nth1; [ reflexivity | rewrite length_firstn; lia ].
      * rewrite app_nth2; rewrite length_firstn; [ | lia ].
        replace (Nat.min index (List.length arr)) with index by lia.
        destruct (j - index)%nat as [ | d] eqn:Hd; [ lia | ]. cbn [nth].
        rewrite <- (firstn_skipn (S index) arr) at 2.
        rewrite app_nth2; rewrite length_firstn; [ | lia ].
        f_equal. lia.
  - destruct (Nat.eqb_spec j index) as [-> | Hne].
    + rewrite app_nth2; [ | lia ]. rewrite app_nth2; rewrite repeat_length; [ | lia ].
      replace (index - List.length arr - (index - List.length arr))%nat with 0%nat by lia.
      reflexivity.
    + destruct (Nat.lt_ge_cases j (List.length arr)) as [Hlt | Hge].
      * rewrite app_nth1; [ reflexivity | lia ].
      * rewrite app_nth2; [ | lia ]. rewrite (nth_overflow arr); [ | lia ].
        destruct (Nat.lt_ge_cases (j - List.length arr) (index - List.length arr)) as [Hl | Hg].
        -- rewrite app_nth1; [ | rewrite repeat_length; lia ]. apply nth_repeat.
        -- rewrite app_nth2; rewrite repeat_length; [ | lia ].
           destruct (j - List.length arr - (index - List.length arr))%nat as [ | d] eqn:Hd;
             [ lia | ]. cbn [nth]. destruct d; reflexivity.
Qed.

Section Sounds.
Variable audioNetwork : string -> option AudioBuffer.
Variable soundUrls : list string.

Lemma nulls_fold (l : list nat) : forall a,
  let a' := fold_left
              (fun a index =>
                 if String.eqb (nth index soundUrls "") ""
                 then set_soundBuffers (setIndex index None (soundBuffers a)) a
                 else a) l a in
  sounds a' = sounds a /\ activeSounds a' = activeSounds a /\
  (forall j, nth j (soundBuffers a') None
             = if existsb (fun i => (i =? j)%nat && String.eqb (nth i soundUrls "") "") l
               then None else nth j (soundBuffers a) None) /\
  List.length (soundBuffers a')
  = fold_left (fun n i => if String.eqb (nth i soundUrls "") "" then Nat.max n (S i) else n)
      l (List.length (soundBuffers a)).
Proof.
  induction l as [ | i l IH]; intros a; cbv zeta.
  - cbn. repeat split.
  - cbn [fold_left existsb].
    match goal with |- context [fold_left ?f l ?a1] =>
      destruct (IH a1) as (IHs & IHa & IHn & IHl) end.
    cbv zeta in IHs, IHa, IHn, IHl.
    rewrite IHs, IHa, IHl. split; [ | split; [ | split ] ].
    + destruct (String.eqb (nth i soundUrls "") ""); reflexivity.
    + destruct (String.eqb (nth i soundUrls "") ""); reflexivity.
    + intros j. rewrite IHn.
      destruct (String.eqb (nth i soundUrls "") "") eqn:E; cbn [soundBuffers set_soundBuffers andb orb].
      * rewrite setIndex_nth, Nat.eqb_sym.
        destruct (i =? j)%nat; cbn [andb orb]; [ | reflexivity ].
        destruct (existsb _ l); reflexivity.
      * rewrite andb_false_r. reflexivity.
    + destruct (String.eqb (nth i soundUrls "") ""); cbn [soundBuffers set_soundBuffers];
        [ rewrite setIndex_length | ]; reflexivity.
Qed.

Lemma loads_fold (l : list nat) : forall a,
  NoDup l ->
  let a' := fold_left
              (fun a index =>
                 set_soundBuffers
                   (setIndex index (audioNetwork (nth index soundUrls "")) (soundBuffers a)) a) l a in
  sounds a' = sounds a /\ activeSounds a' = activeSounds a /\
  (forall j, nth j (soundBuffers a') None
             = if existsb (Nat.eqb j) l then audioNetwork (nth j soundUrls "")
               else nth j (soundBuffers a) None) /\
  List.length (soundBuffers a')
  = fold_left (fun n i => Nat.max n (S i)) l (List.length (soundBuffers a)).
Proof.
  induction l as [ | i l IH]; intros a Hnd; cbv zeta.
  - cbn. repeat split.
  - cbn [fold_left existsb]. inversion Hnd as [ | ? ? Hni Hnd' ]; subst.
    match goal with |- context [fold_left ?f l ?a1] =>
      destruct (IH a1 Hnd') as (IHs & IHa & IHn & IHl) end.
    cbv zeta in IHs, IHa, IHn, IHl.
    rewrite IHs, IHa, IHl. cbn [soundBuffers set_soundBuffers sounds activeSounds].
    split; [ reflexivity | ]. split; [ reflexivity | ].
    split; [ | rewrite setIndex_length; reflexivity ].
    intros j. rewrite IHn. cbn [soundBuffers set_soundBuffers].
    rewrite setIndex_nth.
    destruct (Nat.eqb_spec j i) as [-> | Hne]; cbn [orb]; [ | reflexivity ].
    destruct (existsb (Nat.eqb i) l) eqn:E; [ | reflexivity ].
    reflexivity.
Qed.
End Sounds.

Lemma foldmax_spec (c : nat -> bool) (l : list nat) : forall n0,
  let m := fold_left (fun n i => if c i then Nat.max n (S i) else n) l n0 in
  (n0 <= m)%nat /\
  (forall i, In i l -> c i = true -> (S i <= m)%nat) /\
  (forall b, (n0 <= b)%nat -> (forall i, In i l -> (S i <= b)%nat) -> (m <= b)%nat).
Proof.
  induction l as [ | i l IH]; intros n0; cbv zeta.
  - cbn. repeat split; [ lia | intros i [] | intros; lia ].
  - cbn [fold_left].
    destruct (IH (if c i then Nat.max n0 (S i) else n0)) as (IH1 & IH2 & IH3).
    cbv zeta in IH1, IH2, IH3.
    split; [ | split ].
    + destruct (c i); lia.
    + intros j [<- | Hj] Hc; [ rewrite Hc in *; lia | exact (IH2 j Hj Hc) ].
    + intros b Hb Hall. apply IH3.
      * pose proof (Hall i (or_introl eq_refl)). destruct (c i); lia.
      * intros j Hj. apply Hall. right. exact Hj.
Qed.

(** X10. [loadAllSounds] is best effort and does not depend on the order
    in which the loads end: on a manager with no buffers yet it leaves
    one entry per URL, in the order of the URLs, the buffer of the URL
    where the loader delivered one and [null] where the URL is empty or
    its load failed; no sound is created or started. *)
Theorem loadAllSounds_spec :
  forall (audioNetwork : string -> option AudioBuffer) (arrival : list nat -> list nat)
         (soundUrls : list string) (a : AudioManager),
    soundBuffers a = [] ->
    (forall started, NoDup started -> Permutation (arrival started) started) ->
    let a' := loadAllSounds audioNetwork arrival soundUrls a in
    soundBuffers a' = map (bufferOf audioNetwork) soundUrls /\
    sounds a' = sounds a /\
    activeSounds a' = activeSounds a.
Proof.
  intros audioNetwork arrival soundUrls a Hfresh Harr. cbv zeta.
  unfold loadAllSounds. cbv zeta.
  set (indices := seq 0 (List.length soundUrls)).
  set (started := filter (fun index => negb (String.eqb (nth index soundUrls "") "")) indices).
  assert (Hnd : NoDup started) by (apply NoDup_filter, seq_NoDup).
  pose proof (Harr started Hnd) as Hperm.
  assert (Hnd' : NoDup (arrival started)).
  { apply (Permutation_NoDup (Permutation_sym Hperm) Hnd). }
  destruct (nulls_fold soundUrls indices a) as (N1 & N2 & N3 & N4).
  cbv zeta in N1, N2, N3, N4.
  match goal with |- context [fold_left ?f (arrival started) ?a1] =>
    destruct (loads_fold audioNetwork soundUrls (arrival started) a1 Hnd')
      as (L1 & L2 & L3 & L4) end.
  cbv zeta in L1, L2, L3, L4.
  split; [ | split; [ rewrite L1; exact N1 | rewrite L2; exact N2 ] ].
  assert (Hin : forall j, In j (arrival started)
                          <-> (j < List.length soundUrls)%nat /\ String.eqb (nth j soundUrls "") "" = false).
  { intros j. split.
    - intros Hj. apply (Permutation_in _ Hperm) in Hj.
      apply filter_In in Hj. destruct Hj as [Hj Hu]. apply in_seq in Hj.
      split; [ lia | ]. apply negb_true_iff. exact Hu.
    - intros [Hj Hu]. apply (Permutation_in _ (Permutation_sym Hperm)).
      apply filter_In. split; [ apply in_seq; lia | apply negb_true_iff; exact Hu ]. }
  apply (nth_ext _ _ None None).
  - rewrite length_map, L4, N4, Hfresh. cbn [List.length].
    destruct (foldmax_spec (fun i => String.eqb (nth i soundUrls "") "") indices 0%nat) as (A1 & A2 & A3).
    cbv zeta in A1, A2, A3.
    set (n1 := fold_left (fun n i => if String.eqb (nth i soundUrls "") "" then Nat.max n (S i) else n)
                 indices 0%nat) in *.
    destruct (foldmax_spec (fun _ => true) (arrival started) n1) as (B1 & B2 & B3).
    cbv zeta in B1, B2, B3.
    change (fold_left (fun n i => if true then Nat.max n (S i) else n) (arrival started) n1)
      with (fold_left (fun n i => Nat.max n (S i)) (arrival started) n1) in B1, B2, B3.
    apply Nat.le_antisymm.
    + apply B3.
      * apply A3; [ lia | ]. intros i Hi. apply in_seq in Hi. lia.
      * intros i Hi. apply Hin in Hi. lia.
    + destruct (List.length soundUrls) as [ | n] eqn:Hn; [ lia | ].
      destruct (String.eqb (nth n soundUrls "") "") eqn:Hu.
      * assert (Hi : In n indices) by (apply in_seq; lia).
        pose proof (A2 n Hi Hu). lia.
      * assert (Hi : In n (arrival started)) by (apply Hin; split; [ lia | exact Hu ]).
        apply (B2 n Hi eq_refl).
  - intros j _. rewrite L3, N3, Hfresh.
    transitivity (bufferOf audioNetwork (nth j soundUrls ""));
      [ | symmetry; apply (map_nth (bufferOf audioNetwork) soundUrls "" j) ].
    unfold bufferOf.
    destruct (existsb (Nat.eqb j) (arrival started)) eqn:E.
    + apply existsb_exists in E. destruct E as (i & Hi & Hji).
      apply Nat.eqb_eq in Hji. subst i. apply Hin in Hi. destruct Hi as [_ Hu].
      rewrite Hu. reflexivity.
    + assert (Hnone : (if existsb (fun i => (i =? j)%nat && String.eqb (nth i soundUrls "") "") indices
                       then None else nth j [] None) = @None AudioBuffer).
      { destruct (existsb _ indices); [ reflexivity | destruct j; reflexivity ]. }
      rewrite Hnone.
      destruct (String.eqb (nth j soundUrls "") "") eqn:Hu; [ reflexivity | ].
      destruct (Nat.lt_ge_cases j (List.length soundUrls)) as [Hlt | Hge].
      * assert (Hi : In j (arrival started)) by (apply Hin; split; assumption).
        assert (Ht : existsb (Nat.eqb j) (arrival started) = true).
        { apply existsb_exists. exists j. split; [ exact Hi | apply Nat.eqb_refl ]. }
        congruence.
      * rewrite nth_overflow in Hu; [ discriminate | lia ].
Qed.

Lemma loadAllSounds_spec_witness :
  soundBuffers
    (loadAllSounds (fun u => if String.eqb u "b.mp3" then None else Some u) (@rev nat)
       [ "a.mp3"; ""; "b.mp3"; "c.mp3" ] (AudioM.create []))
  = [ Some "a.mp3"; None; None; Some "c.mp3" ].
Proof.
  apply (proj1 (loadAllSounds_spec
                  (fun u => if String.eqb u "b.mp3" then None else Some u) (@rev nat)
                  [ "a.mp3"; ""; "b.mp3"; "c.mp3" ] (AudioM.create []) eq_refl
                  (fun started _ => Permutation_sym (Permutation_rev started)))).
Defined.

(** ** What a step leaves besides its models *)

Lemma loadScene_rest network arrival k config s1 :
  currentScene s1 = k ->
  APP_CONFIG.scenes k = Some config ->
  let b := stepBatch network arrival k (modelLoader s1) in
  let r := loadScene network arrival config s1 in
  (fst r = Returned tt ->
   audioManager (snd r) = AudioM.playAudio (Z.to_nat k) true (1 # 2)%Q (audioManager s1)) /\
  (k <> 1 -> colliderMeshes (modelLoader (snd r)) = colliderMeshes (fst b)) /\
  (forall e, fst r = Thrown e ->
             cameraManager (snd r) = cameraManager s1 /\
             audioManager (snd r) = audioManager s1 /\
             modelToggleButtons (uiManager (snd r)) = modelToggleButtons (uiManager s1) /\
             leftHtmlPanel (uiManager (snd r)) = leftHtmlPanel (uiManager s1) /\
             rightHtmlPanel (uiManager (snd r)) = rightHtmlPanel (uiManager s1) /\
             descriptionEl (uiManager (snd r)) = descriptionEl (uiManager s1)).
Proof.
  intros Hcs Hcfg. destruct s1 as [cs ml cam aud u vr rl]. cbn in Hcs. subst cs.
  unfold stepBatch.
  destruct (scenes_cases k config Hcfg)
    as [[-> ->] | [[-> ->] | [[-> ->] | [[-> ->] | [[-> ->] | [-> ->]]]]]];
    cbv zeta.
  - run_actions. cbn -[awaitAll]. rewrite awaitAll_run. cbn [modelLoader].
    destruct (settle network _ _) as [ml' [e | ]]; cbn;
      (split; [ try discriminate; intros _; reflexivity | ]);
      (split; [ intros _; reflexivity | ]); intros e' He'; try discriminate He';
      repeat split.
  - run_actions. cbn.
    split; [ intros _; reflexivity | ].
    split; [ intros N; exfalso; apply N; reflexivity | ]. intros e' He'; discriminate He'.
  - run_actions. cbn -[awaitAll]. rewrite awaitAll_run. cbn [modelLoader].
    destruct (settle network _ _) as [ml' [e | ]]; cbn;
      (split; [ try discriminate; intros _; reflexivity | ]);
      (split; [ intros _; reflexivity | ]); intros e' He'; try discriminate He';
      repeat split.
  - run_actions. cbn -[awaitAll]. rewrite awaitAll_run. cbn [modelLoader].
    destruct (settle network _ _) as [ml' [e | ]]; cbn;
      (split; [ try discriminate; intros _; reflexivity | ]);
      (split; [ intros _; reflexivity | ]); intros e' He'; try discriminate He';
      repeat split.
  - run_actions. cbn -[awaitAll]. rewrite awaitAll_run. cbn [modelLoader].
    destruct (settle network _ _) as [ml' [e | ]]; cbn;
      (split; [ try discriminate; intros _; reflexivity | ]);
      (split; [ intros _; reflexivity | ]); intros e' He'; try discriminate He';
      repeat split.
  - run_actions. cbn -[awaitAll]. rewrite awaitAll_run. cbn [modelLoader].
    destruct (settle network _ _) as [ml' [e | ]]; cbn;
      (split; [ try discriminate; intros _; reflexivity | ]);
      (split; [ intros _; reflexivity | ]); intros e' He'; try discriminate He';
      repeat split.
Qed.

Lemma prelude_rest s :
  cameraManager (prelude s) = cameraManager s /\
  audioManager (prelude s) = AudioM.stopAll (audioManager s) /\
  modelToggleButtons (uiManager (prelude s)) = modelToggleButtons (uiManager s) /\
  leftHtmlPanel (uiManager (prelude s)) = UI.panelFrom (uiManager s) None /\
  rightHtmlPanel (uiManager (prelude s)) = UI.panelFrom (uiManager s) None /\
  descriptionEl (uiManager (prelude s))
  = {| text := text (descriptionEl (uiManager s)); text_display := display_none |}.
Proof. destruct s as [cs ml cam aud u vr rl]. cbn. repeat split. Qed.

Lemma cleanup_rest s :
  modelToggleButtons (uiManager (cleanup s)) = modelToggleButtons (uiManager s) /\
  leftHtmlPanel (uiManager (cleanup s)) = leftHtmlPanel (uiManager s) /\
  rightHtmlPanel (uiManager (cleanup s)) = rightHtmlPanel (uiManager s) /\
  descriptionEl (uiManager (cleanup s)) = descriptionEl (uiManager s).
Proof.
  unfold cleanup. cbv zeta. cbn [isVR with_ui]. destruct (isVR s); cbn; repeat split.
Qed.

(** The run of a step of the catalog, with the state the load routine
    leaves made explicit. *)
Lemma runNextScene_through network arrival s k config :
  currentScene s + 1 = k ->
  APP_CONFIG.scenes k = Some config ->
  runNextScene network arrival s
  = (fst (loadScene network arrival config (prelude s)),
     cleanup (snd (loadScene network arrival config (prelude s)))).
Proof.
  intros Hk Hcfg. rewrite runNextScene_unfold. cbv zeta. rewrite Hk, Hcfg.
  destruct (loadScene network arrival config (prelude s)) as [o s2]. reflexivity.
Qed.

(** X11. When [runNextScene] throws, the step is left half done: the index
    has moved on, the camera is the one of the step before, nothing
    plays, the toggle buttons are still those of the step before, the
    panels are empty and the description hidden. The models of the step
    before are gone, and the loader holds the models of the failed batch
    that arrived before its first rejection and their collider meshes;
    the error is that of this first rejection, and the loads that would
    arrive after it have added nothing. *)
Theorem runNextScene_failed_step :
  forall (network : string -> Fetch) (arrival : list Request -> list Request)
         (s : SequenceManager) (e : Error),
    fst (runNextScene network arrival s) = Thrown e ->
    let r := runNextScene network arrival s in
    let batch := arrival (stepRequests (currentScene s + 1)) in
    currentScene (snd r) = currentScene s + 1 /\
    cameraManager (snd r) = cameraManager s /\
    audioManager (snd r) = AudioM.stopAll (audioManager s) /\
    modelToggleButtons (uiManager (snd r)) = modelToggleButtons (uiManager s) /\
    leftHtmlPanel (uiManager (snd r)) = UI.panelFrom (uiManager s) None /\
    rightHtmlPanel (uiManager (snd r)) = UI.panelFrom (uiManager s) None /\
    text_display (descriptionEl (uiManager (snd r))) = display_none /\
    assets (modelLoader (snd r)) = map req_url (arrived network batch) /\
    colliderMeshes (modelLoader (snd r))
    = flat_map (collidersOf network) (arrived network batch) /\
    (exists q after,
        batch = arrived network batch ++ q :: after /\
        network (req_url q) = Rejected e).
Proof.
  intros network arrival s e Hthrown. cbv zeta.
  split; [ apply runNextScene_currentScene | ].
  set (k := currentScene s + 1) in *.
  destruct (APP_CONFIG.scenes k) as [config | ] eqn:Hcfg.
  2:{ exfalso. rewrite runNextScene_unfold in Hthrown. cbv zeta in Hthrown.
      fold k in Hthrown. rewrite Hcfg in Hthrown.
      destruct (k =? 6); discriminate Hthrown. }
  rewrite (runNextScene_through network arrival s k config eq_refl Hcfg) in *.
  cbn [fst snd] in *.
  destruct (prelude_frame s) as (Hp1 & Hp2 & _).
  pose proof (loadScene_effect network arrival k config (prelude s) Hp1 Hcfg) as He.
  pose proof (loadScene_rest network arrival k config (prelude s) Hp1 Hcfg) as Hr.
  cbv zeta in He, Hr. unfold stepBatch in Hr. rewrite Hp2 in He, Hr.
  destruct He as (He1 & Hen). destruct Hr as (_ & Hcol & Hrf).
  destruct (Z.eq_dec k 1) as [E1 | N1].
  { destruct (He1 E1) as [Ho _]. congruence. }
  destruct (Hen N1) as (Ho & Ha & _).
  destruct (Hrf e Hthrown) as (Hc & Hau & Ht & Hl & Hrr & Hd).
  destruct (cleanup_frame (snd (loadScene network arrival config (prelude s))))
    as (_ & _ & Hcm & Hcc & Hca & _).
  destruct (cleanup_rest (snd (loadScene network arrival config (prelude s))))
    as (Hct & Hcl & Hcr & Hcd).
  destruct (prelude_rest s) as (P1 & P2 & P3 & P4 & P5 & P6).
  rewrite Hcc, Hca, Hct, Hcl, Hcr, Hcd, Hcm, Hc, Hau, Ht, Hl, Hrr, Hd, Ha, (Hcol N1).
  rewrite P1, P2, P3, P4, P5, P6.
  destruct (settle_partial network (arrival (stepRequests k))
              (issue (stepRequests k) (Loader.unloadAll (modelLoader s))))
    as (Sa & Sc & _ & Se).
  repeat split.
  - rewrite Sa, issue_assets. reflexivity.
  - rewrite Sc. reflexivity.
  - apply Se. rewrite Ho in Hthrown.
    destruct (snd (settle network (arrival (stepRequests k))
                     (issue (stepRequests k) (Loader.unloadAll (modelLoader s)))));
      [ injection Hthrown as ->; reflexivity | discriminate ].
Qed.

Lemma runNextScene_failed_step_witness :
  let s := snd (advance network_ok (fun rs => rs) 2
                  (start false APP_CONFIG.assets_sounds page_ok)) in
  let r := runNextScene network_without_kopuk (@rev Request) s in
  fst r = Thrown "404 Not Found" /\
  assets (modelLoader s) = [ APP_CONFIG.modelUrl 0; APP_CONFIG.modelUrl 4 ] /\
  assets (modelLoader (snd r)) = [].
Proof.
  cbv zeta. split; [ vm_compute; reflexivity | ]. split; [ vm_compute; reflexivity | ].
  destruct (runNextScene_failed_step network_without_kopuk (@rev Request)
              (snd (advance network_ok (fun rs => rs) 2
                      (start false APP_CONFIG.assets_sounds page_ok)))
              "404 Not Found" ltac:(vm_compute; reflexivity))
    as (_ & _ & _ & _ & _ & _ & _ & Ha & _).
  rewrite Ha. vm_compute. reflexivity.
Defined.

(** X12. A run of [runNextScene] that returns normally into a step of the
    catalog leaves the sound of that step, and only it, playing: looped,
    at half volume, from the buffer at the index of the step; when that
    buffer is missing the step is silent. *)
Theorem runNextScene_audio :
  forall (network : string -> Fetch) (arrival : list Request -> list Request)
         (s : SequenceManager),
    tidy (audioManager s) ->
    fst (runNextScene network arrival s) = Returned tt ->
    0 <= currentScene s + 1 <= 5 ->
    let r := runNextScene network arrival s in
    let index := Z.to_nat (currentScene s + 1) in
    audioManager (snd r)
    = AudioM.playAudio index true (1 # 2)%Q (AudioM.stopAll (audioManager s)) /\
    playing (audioManager (snd r))
    = match nth_error (soundBuffers (audioManager s)) index with
      | Some (Some buf) =>
          [ {| buffer := buf; loop := true; volume := (1 # 2)%Q; isPlaying := true |} ]
      | _ => []
      end /\
    tidy (audioManager (snd r)).
Proof.
  intros network arrival s Htidy Hret Hk. cbv zeta.
  set (k := currentScene s + 1) in *.
  assert (Hcfg : exists config, APP_CONFIG.scenes k = Some config).
  { assert (Hc : k = 0 \/ k = 1 \/ k = 2 \/ k = 3 \/ k = 4 \/ k = 5) by lia.
    destruct Hc as [E | [E | [E | [E | [E | E]]]]]; rewrite E; eexists; reflexivity. }
  destruct Hcfg as [config Hcfg].
  rewrite (runNextScene_through network arrival s k config eq_refl Hcfg) in *.
  cbn [fst snd] in *.
  destruct (prelude_frame s) as (Hp1 & _).
  destruct (loadScene_rest network arrival k config (prelude s) Hp1 Hcfg) as (Hau & _).
  destruct (cleanup_frame (snd (loadScene network arrival config (prelude s))))
    as (_ & _ & _ & _ & Hca & _).
  destruct (prelude_rest s) as (_ & P2 & _).
  rewrite Hca, (Hau Hret), P2.
  split; [ reflexivity | ].
  destruct (stopAll_tidy (audioManager s) Htidy) as [Ha Hp].
  assert (Ht1 : tidy (AudioM.stopAll (audioManager s))) by (left; split; assumption).
  split; [ | apply playAudio_tidy; exact Ht1 ].
  unfold AudioM.playAudio.
  change (soundBuffers (AudioM.stopAll (audioManager s))) with (soundBuffers (audioManager s)).
  destruct (nth_error (soundBuffers (audioManager s)) (Z.to_nat k)) as [[buf | ] | ];
    try exact Hp.
  destruct (stopAll_tidy _ Ht1) as [_ Hp2].
  unfold playing in *. cbn [sounds]. rewrite filter_app, Hp2. reflexivity.
Qed.

Lemma runNextScene_audio_witness :
  playing (audioManager
             (snd (runNextScene network_ok (fun rs => rs)
                     (start false [Some "intro.mp3"] page_ok))))
  = [ {| buffer := "intro.mp3"; loop := true; volume := (1 # 2)%Q; isPlaying := true |} ].
Proof.
  apply (proj1 (proj2 (runNextScene_audio network_ok (fun rs => rs)
                         (start false [Some "intro.mp3"] page_ok)
                         (or_introl (conj eq_refl eq_refl)) eq_refl
                         ltac:(cbn; lia)))).
Defined.

Lemma flat_map_nil {A B} (f : A -> list B) (l : list A) :
  (forall a, In a l -> f a = []) -> flat_map f l = [].
Proof.
  induction l as [ | a l IH]; intros H; [ reflexivity | ].
  cbn [flat_map]. rewrite (H a (or_introl eq_refl)), IH; [ reflexivity | ].
  intros b Hb. apply H. right. exact Hb.
Qed.

(** X13. Collider meshes exist in the walk step only, and come from the
    collider model alone. After a run into a step other than 1 the loader
    holds the collider meshes of the requests that arrived before the
    first rejection. So a run into step 0, 2, 3 or 4 leaves none, whether
    it succeeds or not; a run into step 5 that returns normally leaves
    exactly the meshes of the collider model, none of the visible model;
    one that throws leaves either none or, when the collider model had
    arrived before the rejection, those meshes. *)
Theorem runNextScene_colliders :
  forall (network : string -> Fetch) (arrival : list Request -> list Request)
         (s : SequenceManager),
    let k := currentScene s + 1 in
    let r := runNextScene network arrival s in
    let walkMeshes gltf := map (fun i => (APP_CONFIG.modelUrl 7, i)) (seq 0 (meshes gltf)) in
    Permutation (arrival (stepRequests k)) (stepRequests k) ->
    0 <= k <= 5 -> k <> 1 ->
    colliderMeshes (modelLoader (snd r))
    = flat_map (collidersOf network) (arrived network (arrival (stepRequests k))) /\
    (k <> 5 -> colliderMeshes (modelLoader (snd r)) = []) /\
    (k = 5 -> fst r = Returned tt ->
     exists gltf, network (APP_CONFIG.modelUrl 7) = Loaded gltf /\
                  colliderMeshes (modelLoader (snd r)) = walkMeshes gltf) /\
    (k = 5 ->
     colliderMeshes (modelLoader (snd r)) = [] \/
     exists gltf, network (APP_CONFIG.modelUrl 7) = Loaded gltf /\
                  colliderMeshes (modelLoader (snd r)) = walkMeshes gltf).
Proof.
  intros network arrival s k r walkMeshes Hperm Hk N1. subst r walkMeshes.
  assert (Hcfg : exists config, APP_CONFIG.scenes k = Some config).
  { assert (Hc : k = 0 \/ k = 1 \/ k = 2 \/ k = 3 \/ k = 4 \/ k = 5) by lia.
    destruct Hc as [E | [E | [E | [E | [E | E]]]]]; rewrite E; eexists; reflexivity. }
  destruct Hcfg as [config Hcfg].
  rewrite (runNextScene_through network arrival s k config eq_refl Hcfg).
  cbn [fst snd].
  destruct (prelude_frame s) as (Hp1 & Hp2 & _).
  pose proof (loadScene_effect network arrival k config (prelude s) Hp1 Hcfg) as He.
  cbv zeta in He. destruct He as (_ & Hen). destruct (Hen N1) as (Ho & _).
  destruct (loadScene_rest network arrival k config (prelude s) Hp1 Hcfg) as (_ & Hcol & _).
  destruct (cleanup_frame (snd (loadScene network arrival config (prelude s))))
    as (_ & _ & Hcm & _).
  rewrite Hcm, (Hcol N1), Ho. unfold stepBatch. rewrite Hp2.
  destruct (settle_partial network (arrival (stepRequests k))
              (issue (stepRequests k) (Loader.unloadAll (modelLoader s))))
    as (_ & Sc & Sn & _).
  rewrite Sc. cbn [colliderMeshes issue Loader.unloadAll app].
  split; [ reflexivity | ].
  assert (Hc : k = 0 \/ k = 2 \/ k = 3 \/ k = 4 \/ k = 5) by lia.
  split; [ | split ].
  - intros N5. apply flat_map_nil. intros q Hq.
    apply (arrived_incl network) in Hq. apply (Permutation_in _ Hperm) in Hq.
    destruct Hc as [E | [E | [E | [E | E]]]]; [ | | | | contradiction ];
      rewrite E in Hq; cbn in Hq;
      repeat (destruct Hq as [<- | Hq]; [ reflexivity | ]); destruct Hq.
  - intros E5 Hret. rewrite E5 in *.
    assert (Hall : forallb (loads network) (arrival (stepRequests 5)) = true).
    { apply Sn.
      destruct (snd (settle network (arrival (stepRequests 5))
                       (issue (stepRequests 5) (Loader.unloadAll (modelLoader s)))));
        [ discriminate Hret | reflexivity ]. }
    rewrite (arrived_all network _ Hall).
    assert (Hl7 : loads network (ReqCollider (APP_CONFIG.modelUrl 7)) = true).
    { rewrite forallb_forall in Hall. apply Hall.
      apply (Permutation_in _ (Permutation_sym Hperm)). right. left. reflexivity. }
    unfold loads in Hl7. cbn [req_url] in Hl7.
    destruct (network (APP_CONFIG.modelUrl 7)) as [g | e7] eqn:H7; [ | discriminate Hl7 ].
    exists g. split; [ reflexivity | ].
    apply Permutation_sym, Permutation_length_2_inv in Hperm.
    destruct Hperm as [-> | ->]; cbn [flat_map collidersOf app];
      rewrite H7, ?app_nil_r; reflexivity.
  - intros E5. rewrite E5 in *.
    apply Permutation_sym, Permutation_length_2_inv in Hperm.
    destruct Hperm as [-> | ->]; cbn [arrived];
      repeat match goal with
        | |- context [if loads network ?q then _ else _] =>
            destruct (loads network q) eqn:?
        end;
      cbn [flat_map collidersOf app];
      destruct (network (APP_CONFIG.modelUrl 7)) as [g | e7] eqn:H7;
      rewrite ?app_nil_r;
      first [ left; reflexivity | right; exists g; split; reflexivity ].
Qed.

Lemma runNextScene_colliders_witness :
  colliderMeshes
    (modelLoader
       (snd (runNextScene network_ok (@rev Request)
               (snd (advance network_ok (fun rs => rs) 5
                       (start false APP_CONFIG.assets_sounds page_ok))))))
  = [ (APP_CONFIG.modelUrl 7, 0%nat) ].
Proof.
  rewrite (proj1 (runNextScene_colliders network_ok (@rev Request)
                    (snd (advance network_ok (fun rs => rs) 5
                            (start false APP_CONFIG.assets_sounds page_ok)))
                    (Permutation_sym (Permutation_rev _)) ltac:(cbn; lia) ltac:(cbn; lia))).
  vm_compute. reflexivity.
Defined.

Lemma loadScene_camera network arrival k config s1 :
  currentScene s1 = k ->
  APP_CONFIG.scenes k = Some config ->
  fst (loadScene network arrival config s1) = Returned tt ->
  exists c, sceneCamera k config = Some c /\
            setups (cameraManager (snd (loadScene network arrival config s1)))
            = setups (cameraManager s1) ++ [(c, isVR s1)].
Proof.
  intros Hcs Hcfg. destruct s1 as [cs ml cam aud u vr rl]. cbn in Hcs. subst cs.
  destruct (scenes_cases k config Hcfg)
    as [[-> ->] | [[-> ->] | [[-> ->] | [[-> ->] | [[-> ->] | [-> ->]]]]]].
  2:{ intros _. eexists. split; [ reflexivity | ]. run_actions. cbn. reflexivity. }
  all: run_actions; cbn -[awaitAll]; rewrite awaitAll_run; cbn [modelLoader];
    destruct (settle network _ _) as [ml' [e | ]]; cbn; intros Ho; try discriminate Ho;
    eexists; (split; [ reflexivity | reflexivity ]).
Qed.

Lemma runNextScene_camera_log network arrival s config :
  APP_CONFIG.scenes (currentScene s + 1) = Some config ->
  fst (runNextScene network arrival s) = Returned tt ->
  exists c, sceneCamera (currentScene s + 1) config = Some c /\
            setups (cameraManager (snd (runNextScene network arrival s)))
            = setups (cameraManager s) ++ [(c, isVR s)].
Proof.
  intros Hcfg Hret.
  rewrite (runNextScene_through network arrival s _ config eq_refl Hcfg) in *.
  cbn [fst snd] in *.
  destruct (prelude_frame s) as (Hp1 & _ & Hvr & _).
  destruct (loadScene_camera network arrival _ config (prelude s) Hp1 Hcfg Hret)
    as (c & Hc & Hs).
  exists c. split; [ exact Hc | ].
  destruct (cleanup_frame (snd (loadScene network arrival config (prelude s))))
    as (_ & _ & _ & Hcc & _).
  destruct (prelude_rest s) as (P1 & _).
  rewrite Hcc, Hs, P1, Hvr. reflexivity.
Qed.

(** X14. A run of [runNextScene] that returns normally into a step of the
    catalog sets the camera up exactly once, with the configuration of the
    step and the VR flag of the session; in every other run (a failed
    step, the restart) the camera is not set up at all. *)
Theorem runNextScene_camera :
  forall (network : string -> Fetch) (arrival : list Request -> list Request)
         (s : SequenceManager),
    let r := runNextScene network arrival s in
    let k := currentScene s + 1 in
    (forall config,
        APP_CONFIG.scenes k = Some config -> fst r = Returned tt ->
        exists c, sceneCamera k config = Some c /\
                  setups (cameraManager (snd r)) = setups (cameraManager s) ++ [(c, isVR s)]) /\
    (APP_CONFIG.scenes k = None \/ fst r <> Returned tt ->
     cameraManager (snd r) = cameraManager s).
Proof.
  intros network arrival s. cbv zeta. split.
  - intros config. apply runNextScene_camera_log.
  - intros H.
    destruct (APP_CONFIG.scenes (currentScene s + 1)) as [config | ] eqn:Hcfg.
    + destruct H as [H | H]; [ discriminate H | ].
      rewrite (runNextScene_through network arrival s _ config eq_refl Hcfg) in *.
      cbn [fst snd] in *.
      destruct (prelude_frame s) as (Hp1 & _).
      destruct (loadScene_rest network arrival _ config (prelude s) Hp1 Hcfg) as (_ & _ & Hf).
      destruct (cleanup_frame (snd (loadScene network arrival config (prelude s))))
        as (_ & _ & _ & Hcc & _).
      destruct (prelude_rest s) as (P1 & _).
      destruct (fst (loadScene network arrival config (prelude s))) as [[] | e] eqn:Ho.
      * exfalso. apply H. reflexivity.
      * destruct (Hf e eq_refl) as (Hc & _). rewrite Hcc, Hc, P1. reflexivity.
    + rewrite runNextScene_unfold. cbv zeta. rewrite Hcfg.
      destruct (currentScene s + 1 =? 6); cbn [snd];
        match goal with |- cameraManager (cleanup ?x) = _ =>
          destruct (cleanup_frame x) as (_ & _ & _ & -> & _) end;
        destruct s; reflexivity.
Qed.

Local Open Scope Q_scope.

(** ** Properties of the movement ticks *)

Lemma Qltb_lt a b : Qltb a b = true <-> a < b.
Proof.
  unfold Qltb. rewrite negb_true_iff. split.
  - intros H. apply Qnot_le_lt. intros Hle. apply Qle_bool_iff in Hle. congruence.
  - intros H. destruct (Qle_bool b a) eqn:E; [ | reflexivity ].
    apply Qle_bool_iff in E. exfalso. apply (Qlt_not_le _ _ H E).
Qed.

Lemma Qltb_ge a b : Qltb a b = false <-> b <= a.
Proof.
  unfold Qltb. rewrite negb_false_iff. apply Qle_bool_iff.
Qed.

Lemma Math_max_spec a b : (a <= b /\ Math_max a b = b) \/ (b < a /\ Math_max a b = a).
Proof.
  unfold Math_max. destruct (Qle_bool a b) eqn:E.
  - left. split; [ apply Qle_bool_iff; exact E | reflexivity ].
  - right. split; [ | reflexivity ].
    apply Qnot_le_lt. intros H. apply Qle_bool_iff in H. congruence.
Qed.

(** *** The collision loop *)

Lemma pushBack_near cast cp dir :
  hitsNear cast cp dir = true -> 0 < pushBack cast cp dir.
Proof.
  unfold hitsNear, pushBack, Physics.nearerThan.
  destruct (cast cp dir) as [ | h rest]; [ discriminate | ].
  intros H. rewrite H. apply Qltb_lt in H. lra.
Qed.

Lemma pushBack_far cast cp dir :
  hitsNear cast cp dir = false -> pushBack cast cp dir = 0.
Proof.
  unfold hitsNear, pushBack, Physics.nearerThan.
  destruct (cast cp dir) as [ | h rest]; [ reflexivity | ].
  intros H. rewrite H. reflexivity.
Qed.

Lemma resolveDirection_spec cast cp pos vel dir :
  let r := Physics.resolveDirection cast cp (pos, vel) dir in
  Vector3.x (fst r) == Vector3.x pos - Vector3.x dir * pushBack cast cp dir /\
  Vector3.y (fst r) = Vector3.y pos /\
  Vector3.z (fst r) == Vector3.z pos - Vector3.z dir * pushBack cast cp dir /\
  Vector3.x (snd r) = (if hitsNear cast cp dir && negb (Qeq_bool (Vector3.x dir) 0)
                       then 0 else Vector3.x vel) /\
  Vector3.y (snd r) = Vector3.y vel /\
  Vector3.z (snd r) = (if hitsNear cast cp dir && negb (Qeq_bool (Vector3.z dir) 0)
                       then 0 else Vector3.z vel).
Proof.
  unfold Physics.resolveDirection, pushBack, hitsNear, Physics.nearerThan. cbv zeta.
  destruct (cast cp dir) as [ | h rest]; cbn [fst snd].
  - repeat split; try reflexivity; lra.
  - destruct (Qltb (distance h) (playerRadius physics)); cbn [fst snd Vector3.x Vector3.y Vector3.z andb].
    + repeat split; try reflexivity.
      * destruct (Qeq_bool (Vector3.x dir) 0); reflexivity.
      * destruct (Qeq_bool (Vector3.z dir) 0); reflexivity.
    + repeat split; try reflexivity; lra.
Qed.

Lemma resolveCollisions_spec cast cp pos vel :
  let r := Physics.resolveCollisions cast cp pos vel in
  Vector3.x (fst r) == Vector3.x pos - pushBack cast cp dirX + pushBack cast cp dirXneg /\
  Vector3.y (fst r) = Vector3.y pos /\
  Vector3.z (fst r) == Vector3.z pos - pushBack cast cp dirZ + pushBack cast cp dirZneg /\
  Vector3.x (snd r) = (if hitsNear cast cp dirX || hitsNear cast cp dirXneg
                       then 0 else Vector3.x vel) /\
  Vector3.y (snd r) = Vector3.y vel /\
  Vector3.z (snd r) = (if hitsNear cast cp dirZ || hitsNear cast cp dirZneg
                       then 0 else Vector3.z vel).
Proof.
  unfold Physics.resolveCollisions, checkDirections. cbn [fold_left].
  fold dirX dirXneg dirZ dirZneg.
  pose proof (resolveDirection_spec cast cp pos vel dirX) as H1. cbv zeta in H1.
  destruct (Physics.resolveDirection cast cp (pos, vel) dirX) as [p1 v1].
  pose proof (resolveDirection_spec cast cp p1 v1 dirXneg) as H2. cbv zeta in H2.
  destruct (Physics.resolveDirection cast cp (p1, v1) dirXneg) as [p2 v2].
  pose proof (resolveDirection_spec cast cp p2 v2 dirZ) as H3. cbv zeta in H3.
  destruct (Physics.resolveDirection cast cp (p2, v2) dirZ) as [p3 v3].
  pose proof (resolveDirection_spec cast cp p3 v3 dirZneg) as H4. cbv zeta in H4.
  destruct (Physics.resolveDirection cast cp (p3, v3) dirZneg) as [p4 v4].
  cbn [fst snd dirX dirXneg dirZ dirZneg Vector3.x Vector3.y Vector3.z] in *.
  destruct H1 as (A1 & A2 & A3 & A4 & A5 & A6).
  destruct H2 as (B1 & B2 & B3 & B4 & B5 & B6).
  destruct H3 as (C1 & C2 & C3 & C4 & C5 & C6).
  destruct H4 as (D1 & D2 & D3 & D4 & D5 & D6).
  cbv zeta. cbn [fst snd].
  change (Qeq_bool 1 0) with false in *. change (Qeq_bool (-1) 0) with false in *.
  change (Qeq_bool 0 0) with true in *.
  rewrite ?andb_true_r, ?andb_false_r in *. cbn [negb] in *.
  rewrite ?andb_true_r, ?andb_false_r in *.
  repeat split.
  - rewrite D1, C1, B1, A1. lra.
  - congruence.
  - rewrite D3, C3, B3, A3. lra.
  - rewrite D4, C4, B4, A4.
    destruct (hitsNear cast cp dirX), (hitsNear cast cp dirXneg); reflexivity.
  - congruence.
  - rewrite D6, C6, B6, A6.
    destruct (hitsNear cast cp dirZ), (hitsNear cast cp dirZneg); reflexivity.
Qed.

(** *** The stages of the desktop tick *)

Section DesktopStages.
Variable sqrt : Q -> Q.
Variable delta : Q.
Variable cast : Raycast.

Lemma desktopVertical_pm d :
  physicsManager (Physics.desktopVertical delta cast d)
  = set_velocity
      (Vector3.setY (playerVelocity (physicsManager d)) (verticalVelocity delta cast d))
      (if groundedAtStart cast d && KeyState.jump (keys (physicsManager d))
       then set_jump false (physicsManager d) else physicsManager d).
Proof.
  unfold Physics.desktopVertical, verticalVelocity, groundedAtStart. cbv zeta.
  destruct (Physics.nearerThan _ _); cbn [andb].
  - destruct (KeyState.jump (keys (physicsManager d))); reflexivity.
  - reflexivity.
Qed.


(** The physics manager before the collision loop. *)
Lemma beforeCollision_pm d :
  physicsManager (Physics.desktopBeforeCollision sqrt delta cast d)
  = Physics.desktopInput sqrt delta
      (Physics.applyFriction delta (physicsManager (Physics.desktopVertical delta cast d))).
Proof. reflexivity. Qed.


Lemma collide_spec d :
  let r := Physics.desktopCollide cast d in
  let cp := desktopCheckPos d in
  let pos := position (pointerLockControls d) in
  let vel := playerVelocity (physicsManager d) in
  Vector3.x (position (pointerLockControls r))
  == Vector3.x pos - pushBack cast cp dirX + pushBack cast cp dirXneg /\
  Vector3.y (position (pointerLockControls r)) = Vector3.y pos /\
  Vector3.z (position (pointerLockControls r))
  == Vector3.z pos - pushBack cast cp dirZ + pushBack cast cp dirZneg /\
  Vector3.x (playerVelocity (physicsManager r))
  = (if hitsNear cast cp dirX || hitsNear cast cp dirXneg then 0 else Vector3.x vel) /\
  Vector3.y (playerVelocity (physicsManager r)) = Vector3.y vel /\
  Vector3.z (playerVelocity (physicsManager r))
  = (if hitsNear cast cp dirZ || hitsNear cast cp dirZneg then 0 else Vector3.z vel) /\
  keys (physicsManager r) = keys (physicsManager d) /\
  currentMoveSpeed (physicsManager r) = currentMoveSpeed (physicsManager d) /\
  playerDirection (physicsManager r) = playerDirection (physicsManager d) /\
  isLocked (pointerLockControls r) = isLocked (pointerLockControls d).
Proof.
  cbv zeta. unfold Physics.desktopCollide, desktopCheckPos. cbv zeta.
  pose proof (resolveCollisions_spec cast
                (Vector3.mk (Vector3.x (position (pointerLockControls d)))
                   (Vector3.y (position (pointerLockControls d)) - playerHeight physics / 2)
                   (Vector3.z (position (pointerLockControls d))))
                (position (pointerLockControls d))
                (playerVelocity (physicsManager d))) as H.
  cbv zeta in H.
  destruct (Physics.resolveCollisions cast _ _ _) as [pos vel].
  cbn [fst snd] in H. cbn.
  destruct H as (H1 & H2 & H3 & H4 & H5 & H6).
  repeat split; assumption.
Qed.

Lemma ground_spec d :
  let r := Physics.desktopGround cast d in
  Vector3.x (position (pointerLockControls r)) = Vector3.x (position (pointerLockControls d)) /\
  Vector3.z (position (pointerLockControls r)) = Vector3.z (position (pointerLockControls d)) /\
  Vector3.x (playerVelocity (physicsManager r)) = Vector3.x (playerVelocity (physicsManager d)) /\
  Vector3.z (playerVelocity (physicsManager r)) = Vector3.z (playerVelocity (physicsManager d)) /\
  (Vector3.y (playerVelocity (physicsManager r)) = Vector3.y (playerVelocity (physicsManager d)) \/
   (Vector3.y (playerVelocity (physicsManager d)) < 0 /\
    Vector3.y (playerVelocity (physicsManager r)) = 0)) /\
  keys (physicsManager r) = keys (physicsManager d) /\
  currentMoveSpeed (physicsManager r) = currentMoveSpeed (physicsManager d) /\
  playerDirection (physicsManager r) = playerDirection (physicsManager d) /\
  isLocked (pointerLockControls r) = isLocked (pointerLockControls d).
Proof.
  cbv zeta. unfold Physics.desktopGround. cbv zeta.
  destruct (cast (position (pointerLockControls d)) down) as [ | h rest].
  - cbn. repeat split. left; reflexivity.
  - destruct (Qltb (distance h) (playerHeight physics + (1 # 10))).
    + destruct (Qltb (distance h) (playerHeight physics)).
      * destruct (Qltb (Vector3.y (playerVelocity (physicsManager d))) 0) eqn:E; cbn.
        -- repeat split. right. split; [ apply Qltb_lt; exact E | reflexivity ].
        -- repeat split. left; reflexivity.
      * cbn. repeat split. left; reflexivity.
    + cbn. repeat split. left; reflexivity.
Qed.
End DesktopStages.

(** *** The whole desktop tick *)

Section DesktopTick.
Variable sqrt : Q -> Q.
Variable delta : Q.
Variable cast : Raycast.

Lemma tick_locked d :
  isLocked (pointerLockControls d) = true ->
  Physics.updatePlayerDesktop sqrt delta cast d
  = Physics.desktopGround cast
      (Physics.desktopCollide cast (Physics.desktopBeforeCollision sqrt delta cast d)).
Proof. intros H. unfold Physics.updatePlayerDesktop. rewrite H. reflexivity. Qed.

Lemma tick_unlocked d :
  isLocked (pointerLockControls d) = false ->
  Physics.updatePlayerDesktop sqrt delta cast d = d.
Proof. intros H. unfold Physics.updatePlayerDesktop. rewrite H. reflexivity. Qed.


(** The keys and the speed setting after steps 1 to 4. *)
Lemma beforeCollision_keys d :
  keys (physicsManager (Physics.desktopBeforeCollision sqrt delta cast d))
  = keys (if groundedAtStart cast d && KeyState.jump (keys (physicsManager d))
          then set_jump false (physicsManager d) else physicsManager d) /\
  currentMoveSpeed (physicsManager (Physics.desktopBeforeCollision sqrt delta cast d))
  = currentMoveSpeed (physicsManager d).
Proof.
  rewrite beforeCollision_pm, desktopVertical_pm.
  destruct (groundedAtStart cast d && KeyState.jump (keys (physicsManager d)));
    split; reflexivity.
Qed.

Lemma beforeCollision_vy d :
  Vector3.y (playerVelocity (physicsManager (Physics.desktopBeforeCollision sqrt delta cast d)))
  = verticalVelocity delta cast d.
Proof.
  rewrite beforeCollision_pm, desktopVertical_pm.
  destruct (groundedAtStart cast d && KeyState.jump (keys (physicsManager d)));
    reflexivity.
Qed.

(** The keys, the speed setting and the vertical velocity after a tick. *)
Lemma tick_vertical d :
  isLocked (pointerLockControls d) = true ->
  let d' := Physics.updatePlayerDesktop sqrt delta cast d in
  keys (physicsManager d')
  = keys (if groundedAtStart cast d && KeyState.jump (keys (physicsManager d))
          then set_jump false (physicsManager d) else physicsManager d) /\
  currentMoveSpeed (physicsManager d') = currentMoveSpeed (physicsManager d) /\
  (Vector3.y (playerVelocity (physicsManager d')) = verticalVelocity delta cast d \/
   (verticalVelocity delta cast d < 0 /\ Vector3.y (playerVelocity (physicsManager d')) = 0)).
Proof.
  intros Hl d'. subst d'. rewrite (tick_locked d Hl).
  destruct (ground_spec cast (Physics.desktopCollide cast
              (Physics.desktopBeforeCollision sqrt delta cast d)))
    as (_ & _ & _ & _ & Hy & -> & -> & _).
  destruct (collide_spec cast (Physics.desktopBeforeCollision sqrt delta cast d))
    as (_ & _ & _ & _ & Hy' & _ & -> & -> & _).
  rewrite Hy', beforeCollision_vy in Hy.
  destruct (beforeCollision_keys d) as [-> ->].
  repeat split. exact Hy.
Qed.
End DesktopTick.

(** C7. The key-down handler sets the pending-jump bit for Space only
    when the grounded flag is set, and otherwise leaves the manager as it
    is, so a request made while airborne changes nothing in whatever
    follows. In a tick whose grounding probe finds no floor the pending bit
    is left alone and the vertical velocity only takes gravity (or is
    zeroed on landing): no impulse. In a tick whose probe finds the floor
    with the bit set, the vertical velocity ends at [jumpVelocity] and the
    bit is cleared; with the bit clear it ends at [max(0, vy)]. *)
Theorem C7_jump_gating :
  forall (sqrt : Q -> Q),
    (forall p,
        Physics.handleKeyDown Space p = if playerOnFloor p then set_jump true p else p) /\
    (forall d inputs,
        playerOnFloor (physicsManager d) = false ->
        Physics.play sqrt (Physics.KeyDown Space :: inputs) d = Physics.play sqrt inputs d) /\
    (forall delta cast d,
        isLocked (pointerLockControls d) = true ->
        groundedAtStart cast d = false ->
        let d' := Physics.updatePlayerDesktop sqrt delta cast d in
        let vy := Vector3.y (playerVelocity (physicsManager d)) in
        let vy' := Vector3.y (playerVelocity (physicsManager d')) in
        KeyState.jump (keys (physicsManager d')) = KeyState.jump (keys (physicsManager d)) /\
        (vy' = vy + gravity physics * delta \/
         (vy + gravity physics * delta < 0 /\ vy' = 0))) /\
    (forall delta cast d,
        isLocked (pointerLockControls d) = true ->
        groundedAtStart cast d = true ->
        let d' := Physics.updatePlayerDesktop sqrt delta cast d in
        let vy := Vector3.y (playerVelocity (physicsManager d)) in
        let vy' := Vector3.y (playerVelocity (physicsManager d')) in
        KeyState.jump (keys (physicsManager d')) = false /\
        vy' = (if KeyState.jump (keys (physicsManager d))
               then jumpVelocity physics else Math_max 0 vy)).
Proof.
  intros sqrt. split; [ reflexivity | ]. split; [ | split ].
  - intros d inputs H. unfold Physics.play. cbn [fold_left]. f_equal.
    destruct d as [p c]. cbn [physicsManager] in H.
    cbn [Physics.react physicsManager pointerLockControls].
    unfold Physics.handleKeyDown. rewrite H.
    destruct (isLocked c); reflexivity.
  - intros delta cast d Hl Hg d' vy vy'. subst d' vy vy'.
    destruct (tick_vertical sqrt delta cast d Hl) as (Hk & _ & Hy).
    rewrite Hg in Hk. cbn [andb] in Hk. rewrite Hk.
    unfold verticalVelocity in Hy. rewrite Hg in Hy.
    split; [ reflexivity | exact Hy ].
  - intros delta cast d Hl Hg d' vy vy'. subst d' vy vy'.
    destruct (tick_vertical sqrt delta cast d Hl) as (Hk & _ & Hy).
    rewrite Hg in Hk. cbn [andb] in Hk.
    unfold verticalVelocity in Hy. rewrite Hg in Hy.
    destruct (KeyState.jump (keys (physicsManager d))) eqn:Hj.
    + rewrite Hk. split; [ reflexivity | ].
      destruct Hy as [Hy | [Hneg _]]; [ exact Hy | ].
      exfalso. cbn in Hneg. lra.
    + rewrite Hk. split; [ exact Hj | ].
      destruct Hy as [Hy | [Hneg _]]; [ exact Hy | ].
      exfalso.
      destruct (Math_max_spec 0 (Vector3.y (playerVelocity (physicsManager d))))
        as [[Hle He] | [Hlt He]]; rewrite He in Hneg; lra.
Qed.

Section DesktopHorizontal.
Variable sqrt : Q -> Q.
Variable delta : Q.
Variable cast : Raycast.

(** The horizontal velocity and the direction a locked tick leaves. *)
Lemma tick_horizontal d :
  isLocked (pointerLockControls d) = true ->
  let d' := Physics.updatePlayerDesktop sqrt delta cast d in
  let cp := desktopCheckPos (Physics.desktopBeforeCollision sqrt delta cast d) in
  let p := physicsManager d in
  let k := keys p in
  let v := playerVelocity p in
  let dir := inputDirection sqrt k (Vector3.y (playerDirection p)) in
  playerDirection (physicsManager d') = dir /\
  Vector3.x (playerVelocity (physicsManager d'))
  = (if hitsNear cast cp dirX || hitsNear cast cp dirXneg then 0
     else if KeyState.left k || KeyState.right k
          then damped (Vector3.x v) delta - Vector3.x dir * currentMoveSpeed p * delta
          else damped (Vector3.x v) delta) /\
  Vector3.z (playerVelocity (physicsManager d'))
  = (if hitsNear cast cp dirZ || hitsNear cast cp dirZneg then 0
     else if KeyState.forward k || KeyState.backward k
          then damped (Vector3.z v) delta - Vector3.z dir * currentMoveSpeed p * delta
          else damped (Vector3.z v) delta).
Proof.
  intros Hl. cbv zeta. rewrite (tick_locked sqrt delta cast d Hl).
  destruct (ground_spec cast (Physics.desktopCollide cast
              (Physics.desktopBeforeCollision sqrt delta cast d)))
    as (_ & _ & -> & -> & _ & _ & _ & -> & _).
  destruct (collide_spec cast (Physics.desktopBeforeCollision sqrt delta cast d))
    as (_ & _ & _ & -> & _ & -> & _ & _ & -> & _).
  rewrite beforeCollision_pm, desktopVertical_pm.
  unfold inputDirection, damped.
  destruct (groundedAtStart cast d && KeyState.jump (keys (physicsManager d)));
    repeat split.
Qed.
End DesktopHorizontal.


Lemma horizontalSpeedSq_nonneg v : 0 <= horizontalSpeedSq v.
Proof. unfold horizontalSpeedSq. nra. Qed.



(** *** Damping, frame after frame *)







(** *** The speed setting *)








(** *** The collision loop inside the ticks *)

Lemma pushBack_hit cast cp dir h rest :
  cast cp dir = h :: rest -> distance h < playerRadius physics ->
  pushBack cast cp dir = playerRadius physics - distance h + (1 # 100).
Proof.
  intros Hc Hd. unfold pushBack. rewrite Hc.
  apply Qltb_lt in Hd. rewrite Hd. reflexivity.
Qed.

Lemma resolve_pushedBack cast cp pos pos' vel vel' :
  Vector3.x pos' == Vector3.x pos - pushBack cast cp dirX + pushBack cast cp dirXneg ->
  Vector3.z pos' == Vector3.z pos - pushBack cast cp dirZ + pushBack cast cp dirZneg ->
  Vector3.x vel' = (if hitsNear cast cp dirX || hitsNear cast cp dirXneg
                    then 0 else Vector3.x vel) ->
  Vector3.z vel' = (if hitsNear cast cp dirZ || hitsNear cast cp dirZneg
                    then 0 else Vector3.z vel) ->
  pushedBack cast cp pos pos' vel'.
Proof.
  intros Hx Hz Hvx Hvz. unfold pushedBack.
  split; [ exact Hx | ]. split; [ exact Hz | ].
  split; [ intros H; rewrite H in Hvx; exact Hvx | ].
  split; [ intros H; rewrite H in Hvz; exact Hvz | ].
  repeat split; intros h rest Hc Hd Hfar;
    rewrite (pushBack_hit _ _ _ _ _ Hc Hd), (pushBack_far _ _ _ Hfar) in *; lra.
Qed.

Lemma tick_pushedBack sqrt delta cast d :
  isLocked (pointerLockControls d) = true ->
  let b := Physics.desktopBeforeCollision sqrt delta cast d in
  let d' := Physics.updatePlayerDesktop sqrt delta cast d in
  pushedBack cast (desktopCheckPos b) (position (pointerLockControls b))
    (position (pointerLockControls d')) (playerVelocity (physicsManager d')).
Proof.
  intros Hl. cbv zeta. rewrite (tick_locked sqrt delta cast d Hl).
  destruct (ground_spec cast (Physics.desktopCollide cast
              (Physics.desktopBeforeCollision sqrt delta cast d)))
    as (Gx & Gz & Gvx & Gvz & _).
  destruct (collide_spec cast (Physics.desktopBeforeCollision sqrt delta cast d))
    as (Cx & _ & Cz & Cvx & _ & Cvz & _).
  apply (resolve_pushedBack cast _ _ _
           (playerVelocity (physicsManager (Physics.desktopBeforeCollision sqrt delta cast d)))).
  - rewrite Gx. exact Cx.
  - rewrite Gz. exact Cz.
  - rewrite Gvx. exact Cvx.
  - rewrite Gvz. exact Cvz.
Qed.

Lemma vrCollide_spec cast s :
  let r := Physics.vrCollide cast s in
  let cp := vrCheckPos s in
  let pos := rig_position (playerRig s) in
  let vel := playerVelocity (vr_physicsManager s) in
  Vector3.x (rig_position (playerRig r))
  == Vector3.x pos - pushBack cast cp dirX + pushBack cast cp dirXneg /\
  Vector3.z (rig_position (playerRig r))
  == Vector3.z pos - pushBack cast cp dirZ + pushBack cast cp dirZneg /\
  Vector3.x (playerVelocity (vr_physicsManager r))
  = (if hitsNear cast cp dirX || hitsNear cast cp dirXneg then 0 else Vector3.x vel) /\
  Vector3.z (playerVelocity (vr_physicsManager r))
  = (if hitsNear cast cp dirZ || hitsNear cast cp dirZneg then 0 else Vector3.z vel) /\
  rig_rotationY (playerRig r) = rig_rotationY (playerRig s).
Proof.
  cbv zeta. unfold Physics.vrCollide, vrCheckPos. cbv zeta.
  pose proof (resolveCollisions_spec cast
                (Vector3.add (rig_position (playerRig s)) (Vector3.mk 0 1 0))
                (rig_position (playerRig s))
                (playerVelocity (vr_physicsManager s))) as H.
  cbv zeta in H.
  destruct (Physics.resolveCollisions cast _ _ _) as [pos vel].
  cbn [fst snd] in H. cbn.
  destruct H as (H1 & H2 & H3 & H4 & H5 & H6).
  repeat split; assumption.
Qed.

Lemma vrGround_spec cast s :
  let r := Physics.vrGround cast s in
  Vector3.x (rig_position (playerRig r)) = Vector3.x (rig_position (playerRig s)) /\
  Vector3.z (rig_position (playerRig r)) = Vector3.z (rig_position (playerRig s)) /\
  Vector3.x (playerVelocity (vr_physicsManager r))
  = Vector3.x (playerVelocity (vr_physicsManager s)) /\
  Vector3.z (playerVelocity (vr_physicsManager r))
  = Vector3.z (playerVelocity (vr_physicsManager s)) /\
  rig_rotationY (playerRig r) = rig_rotationY (playerRig s).
Proof.
  cbv zeta. unfold Physics.vrGround. cbv zeta.
  destruct (cast _ down) as [ | h rest]; [ repeat split | ].
  destruct (Qltb (distance h) (15 # 100)); [ | repeat split ].
  destruct (Qltb (Vector3.y (playerVelocity (vr_physicsManager s))) 0);
    cbn; repeat split.
Qed.

Lemma vrTick_pushedBack sqrt delta wd cu cast cs s :
  let b := Physics.vrBeforeCollision sqrt delta wd cu cast cs s in
  let s' := Physics.updatePlayerVR sqrt delta wd cu cast cs s in
  pushedBack cast (vrCheckPos b) (rig_position (playerRig b))
    (rig_position (playerRig s')) (playerVelocity (vr_physicsManager s')).
Proof.
  cbv zeta. unfold Physics.updatePlayerVR.
  destruct (vrGround_spec cast (Physics.vrCollide cast
              (Physics.vrBeforeCollision sqrt delta wd cu cast cs s)))
    as (Gx & Gz & Gvx & Gvz & _).
  destruct (vrCollide_spec cast (Physics.vrBeforeCollision sqrt delta wd cu cast cs s))
    as (Cx & Cz & Cvx & Cvz & _).
  apply (resolve_pushedBack cast _ _ _
           (playerVelocity (vr_physicsManager
              (Physics.vrBeforeCollision sqrt delta wd cu cast cs s)))).
  - rewrite Gx. exact Cx.
  - rewrite Gz. exact Cz.
  - rewrite Gvx. exact Cvx.
  - rewrite Gvz. exact Cvz.
Qed.

(** C1, as stated, fails: a player who walks at 45 degrees towards a wall
    ends the tick 0.41 away from it along both axes, so no ray reports a
    hit inside the radius and nothing is pushed back, yet the distance to
    the wall is 0.41 / sqrt 2 = 0.29, less than playerRadius - 0.1. *)
Lemma C1_counterexample :
  let cast := PlaneWorld.cast [floorPlane; obliqueWall] in
  let d' := Physics.updatePlayerDesktop sqrt_floor (1 # 16) cast walker in
  let r := playerRadius physics in
  isLocked (pointerLockControls walker) = true /\
  r * r <= PlaneWorld.horizontalDistSq (position (pointerLockControls walker)) obliqueWall /\
  0 <= r - (1 # 10) /\
  PlaneWorld.horizontalDistSq (position (pointerLockControls d')) obliqueWall
  < (r - (1 # 10)) * (r - (1 # 10)).
Proof.
  vm_compute. repeat split; try reflexivity; discriminate.
Qed.

(** C1, amended. In both ticks the collision loop casts its four rays from
    the check point of the position reached by the move of the same tick,
    and corrects the position by the sum of the corrections of the four
    directions: the tick ends with x (and likewise z) moved back by
    penetration + 0.01 for every axis direction whose nearest hit is closer
    than playerRadius, and with the velocity component of such an axis at
    zero. So when the nearest hit along one direction is closer than
    playerRadius and the opposite direction has none that close, the
    player ends the tick exactly playerRadius + 0.01 from that hit along
    that axis. Geometry the four axis rays do not meet inside the radius
    is not corrected for. *)
Theorem C1_collision_pushback :
  forall (sqrt : Q -> Q),
    (forall delta cast d,
        isLocked (pointerLockControls d) = true ->
        let b := Physics.desktopBeforeCollision sqrt delta cast d in
        let d' := Physics.updatePlayerDesktop sqrt delta cast d in
        pushedBack cast (desktopCheckPos b) (position (pointerLockControls b))
          (position (pointerLockControls d')) (playerVelocity (physicsManager d'))) /\
    (forall delta worldDirection cameraUp cast vrControllers s,
        let b := Physics.vrBeforeCollision sqrt delta worldDirection cameraUp cast
                   vrControllers s in
        let s' := Physics.updatePlayerVR sqrt delta worldDirection cameraUp cast
                    vrControllers s in
        pushedBack cast (vrCheckPos b) (rig_position (playerRig b))
          (rig_position (playerRig s')) (playerVelocity (vr_physicsManager s'))).
Proof.
  intros sqrt. split.
  - intros delta cast d Hl. apply tick_pushedBack. exact Hl.
  - intros. apply vrTick_pushedBack.
Qed.

(** *** Turning in VR *)

Lemma vrTurn_axis delta cs :
  Physics.vrTurn delta (snd (Physics.pickGamepads cs))
  = if Qltb (1 # 10) (Qabs (turnAxis cs))
    then Some (- turnAxis cs * delta * turnSpeed vr)
    else None.
Proof.
  unfold Physics.vrTurn, turnAxis.
  destruct (snd (Physics.pickGamepads cs)) as [g | ]; reflexivity.
Qed.

Lemma vrBeforeCollision_rotation sqrt delta wd cu cast cs s :
  rig_rotationY (playerRig (Physics.vrBeforeCollision sqrt delta wd cu cast cs s))
  = match Physics.vrTurn delta (snd (Physics.pickGamepads cs)) with
    | Some angle => rig_rotationY (playerRig s) + angle
    | None => rig_rotationY (playerRig s)
    end.
Proof.
  unfold Physics.vrBeforeCollision.
  destruct (Physics.pickGamepads cs) as [moveGamepad turnGamepad].
  cbn [snd]. cbv zeta.
  destruct (Physics.nearerThan (15 # 100) _);
    destruct moveGamepad as [g | ];
    try (destruct (nth_error (gp_buttons g) 0) as [value | ];
         try destruct (Qltb (sprintThreshold vr) value));
    destruct (Physics.vrTurn delta turnGamepad); reflexivity.
Qed.

Lemma vrTick_rotation sqrt delta wd cu cast cs s :
  rig_rotationY (playerRig (Physics.updatePlayerVR sqrt delta wd cu cast cs s))
  = if Qltb (1 # 10) (Qabs (turnAxis cs))
    then rig_rotationY (playerRig s) + (- turnAxis cs * delta * turnSpeed vr)
    else rig_rotationY (playerRig s).
Proof.
  unfold Physics.updatePlayerVR.
  destruct (vrGround_spec cast (Physics.vrCollide cast
              (Physics.vrBeforeCollision sqrt delta wd cu cast cs s)))
    as (_ & _ & _ & _ & ->).
  destruct (vrCollide_spec cast (Physics.vrBeforeCollision sqrt delta wd cu cast cs s))
    as (_ & _ & _ & _ & ->).
  rewrite vrBeforeCollision_rotation, vrTurn_axis.
  destruct (Qltb (1 # 10) (Qabs (turnAxis cs))); reflexivity.
Qed.

(** C9. In the VR tick the rig is turned by [- axis * delta * turnSpeed]
    when the magnitude of the turn stick's horizontal axis exceeds 0.1 and
    is not turned at all otherwise, nothing else in the tick touching the
    rotation; so for a frame of non-zero length the rotation changes
    exactly when the axis is outside the deadzone. *)
Theorem C9_vr_turn_deadzone :
  forall (sqrt : Q -> Q) (delta : Q) (worldDirection cameraUp : Vector3.t)
         (cast : Raycast) (vrControllers : list Controller) (s : VR),
    let s' := Physics.updatePlayerVR sqrt delta worldDirection cameraUp cast
                vrControllers s in
    let axis := turnAxis vrControllers in
    (1 # 10 < Qabs axis ->
     rig_rotationY (playerRig s')
     = rig_rotationY (playerRig s) + (- axis * delta * turnSpeed vr)) /\
    (Qabs axis <= 1 # 10 ->
     rig_rotationY (playerRig s') = rig_rotationY (playerRig s)) /\
    (~ delta == 0 ->
     (~ rig_rotationY (playerRig s') == rig_rotationY (playerRig s)
      <-> 1 # 10 < Qabs axis)).
Proof.
  intros sqrt delta wd cu cast cs s s' axis. subst s' axis.
  rewrite vrTick_rotation.
  destruct (Qltb (1 # 10) (Qabs (turnAxis cs))) eqn:E.
  - apply Qltb_lt in E. split; [ intros _; reflexivity | ].
    split; [ intros H; exfalso; apply (Qlt_not_le _ _ E H) | ].
    intros Hd. split; [ intros _; exact E | intros _ Heq ].
    change (turnSpeed vr) with 2 in Heq.
    assert (Hz : turnAxis cs * delta == 0) by lra.
    apply Qmult_integral in Hz. destruct Hz as [Hz | Hz]; [ | exact (Hd Hz) ].
    rewrite Hz in E. cbn in E. discriminate E.
  - apply Qltb_ge in E. split; [ intros H; exfalso; apply (Qlt_not_le _ _ H E) | ].
    split; [ intros _; reflexivity | ].
    intros _. split; [ intros H; exfalso; apply H; reflexivity | ].
    intros H. exfalso. apply (Qlt_not_le _ _ H E).
Qed.

Local Open Scope Z_scope.

(** ** Instances *)

Lemma C3_witness :
  let r := advance network_ok (@rev Request) 3
             (start false APP_CONFIG.assets_sounds page_ok) in
  fst r = repeat (Returned tt) 3 /\
  currentScene (snd r) = 2 /\
  Permutation (assets (modelLoader (snd r))) (declaredAssets 2).
Proof.
  apply (proj1 (C3_advance_lands_on_step network_ok (@rev Request)
                  (fun u => ex_intro _ _ eq_refl)
                  (fun rs => Permutation_sym (Permutation_rev rs)))
           false APP_CONFIG.assets_sounds page_ok 2%nat).
  lia.
Defined.

Lemma C4_witness :
  exists e r',
    fst (runNextScene network_without_kopuk (fun rs => rs)
           (start false APP_CONFIG.assets_sounds page_ok)) = Thrown e /\
    In r' (stepRequests 0) /\
    network_without_kopuk (req_url r') = Rejected e.
Proof.
  apply (proj1 (proj2 (C4_rejected_load_cleanup_rethrow network_without_kopuk
                         (fun rs => rs) (fun rs => Permutation_refl rs)))
           (start false APP_CONFIG.assets_sounds page_ok)
           (ReqModel (APP_CONFIG.modelUrl 4) (modelCfg None true))
           "404 Not Found").
  - right. left. reflexivity.
  - reflexivity.
Defined.

Local Open Scope Q_scope.
Import APP_CONFIG.



Lemma C7_witness :
  let cast := PlaneWorld.cast [floorPlane] in
  let d := standing (set_jump true Physics.create) in
  let d' := Physics.updatePlayerDesktop sqrt_floor (1 # 60) cast d in
  KeyState.jump (keys (physicsManager d')) = false /\
  Vector3.y (playerVelocity (physicsManager d')) = jumpVelocity physics.
Proof.
  cbv zeta.
  apply (proj2 (proj2 (proj2 (C7_jump_gating sqrt_floor))) (1 # 60)
           (PlaneWorld.cast [floorPlane]) (standing (set_jump true Physics.create))
           eq_refl eq_refl).
Defined.

Lemma C1_witness :
  let cast := PlaneWorld.cast [floorPlane; wallAhead] in
  let d := standing Physics.create in
  let b := Physics.desktopBeforeCollision sqrt_floor (1 # 16) cast d in
  let d' := Physics.updatePlayerDesktop sqrt_floor (1 # 16) cast d in
  Vector3.x (position (pointerLockControls d'))
  == Vector3.x (position (pointerLockControls b))
     - pushBack cast (desktopCheckPos b) dirX + pushBack cast (desktopCheckPos b) dirXneg /\
  Vector3.x (playerVelocity (physicsManager d')) = 0.
Proof.
  cbv zeta.
  destruct (proj1 (C1_collision_pushback sqrt_floor) (1 # 16)
              (PlaneWorld.cast [floorPlane; wallAhead]) (standing Physics.create) eq_refl)
    as (Hx & _ & Hv & _).
  split; [ exact Hx | ]. apply Hv. vm_compute. reflexivity.
Defined.

(** C9, as stated, fails for a frame of length zero, which the clock
    gives when two frames fall on the same tick of the timer: the stick is
    half way out, well outside the deadzone, and the rig does not turn. *)
Lemma C9_counterexample :
  let s' := Physics.updatePlayerVR sqrt_floor 0 (Vector3.mk 0 0 (- (1)))
              (Vector3.mk 0 1 0) emptyWorld turningRight rigAtOrigin in
  turnAxis turningRight == 1 # 2 /\
  1 # 10 < Qabs (turnAxis turningRight) /\
  rig_rotationY (playerRig s') == rig_rotationY (playerRig rigAtOrigin) /\
  ~ (~ rig_rotationY (playerRig s') == rig_rotationY (playerRig rigAtOrigin)
     <-> 1 # 10 < Qabs (turnAxis turningRight)).
Proof.
  cbv zeta.
  assert (Ha : turnAxis turningRight == 1 # 2) by (vm_compute; reflexivity).
  assert (Hd : 1 # 10 < Qabs (turnAxis turningRight)) by (vm_compute; reflexivity).
  assert (Hr : rig_rotationY
                 (playerRig (Physics.updatePlayerVR sqrt_floor 0 (Vector3.mk 0 0 (- (1)))
                               (Vector3.mk 0 1 0) emptyWorld turningRight rigAtOrigin))
               == rig_rotationY (playerRig rigAtOrigin)) by (vm_compute; reflexivity).
  split; [ exact Ha | ]. split; [ exact Hd | ]. split; [ exact Hr | ].
  intros [_ H]. apply (H Hd). exact Hr.
Qed.

Lemma C9_witness :
  let s' := Physics.updatePlayerVR sqrt_floor (1 # 10) (Vector3.mk 0 0 (- (1)))
              (Vector3.mk 0 1 0) emptyWorld turningRight rigAtOrigin in
  rig_rotationY (playerRig s')
  = rig_rotationY (playerRig rigAtOrigin)
    + (- turnAxis turningRight * (1 # 10) * turnSpeed vr).
Proof.
  cbv zeta.
  apply (proj1 (C9_vr_turn_deadzone sqrt_floor (1 # 10) (Vector3.mk 0 0 (- (1)))
                  (Vector3.mk 0 1 0) emptyWorld turningRight rigAtOrigin)).
  vm_compute. reflexivity.
Defined.

(** ** Further properties of the player physics *)

(** X15. The key handlers form a simple algebra: a repeated key-down (the
    auto-repeat of a held key) changes nothing more, a key-up undoes the
    key-down of the same key whatever the state, and the events of two
    different keys can be swapped. *)
Theorem key_events_algebra :
  forall (p : PhysicsManager) (a b : KeyCode),
    Physics.handleKeyDown a (Physics.handleKeyDown a p) = Physics.handleKeyDown a p /\
    Physics.handleKeyUp a (Physics.handleKeyDown a p) = Physics.handleKeyUp a p /\
    (a <> b ->
     Physics.handleKeyDown a (Physics.handleKeyDown b p)
     = Physics.handleKeyDown b (Physics.handleKeyDown a p) /\
     Physics.handleKeyUp a (Physics.handleKeyDown b p)
     = Physics.handleKeyDown b (Physics.handleKeyUp a p) /\
     Physics.handleKeyUp a (Physics.handleKeyUp b p)
     = Physics.handleKeyUp b (Physics.handleKeyUp a p)).
Proof.
  intros [v dir f s [kf kb kl kr kj ks]] a b.
  split; [ | split ].
  - destruct a, f; reflexivity.
  - destruct a, f; reflexivity.
  - intros Hne. destruct a, b; try (exfalso; apply Hne; reflexivity);
      destruct f; repeat split.
Qed.

(** X16. [reset] stops the player, releases every key and sets the
    grounded flag, but leaves the move speed as it is: after a reset made
    while sprinting no key is held and the speed is still the sprint
    speed, and Space is accepted at once, wherever the player is. *)
Theorem reset_keeps_speed :
  forall (p : PhysicsManager),
    let p' := Physics.reset p in
    playerVelocity p' = Vector3.zero /\
    keys p' = KeyState.released /\
    currentMoveSpeed p' = currentMoveSpeed p /\
    Physics.handleKeyDown Space p' = set_jump true p' /\
    (speedFollowsSprint p' <-> currentMoveSpeed p = baseMoveSpeed physics) /\
    (KeyState.sprint (keys p) = true -> speedFollowsSprint p -> ~ speedFollowsSprint p').
Proof.
  intros [v dir f s [kf kb kl kr kj ks]]. cbv zeta.
  unfold speedFollowsSprint. cbn.
  repeat split; try (intros H; exact H).
  intros -> ->. discriminate.
Qed.

(** X17. While the pointer is not locked nothing reaches the player: key
    events are not forwarded and the frame returns at once, so no
    sequence of inputs changes the manager or the camera. *)
Theorem play_unlocked :
  forall (sqrt : Q -> Q) (inputs : list (Physics.Input)) (d : Desktop),
    isLocked (pointerLockControls d) = false ->
    Physics.play sqrt inputs d = d.
Proof.
  intros sqrt inputs d Hl. unfold Physics.play.
  induction inputs as [ | i inputs IH]; [ reflexivity | ].
  cbn [fold_left].
  assert (Hi : Physics.react sqrt d i = d).
  { destruct i; cbn [Physics.react]; [ rewrite Hl; reflexivity | rewrite Hl; reflexivity | ].
    apply tick_unlocked. exact Hl. }
  rewrite Hi. exact IH.
Qed.

Lemma play_unlocked_witness :
  Physics.play sqrt_floor
    [ Physics.KeyDown KeyW; Physics.Frame (1 # 60) emptyWorld; Physics.KeyDown ShiftLeft ]
    {| physicsManager := Physics.create;
       pointerLockControls :=
         {| isLocked := false; position := Vector3.zero;
            matrixColumn0 := Vector3.mk 1 0 0; up := Vector3.mk 0 1 0 |} |}
  = {| physicsManager := Physics.create;
       pointerLockControls :=
         {| isLocked := false; position := Vector3.zero;
            matrixColumn0 := Vector3.mk 1 0 0; up := Vector3.mk 0 1 0 |} |}.
Proof.
  apply (play_unlocked sqrt_floor). reflexivity.
Defined.

Lemma lastGamepad_snoc h cs c :
  lastGamepad h (cs ++ [c])
  = match gamepad c with
    | Some g => if String.eqb (hand c) h then Some g else lastGamepad h cs
    | None => lastGamepad h cs
    end.
Proof.
  unfold lastGamepad. rewrite rev_app_distr. cbn [rev app find].
  destruct (gamepad c) as [g | ] eqn:Hg; [ | reflexivity ].
  destruct (String.eqb (hand c) h); [ exact Hg | reflexivity ].
Qed.

(** X18. The VR tick takes its two gamepads from the list of controllers
    by hand, the last one winning: the move gamepad is that of the last
    left-hand controller that has a gamepad, the turn gamepad that of the
    last right-hand one; controllers without a gamepad or held in no hand
    are passed over. *)
Theorem pickGamepads_last :
  forall (vrControllers : list Controller),
    Physics.pickGamepads vrControllers
    = (lastGamepad "left" vrControllers, lastGamepad "right" vrControllers).
Proof.
  intros cs. unfold Physics.pickGamepads.
  induction cs as [ | c cs IH] using rev_ind; [ reflexivity | ].
  rewrite fold_left_app, IH. cbn [fold_left fst snd].
  rewrite !lastGamepad_snoc.
  destruct (gamepad c) as [g | ]; [ | reflexivity ].
  destruct (String.eqb_spec (hand c) "left") as [E | N].
  - rewrite E. reflexivity.
  - destruct (String.eqb (hand c) "right"); reflexivity.
Qed.

(** X19. Holding a key, the velocity along an axis the collision loop does
    not block moves towards a terminal velocity, the one at which friction
    and the key balance: in each locked frame its distance to that
    velocity is multiplied by [1 - friction * delta]. *)
Theorem tick_approaches_terminal :
  forall (sqrt : Q -> Q) (delta : Q) (cast : Raycast) (d : Desktop),
    isLocked (pointerLockControls d) = true ->
    let p := physicsManager d in
    let d' := Physics.updatePlayerDesktop sqrt delta cast d in
    let cp := desktopCheckPos (Physics.desktopBeforeCollision sqrt delta cast d) in
    (KeyState.forward (keys p) || KeyState.backward (keys p) = true ->
     hitsNear cast cp dirZ || hitsNear cast cp dirZneg = false ->
     Vector3.z (playerVelocity (physicsManager d')) - terminalZ sqrt p
     == (1 - friction physics * delta) * (Vector3.z (playerVelocity p) - terminalZ sqrt p)) /\
    (KeyState.left (keys p) || KeyState.right (keys p) = true ->
     hitsNear cast cp dirX || hitsNear cast cp dirXneg = false ->
     Vector3.x (playerVelocity (physicsManager d')) - terminalX sqrt p
     == (1 - friction physics * delta) * (Vector3.x (playerVelocity p) - terminalX sqrt p)).
Proof.
  intros sqrt delta cast d Hl. cbv zeta.
  destruct (tick_horizontal sqrt delta cast d Hl) as (_ & Hx & Hz). cbv zeta in Hx, Hz.
  split.
  - intros Hk Hw. rewrite Hz, Hw, Hk. unfold terminalZ, damped.
    set (dz := Vector3.z (inputDirection sqrt (keys (physicsManager d))
                            (Vector3.y (playerDirection (physicsManager d))))).
    change (friction physics) with 10. field.
  - intros Hk Hw. rewrite Hx, Hw, Hk. unfold terminalX, damped.
    set (dx := Vector3.x (inputDirection sqrt (keys (physicsManager d))
                            (Vector3.y (playerDirection (physicsManager d))))).
    change (friction physics) with 10. field.
Qed.

Lemma tick_approaches_terminal_witness :
  let d := standing (Physics.handleKeyDown KeyW Physics.create) in
  let d' := Physics.updatePlayerDesktop sqrt_floor (1 # 50) emptyWorld d in
  terminalZ sqrt_floor (physicsManager d) == - (2) /\
  Vector3.z (playerVelocity (physicsManager d')) - terminalZ sqrt_floor (physicsManager d)
  == (1 - friction physics * (1 # 50))
     * (Vector3.z (playerVelocity (physicsManager d)) - terminalZ sqrt_floor (physicsManager d)).
Proof.
  cbv zeta. split; [ vm_compute; reflexivity | ].
  apply (proj1 (tick_approaches_terminal sqrt_floor (1 # 50) emptyWorld
                  (standing (Physics.handleKeyDown KeyW Physics.create)) eq_refl));
    reflexivity.
Defined.

Lemma tick_emptyWorld sqrt delta d :
  isLocked (pointerLockControls d) = true ->
  let d' := Physics.updatePlayerDesktop sqrt delta emptyWorld d in
  let c := pointerLockControls d in
  let v' := playerVelocity (physicsManager d') in
  isLocked (pointerLockControls d') = true /\
  matrixColumn0 (pointerLockControls d') = matrixColumn0 c /\
  up (pointerLockControls d') = up c /\
  keys (physicsManager d') = keys (physicsManager d) /\
  playerOnFloor (physicsManager d') = false /\
  Vector3.y v' = Vector3.y (playerVelocity (physicsManager d)) + gravity physics * delta /\
  Vector3.y (position (pointerLockControls d'))
  == Vector3.y (position c) + Vector3.y v' * delta
     + Vector3.y (matrixColumn0 c) * (- Vector3.x v' * delta)
     + (Vector3.z (up c) * Vector3.x (matrixColumn0 c)
        - Vector3.x (up c) * Vector3.z (matrixColumn0 c)) * (- Vector3.z v' * delta).
Proof.
  intros Hl. cbv zeta. rewrite (tick_locked sqrt delta emptyWorld d Hl).
  destruct d as [[v dir f s k] [l pos right up]]. cbn in Hl. subst l.
  cbn. repeat split; try ring.
Qed.

Lemma count_S n : count (S n) == count n + 1.
Proof.
  unfold count. rewrite Nat2Z.inj_succ, <- Z.add_1_r, inject_Z_plus. reflexivity.
Qed.

(** X20. With no collider under the player (before the collider model has
    arrived, or past the edge of it) a locked player falls freely: after n
    frames of length delta the vertical velocity has grown by n times
    gravity * delta, a level camera has moved down by the sum of the
    velocities of the frames, the grounded flag is off from the first
    frame on, and a pending jump is never spent. *)
Theorem frames_free_fall :
  forall (sqrt : Q -> Q) (delta : Q) (d : Desktop) (n : nat),
    isLocked (pointerLockControls d) = true ->
    level (pointerLockControls d) ->
    let d' := Physics.frames sqrt n delta emptyWorld d in
    Vector3.y (playerVelocity (physicsManager d'))
    == Vector3.y (playerVelocity (physicsManager d)) + count n * (gravity physics * delta) /\
    Vector3.y (position (pointerLockControls d'))
    == Vector3.y (position (pointerLockControls d))
       + count n * (Vector3.y (playerVelocity (physicsManager d)) * delta)
       + count n * (count n + 1) * (1 # 2) * (gravity physics * delta * delta) /\
    keys (physicsManager d') = keys (physicsManager d) /\
    (n <> 0%nat -> playerOnFloor (physicsManager d') = false).
Proof.
  intros sqrt delta d n Hl (Hr & Hux & Huz). cbv zeta.
  assert (H : let d' := Physics.frames sqrt n delta emptyWorld d in
              isLocked (pointerLockControls d') = true /\
              matrixColumn0 (pointerLockControls d') = matrixColumn0 (pointerLockControls d) /\
              up (pointerLockControls d') = up (pointerLockControls d) /\
              Vector3.y (playerVelocity (physicsManager d'))
              == Vector3.y (playerVelocity (physicsManager d))
                 + count n * (gravity physics * delta) /\
              Vector3.y (position (pointerLockControls d'))
              == Vector3.y (position (pointerLockControls d))
                 + count n * (Vector3.y (playerVelocity (physicsManager d)) * delta)
                 + count n * (count n + 1) * (1 # 2) * (gravity physics * delta * delta) /\
              keys (physicsManager d') = keys (physicsManager d) /\
              (n <> 0%nat -> playerOnFloor (physicsManager d') = false)).
  { induction n as [ | n IH]; cbv zeta.
    - cbn [Physics.frames]. change (count 0) with 0.
      repeat split; try exact Hl; try ring. intros N; exfalso; apply N; reflexivity.
    - cbn [Physics.frames]. cbv zeta in IH.
      destruct IH as (I1 & I2 & I3 & I4 & I5 & I6 & _).
      destruct (tick_emptyWorld sqrt delta (Physics.frames sqrt n delta emptyWorld d) I1)
        as (T1 & T2 & T3 & T4 & T5 & T6 & T7).
      cbv zeta in T1, T2, T3, T4, T5, T6, T7.
      split; [ exact T1 | ]. split; [ rewrite T2; exact I2 | ].
      split; [ rewrite T3; exact I3 | ].
      assert (Hvy : Vector3.y (playerVelocity (physicsManager
                      (Physics.updatePlayerDesktop sqrt delta emptyWorld
                         (Physics.frames sqrt n delta emptyWorld d))))
                    == Vector3.y (playerVelocity (physicsManager d))
                       + count (S n) * (gravity physics * delta)).
      { rewrite T6, I4, count_S. ring. }
      split; [ exact Hvy | ].
      split; [ | split; [ rewrite T4; exact I6 | intros _; exact T5 ] ].
      rewrite T7, I2, I3, Hr, Hux, Huz, Hvy, I5, count_S. ring. }
  cbv zeta in H. destruct H as (_ & _ & _ & H4 & H5 & H6 & H7).
  repeat split; assumption.
Qed.

Lemma frames_free_fall_witness :
  let d := lockedAt (Vector3.mk 0 10 0) Vector3.zero Physics.create in
  Vector3.y (position (pointerLockControls
               (Physics.frames sqrt_floor 3 (1 # 10) emptyWorld d)))
  == Vector3.y (position (pointerLockControls d))
     + count 3 * (Vector3.y (playerVelocity (physicsManager d)) * (1 # 10))
     + count 3 * (count 3 + 1) * (1 # 2) * (gravity physics * (1 # 10) * (1 # 10)).
Proof.
  cbv zeta.
  apply (proj1 (proj2 (frames_free_fall sqrt_floor (1 # 10)
                         (lockedAt (Vector3.mk 0 10 0) Vector3.zero Physics.create) 3
                         eq_refl
                         (conj (Qeq_refl 0) (conj (Qeq_refl 0) (Qeq_refl 0)))))).
Defined.

(** X21. Every locked frame sets the grounded flag anew, from one probe
    straight down from the place the collision loop has left the camera
    at: the flag is on exactly when the nearest hit is less than the player
    height plus 0.1 away. A hit nearer than the player height puts the
    camera at the player height above the hit and leaves no downward
    velocity; otherwise the last stage moves nothing. *)
Theorem tick_grounded_flag :
  forall (sqrt : Q -> Q) (delta : Q) (cast : Raycast) (d : Desktop),
    isLocked (pointerLockControls d) = true ->
    let d' := Physics.updatePlayerDesktop sqrt delta cast d in
    let d5 := afterCollision sqrt delta cast d in
    let probe := cast (position (pointerLockControls d5)) down in
    playerOnFloor (physicsManager d')
    = Physics.nearerThan (playerHeight physics + (1 # 10)) probe /\
    (Physics.nearerThan (playerHeight physics) probe = true ->
     Vector3.y (position (pointerLockControls d'))
     = match probe with h :: _ => Vector3.y (point h) + playerHeight physics | [] => 0 end /\
     playerOnFloor (physicsManager d') = true /\
     0 <= Vector3.y (playerVelocity (physicsManager d'))) /\
    (Physics.nearerThan (playerHeight physics) probe = false ->
     pointerLockControls d' = pointerLockControls d5 /\
     playerVelocity (physicsManager d') = playerVelocity (physicsManager d5)).
Proof.
  intros sqrt delta cast d Hl. cbv zeta. rewrite (tick_locked sqrt delta cast d Hl).
  unfold afterCollision.
  set (d5 := Physics.desktopCollide cast (Physics.desktopBeforeCollision sqrt delta cast d)).
  unfold Physics.desktopGround. cbv zeta.
  destruct (cast (position (pointerLockControls d5)) down) as [ | h rest];
    cbn [Physics.nearerThan].
  - cbn. split; [ reflexivity | ]. split; [ discriminate | ]. intros _. split; reflexivity.
  - destruct (Qltb (distance h) (playerHeight physics)) eqn:Enear.
    + assert (E1 : Qltb (distance h) (playerHeight physics + (1 # 10)) = true).
      { apply Qltb_lt. apply Qltb_lt in Enear. lra. }
      rewrite E1. split; [ reflexivity | ]. split; [ | discriminate ].
      intros _. cbn [pointerLockControls physicsManager position set_pos Vector3.setY
                       Vector3.y playerOnFloor set_velocity set_onFloor playerVelocity].
      split; [ reflexivity | ]. split; [ reflexivity | ].
      destruct (Qltb (Vector3.y (playerVelocity (physicsManager d5))) 0) eqn:Ev.
      * cbn. lra.
      * apply Qltb_ge in Ev. exact Ev.
    + split; [ | split; [ discriminate | ] ].
      * destruct (Qltb (distance h) (playerHeight physics + (1 # 10))); reflexivity.
      * intros _.
        destruct (Qltb (distance h) (playerHeight physics + (1 # 10))); split; reflexivity.
Qed.

Lemma tick_grounded_flag_witness :
  playerOnFloor (physicsManager
                   (Physics.updatePlayerDesktop sqrt_floor (1 # 60)
                      (PlaneWorld.cast [floorPlane]) (standing Physics.create))) = true.
Proof.
  rewrite (proj1 (tick_grounded_flag sqrt_floor (1 # 60) (PlaneWorld.cast [floorPlane])
                    (standing Physics.create) eq_refl)).
  vm_compute. reflexivity.
Defined.

Ltac vr_cases :=
  repeat match goal with
    | |- context [match ?e with _ => _ end] =>
        lazymatch e with
        | context [match _ with _ => _ end] => fail
        | _ => destruct e
        end
    end.

Ltac vr_stage :=
  cbn [vr_physicsManager playerRig playerVelocity playerDirection playerOnFloor
         currentMoveSpeed keys set_velocity Physics.set_rig_position Physics.rotateY
         rig_position rig_rotationY Physics.applyFriction fst snd];
  vr_cases;
  cbn [vr_physicsManager playerRig playerVelocity playerDirection playerOnFloor
         currentMoveSpeed keys set_velocity Physics.set_rig_position Physics.rotateY
         rig_position rig_rotationY fst snd];
  try reflexivity.

(** A VR state with everything of the manager but the velocity replaced. *)
Lemma vrBeforeCollision_reframe sqrt delta wd cu cast cs p0 s :
  Physics.vrBeforeCollision sqrt delta wd cu cast cs
    {| vr_physicsManager := set_velocity (playerVelocity (vr_physicsManager s)) p0;
       playerRig := playerRig s |}
  = let r := Physics.vrBeforeCollision sqrt delta wd cu cast cs s in
    {| vr_physicsManager := set_velocity (playerVelocity (vr_physicsManager r)) p0;
       playerRig := playerRig r |}.
Proof.
  destruct s as [[v dir f sp k] rig]. destruct p0 as [v0 dir0 f0 sp0 k0]. cbv zeta.
  unfold Physics.vrBeforeCollision. vr_stage.
Qed.

Lemma vrCollide_reframe cast p0 s :
  Physics.vrCollide cast
    {| vr_physicsManager := set_velocity (playerVelocity (vr_physicsManager s)) p0;
       playerRig := playerRig s |}
  = let r := Physics.vrCollide cast s in
    {| vr_physicsManager := set_velocity (playerVelocity (vr_physicsManager r)) p0;
       playerRig := playerRig r |}.
Proof.
  destruct s as [[v dir f sp k] rig]. destruct p0 as [v0 dir0 f0 sp0 k0]. cbv zeta.
  unfold Physics.vrCollide. vr_stage.
Qed.

Lemma vrGround_reframe cast p0 s :
  Physics.vrGround cast
    {| vr_physicsManager := set_velocity (playerVelocity (vr_physicsManager s)) p0;
       playerRig := playerRig s |}
  = let r := Physics.vrGround cast s in
    {| vr_physicsManager := set_velocity (playerVelocity (vr_physicsManager r)) p0;
       playerRig := playerRig r |}.
Proof.
  destruct s as [[v dir f sp k] rig]. destruct p0 as [v0 dir0 f0 sp0 k0]. cbv zeta.
  unfold Physics.vrGround. vr_stage.
Qed.

Lemma updatePlayerVR_reframe sqrt delta wd cu cast cs p0 s :
  Physics.updatePlayerVR sqrt delta wd cu cast cs
    {| vr_physicsManager := set_velocity (playerVelocity (vr_physicsManager s)) p0;
       playerRig := playerRig s |}
  = let r := Physics.updatePlayerVR sqrt delta wd cu cast cs s in
    {| vr_physicsManager := set_velocity (playerVelocity (vr_physicsManager r)) p0;
       playerRig := playerRig r |}.
Proof.
  unfold Physics.updatePlayerVR.
  rewrite vrBeforeCollision_reframe. cbv zeta.
  rewrite vrCollide_reframe. cbv zeta.
  rewrite vrGround_reframe. reflexivity.
Qed.

(** X22. The VR tick reads and writes the velocity and the rig, and
    nothing else of the manager: it changes no key, neither the grounded
    flag nor the move speed nor the stored direction, and what it does to
    the velocity and to the rig is the same whatever those are, so
    nothing typed on the keyboard carries over into VR. *)
Theorem updatePlayerVR_ignores_keys :
  forall (sqrt : Q -> Q) (delta : Q) (worldDirection cameraUp : Vector3.t)
         (cast : Raycast) (vrControllers : list Controller) (s : VR),
    let tick := Physics.updatePlayerVR sqrt delta worldDirection cameraUp cast vrControllers in
    vr_physicsManager (tick s)
    = set_velocity (playerVelocity (vr_physicsManager (tick s))) (vr_physicsManager s) /\
    (forall p : PhysicsManager,
        let s2 := {| vr_physicsManager := set_velocity (playerVelocity (vr_physicsManager s)) p;
                     playerRig := playerRig s |} in
        playerVelocity (vr_physicsManager (tick s2)) = playerVelocity (vr_physicsManager (tick s)) /\
        playerRig (tick s2) = playerRig (tick s)).
Proof.
  intros sqrt delta wd cu cast cs s. cbv zeta. split.
  - pose proof (updatePlayerVR_reframe sqrt delta wd cu cast cs (vr_physicsManager s) s) as H.
    cbv zeta in H.
    assert (E : {| vr_physicsManager :=
                     set_velocity (playerVelocity (vr_physicsManager s)) (vr_physicsManager s);
                   playerRig := playerRig s |} = s).
    { destruct s as [[v dir f sp k] rig]. reflexivity. }
    rewrite E in H. rewrite H at 1. reflexivity.
  - intros p. rewrite updatePlayerVR_reframe. cbv zeta.
    destruct p; split; reflexivity.
Qed.

(** ** Properties of the camera setup *)

Lemma setupCamera_coherent config isVR v :
  listenerParent v = activeCamera v /\ oc_object (orbitControls v) = activeCamera v ->
  coherent (Camera.setupCamera config isVR v).
Proof.
  destruct v as [act pp op fov rp lp [obj en ar ars tg pan zoom rot] lc uc].
  cbn [listenerParent activeCamera orbitControls oc_object]. intros [-> ->].
  destruct config as [ty ct pos la f car cars cpan czoom crot].
  destruct ty, ct as [[ | ] | ], act, isVR; cbv -[or_number]; repeat split; intros; congruence.
Qed.

(** X23. Whatever sequence of setups the camera manager goes through, the
    audio listener and the orbit controller stay on the active camera,
    auto-rotation is on only while the orbit controller is enabled, and
    the orthographic camera is active only in an orbit mode; if none of
    the setups is made in VR the rig never moves, and if all are, the
    pointer lock is never asked for. *)
Theorem view_coherent :
  forall (c : CameraManager),
    coherent (view c) /\
    (forallb (fun su => negb (snd su)) (setups c) = true ->
     rigPosition (view c) = rigPosition Camera.create) /\
    (forallb (fun su => snd su) (setups c) = true -> lockCalls (view c) = 0%nat).
Proof.
  intros [log]. unfold view. cbn [setups].
  assert (H : forall v,
             coherent v ->
             let v' := fold_left (fun v su => Camera.setupCamera (fst su) (snd su) v) log v in
             coherent v' /\
             (forallb (fun su => negb (snd su)) log = true -> rigPosition v' = rigPosition v) /\
             (forallb (fun su => snd su) log = true -> lockCalls v' = lockCalls v)).
  { induction log as [ | [config vr] log IH]; intros v Hv; cbv zeta.
    - cbn. repeat split; apply Hv.
    - cbn [fold_left fst snd forallb].
      assert (Hv' : coherent (Camera.setupCamera config vr v)).
      { apply setupCamera_coherent. destruct Hv as (H1 & H2 & _). split; assumption. }
      destruct (IH _ Hv') as (I1 & I2 & I3). cbv zeta in I1, I2, I3.
      split; [ exact I1 | ]. split.
      + intros Hall. apply andb_true_iff in Hall. destruct Hall as [Hvr Hall].
        rewrite (I2 Hall). destruct vr; [ discriminate Hvr | ].
        destruct v as [act pp op fov rp lp [obj en ar ars tg pan zoom rot] lc uc].
        destruct config as [ty ct pos la f car cars cpan czoom crot].
        destruct ty, ct as [[ | ] | ], act; reflexivity.
      + intros Hall. apply andb_true_iff in Hall. destruct Hall as [Hvr Hall].
        rewrite (I3 Hall). destruct vr; [ | discriminate Hvr ].
        destruct v as [act pp op fov rp lp [obj en ar ars tg pan zoom rot] lc uc].
        destruct config as [ty ct pos la f car cars cpan czoom crot].
        destruct ty, ct as [[ | ] | ], act; reflexivity. }
  apply (H Camera.create). unfold coherent. cbn. repeat split; intros; congruence.
Qed.

(** X24. A second, identical setup changes none of the settings the first
    has made: the active camera, the field of view, the rig position, the
    listener and the orbit controller's object, enabled flag, auto-rotate
    flag and speed and its pan, zoom and rotate switches are as the first
    setup left them. What a second setup does again is to ask for the
    pointer lock (a desktop setup for walking) and to call
    [orbitControls.update()] (a setup in an orbit mode), which may move
    the camera once more; only a setup for walking, which calls no
    [update()], also leaves the positions and the target as they were. *)
Theorem setupCamera_twice :
  forall (config : CameraConfig) (isVR : bool) (v : Cameras),
    let v1 := Camera.setupCamera config isVR v in
    let v2 := Camera.setupCamera config isVR v1 in
    activeCamera v2 = activeCamera v1 /\
    perspectiveFov v2 = perspectiveFov v1 /\
    rigPosition v2 = rigPosition v1 /\
    listenerParent v2 = listenerParent v1 /\
    oc_object (orbitControls v2) = oc_object (orbitControls v1) /\
    oc_enabled (orbitControls v2) = oc_enabled (orbitControls v1) /\
    oc_autoRotate (orbitControls v2) = oc_autoRotate (orbitControls v1) /\
    oc_autoRotateSpeed (orbitControls v2) = oc_autoRotateSpeed (orbitControls v1) /\
    oc_enablePan (orbitControls v2) = oc_enablePan (orbitControls v1) /\
    oc_enableZoom (orbitControls v2) = oc_enableZoom (orbitControls v1) /\
    oc_enableRotate (orbitControls v2) = oc_enableRotate (orbitControls v1) /\
    (match cc_type config with
     | pointerlock =>
         lockCalls v2 = (if isVR then lockCalls v1 else S (lockCalls v1)) /\
         updateCalls v2 = updateCalls v1 /\
         perspectivePosition v2 = perspectivePosition v1 /\
         orthographicPosition v2 = orthographicPosition v1 /\
         oc_target (orbitControls v2) = oc_target (orbitControls v1)
     | _ =>
         lockCalls v2 = lockCalls v1 /\
         updateCalls v2 = S (updateCalls v1)
     end).
Proof.
  intros [ty ct pos la f car cars cpan czoom crot] isVR
         [act pp op fov rp lp [obj en ar ars tg pan zoom rot] lc uc].
  cbv zeta.
  destruct ty, ct as [[ | ] | ], act, isVR; cbv -[or_number]; repeat split.
Qed.

Lemma view_snoc log c vr :
  view {| setups := log ++ [(c, vr)] |} = Camera.setupCamera c vr (view {| setups := log |}).
Proof. unfold view. cbn [setups]. rewrite fold_left_app. reflexivity. Qed.

(** X25. A run of [runNextScene] that returns normally into a step of the
    catalog leaves the cameras as one setup with the configuration of the
    step makes them. In the walk step the perspective camera is active and
    the orbit controller is off; on the desktop the pointer lock is asked
    for once and the camera is put at the start position, in VR the lock
    is not asked for and the rig is put there instead. In every other
    step the orbit controller is on, on the camera the step names (the
    tour always on the perspective one), and the pointer lock is not asked
    for. *)
Theorem runNextScene_view :
  forall (network : string -> Fetch) (arrival : list Request -> list Request)
         (s : SequenceManager) (config : SceneConfig),
    let r := runNextScene network arrival s in
    let k := (currentScene s + 1)%Z in
    APP_CONFIG.scenes k = Some config ->
    fst r = Returned tt ->
    let v := view (cameraManager s) in
    let v' := view (cameraManager (snd r)) in
    (exists c, sceneCamera k config = Some c /\ v' = Camera.setupCamera c (isVR s) v) /\
    (k = 5%Z ->
     activeCamera v' = perspective /\
     oc_enabled (orbitControls v') = false /\
     (if isVR s
      then lockCalls v' = lockCalls v /\
           Some (rigPosition v') = cameraPosition config
      else lockCalls v' = S (lockCalls v) /\
           Some (perspectivePosition v') = cameraPosition config /\
           rigPosition v' = rigPosition v)) /\
    (k <> 5%Z ->
     oc_enabled (orbitControls v') = true /\
     activeCamera v' = (if (k =? 4)%Z then perspective else cameraType config) /\
     lockCalls v' = lockCalls v).
Proof.
  intros network arrival s config. cbv zeta. intros Hcfg Hret.
  destruct (runNextScene_camera_log network arrival s config Hcfg Hret) as (c & Hc & Hs).
  assert (Hv : view (cameraManager (snd (runNextScene network arrival s)))
               = Camera.setupCamera c (isVR s) (view (cameraManager s))).
  { destruct (cameraManager (snd (runNextScene network arrival s))) as [log'].
    cbn [setups] in Hs. subst log'.
    destruct (cameraManager s) as [log]. cbn [setups]. apply view_snoc. }
  rewrite Hv. split; [ exists c; split; [ exact Hc | reflexivity ] | ].
  destruct (view (cameraManager s))
    as [act pp op fov rp lp [obj en ar ars tg pan zoom rot] lc uc].
  destruct (scenes_cases _ config Hcfg)
    as [[E ->] | [[E ->] | [[E ->] | [[E ->] | [[E ->] | [E ->]]]]]];
    rewrite E in *; cbv in Hc; injection Hc as <-;
    (split; [ intros H5; try discriminate H5 | intros N5; try (exfalso; apply N5; reflexivity) ]).
  all: destruct act, (isVR s); cbv -[or_number]; repeat split.
Qed.

Lemma runNextScene_view_witness :
  let s := snd (advance network_ok (fun rs => rs) 5
                  (start false APP_CONFIG.assets_sounds page_ok)) in
  let r := runNextScene network_ok (fun rs => rs) s in
  activeCamera (view (cameraManager (snd r))) = perspective /\
  oc_enabled (orbitControls (view (cameraManager (snd r)))) = false.
Proof.
  cbv zeta.
  destruct (runNextScene_view network_ok (fun rs => rs)
              (snd (advance network_ok (fun rs => rs) 5
                      (start false APP_CONFIG.assets_sounds page_ok)))
              APP_CONFIG.scene5 eq_refl eq_refl) as (_ & H5 & _).
  destruct (H5 eq_refl) as (Ha & Ho & _). split; assumption.
Defined.
